(** * gltf-to-glb: the glTF to GLB converter of [src/index.js]

    A shallow embedding of [GLTFToGLBConverter] (the methods [convertAll],
    [convertGLTFToGLB], [createGLB] and [getMimeType]) and the properties of
    its resource consolidation, of its binary framing and of its batch loop.

    - Parsed JSON is a tree [json]; a JavaScript object is an association list
      in property-enumeration order, with the own-property operations
      [get], [set] and [delete]. A number that is an integer is a [Z] (byte
      offsets, byte lengths and indices, added exactly, as doubles add them
      up to [2^53]); any other number is carried through by its literal.
    - A Node [Buffer] is a [list byte].
    - The file system under the input folder is a function from a URI to what
      [path.join(this.inputFolder, uri)] names.
    - A thrown exception is the [Throw] result. The document is a JSON
      object. Where JavaScript would convert a value in a way the embedding
      does not follow (a [buffers] or [images] member that is truthy and no
      array, a [byteOffset] that is a number with a fraction, an array or an
      object) the embedding stops with [Unmodelled].
    - [Store] gives the same method over an explicit store of objects and
      arrays, with references and in-place updates, to speak about aliasing
      between the parsed input and the patched copy.
    - [convertAll] runs over a file system that is left abstract: what the
      input folder lists, what a [.gltf] file parses to, what a URI names
      and what a write does are parameters of the loop. *)

From Stdlib Require Import ZArith List String Ascii Lia DecimalString.
From Stdlib Require Import Strings.Byte.
From stdpp Require Import base list.
Import ListNotations.

Local Open Scope Z_scope.

(** ** JSON values *)

#[warnings="-register-all"]
Inductive json : Type :=
| JNull
| JBool (b : bool)
| JNum (n : Z)
| JStr (s : string)
| JArr (l : list json)
| JObj (o : list (string * json))
| JFrac (literal : string).  (* a number that is no integer *)

(** A JavaScript object: its own properties, in enumeration order. The keys
    of an object are pairwise distinct. *)
Abbreviation obj := (list (string * json)).

(** [o.k]: the first (only) binding of [k]; [None] is [undefined]. *)
Fixpoint get {A : Type} (k : string) (o : list (string * A)) : option A :=
  match o with
  | [] => None
  | (k', v) :: o' => if String.eqb k k' then Some v else get k o'
  end.

(** [o.k = v]: an existing property keeps its place, a new one goes last. *)
Fixpoint set {A : Type} (k : string) (v : A) (o : list (string * A))
  : list (string * A) :=
  match o with
  | [] => [(k, v)]
  | (k', v') :: o' =>
      if String.eqb k k' then (k', v) :: o' else (k', v') :: set k v o'
  end.

(** [delete o.k]. *)
Fixpoint delete {A : Type} (k : string) (o : list (string * A))
  : list (string * A) :=
  match o with
  | [] => []
  | (k', v') :: o' =>
      if String.eqb k k' then delete k o' else (k', v') :: delete k o'
  end.

(** JavaScript truthiness of a JSON value. *)
Definition truthy (v : json) : bool :=
  match v with
  | JNull => false
  | JBool b => b
  | JNum n => negb (n =? 0)
  | JStr s => negb (String.eqb s EmptyString)
  | JArr _ => true
  | JObj _ => true
  | JFrac _ => true
  end.

(** Truthiness of a property that may be [undefined]. *)
Definition truthy_prop (p : option json) : bool :=
  match p with
  | Some v => truthy v
  | None => false
  end.

(** Induction on a JSON tree, through its arrays and objects. *)
Fixpoint json_ind' (P : json -> Prop)
    (Hnull : P JNull) (Hbool : forall b, P (JBool b)) (Hnum : forall n, P (JNum n))
    (Hstr : forall s, P (JStr s)) (Hfrac : forall x, P (JFrac x))
    (Harr : forall l, Forall P l -> P (JArr l))
    (Hobj : forall o, Forall (fun kx => P (snd kx)) o -> P (JObj o))
    (j : json) : P j :=
  match j with
  | JNull => Hnull
  | JBool b => Hbool b
  | JNum n => Hnum n
  | JStr s => Hstr s
  | JFrac x => Hfrac x
  | JArr l =>
      Harr l ((fix elems (l : list json) : Forall P l :=
                 match l with
                 | [] => @List.Forall_nil json P
                 | x :: l' =>
                     @List.Forall_cons json P x l'
                       (json_ind' P Hnull Hbool Hnum Hstr Hfrac Harr Hobj x) (elems l')
                 end) l)
  | JObj o =>
      Hobj o ((fix props (o : list (string * json)) : Forall (fun kx => P (snd kx)) o :=
                 match o with
                 | [] => @List.Forall_nil (string * json) (fun kx => P (snd kx))
                 | kx :: o' =>
                     @List.Forall_cons (string * json) (fun kx => P (snd kx)) kx o'
                       (json_ind' P Hnull Hbool Hnum Hstr Hfrac Harr Hobj (snd kx)) (props o')
                 end) o)
  end.

(** ** Exceptions *)

Inductive error : Type :=
| TypeError    (* property access on null, call of a non-function, ... *)
| RangeError   (* writeUInt32LE out of range *)
| IOError      (* readFileSync on something that is not a readable file *)
| Unmodelled.  (* an implicit conversion of JavaScript this embedding leaves out *)

Inductive result (A : Type) : Type :=
| Ok (a : A)
| Throw (e : error).

Arguments Ok {A} a.
Arguments Throw {A} e.

(** Sequencing: an exception ends the conversion. *)
#[global] Instance result_bind : MBind result :=
  fun A B (f : A -> result B) (r : result A) =>
    match r with
    | Ok a => f a
    | Throw e => Throw e
    end.

(** ** Buffers and the file system *)

Abbreviation bytes := (list byte).

(** What a path under the input folder names. [fs.existsSync] holds of both;
    [fs.readFileSync] returns the data of a file and throws on the rest
    (a directory, a file that may not be read). *)
Inductive fsentry : Type :=
| File (data : bytes)
| Unreadable.

(** The chunks pushed onto [binaryChunks], tagged by the statement that pushes
    them: file data ([binaryChunks.push(bufferData)],
    [binaryChunks.push(imageData)]) or alignment padding
    ([binaryChunks.push(Buffer.alloc(padding, 0))]). *)
Inductive chunk : Type :=
| Data (d : bytes)
| Padding (n : Z).

(** [Buffer.alloc(n, fill)]. *)
Definition Buffer_alloc (n : Z) (fill : byte) : bytes := repeat fill (Z.to_nat n).

Definition chunk_bytes (c : chunk) : bytes :=
  match c with
  | Data d => d
  | Padding n => Buffer_alloc n x00
  end.

(** [Buffer.concat(binaryChunks)]. *)
Definition Buffer_concat (cs : list chunk) : bytes := flat_map chunk_bytes cs.

(** [buf.length]. *)
Definition blen (b : bytes) : Z := Z.of_nat (length b).

(** The least significant byte of [z]. *)
Definition u8 (z : Z) : byte :=
  match Byte.of_N (Z.to_N (Z.land z 255)) with
  | Some b => b
  | None => x00
  end.

(** The four bytes [writeUInt32LE] stores. *)
Definition le32 (v : Z) : bytes :=
  [u8 v; u8 (Z.shiftr v 8); u8 (Z.shiftr v 16); u8 (Z.shiftr v 24)].

(** [buf.writeUInt32LE(v, off)] on a zeroed buffer: the bytes written, or the
    range error Node raises when [v] is not an unsigned 32-bit integer. *)
Definition writeUInt32LE (v : Z) : result bytes :=
  if (0 <=? v) && (v <? 2 ^ 32) then Ok (le32 v) else Throw RangeError.

Definition byte_val (b : byte) : Z := Z.of_N (Byte.to_N b).

(** [buf.readUInt32LE(off)]: what a reader of the container decodes. *)
Definition readUInt32LE (buf : bytes) (off : nat) : option Z :=
  match skipn off buf with
  | b0 :: b1 :: b2 :: b3 :: _ =>
      Some (byte_val b0 + Z.shiftl (byte_val b1) 8
            + Z.shiftl (byte_val b2) 16 + Z.shiftl (byte_val b3) 24)
  | _ => None
  end.

(** [(4 - (n % 4)) % 4]. *)
Definition padding_of (n : Z) : Z := (4 - (n mod 4)) mod 4.

(** ** [getMimeType] *)

Definition lower_ascii (c : ascii) : ascii :=
  let n := N_of_ascii c in
  if ((65 <=? n) && (n <=? 90))%N then ascii_of_N (n + 32) else c.

(** [extension.toLowerCase()]. Strings are UTF-8 byte strings; the letters
    A to Z are folded, every other byte is kept. *)
Fixpoint toLowerCase (s : string) : string :=
  match s with
  | EmptyString => EmptyString
  | String c s' => String (lower_ascii c) (toLowerCase s')
  end.

Definition mimeTypes : obj :=
  [ (".jpg", JStr "image/jpeg");
    (".jpeg", JStr "image/jpeg");
    (".png", JStr "image/png");
    (".gif", JStr "image/gif");
    (".bmp", JStr "image/bmp");
    (".webp", JStr "image/webp") ]%string.

(** Line 223, for the own properties of [mimeTypes]. The lookup also finds
    what an object literal inherits ([constructor], [__proto__]); no string
    that [path.extname] returns, empty or with a dot first, names one of
    these, and line 102 takes the extension from there. *)
Definition getMimeType (extension : string) : json :=
  match get (toLowerCase extension) mimeTypes with
  | Some m => if truthy m then m else JStr "application/octet-stream"
  | None => JStr "application/octet-stream"
  end.

(** ** [convertGLTFToGLB]: collecting the resources and patching the document *)

(** The local state of [convertGLTFToGLB]: [binaryChunks], [totalSize] and
    the document under modification. *)
Record state : Type := mkState {
  binaryChunks : list chunk;
  totalSize : Z;
  modifiedGltf : obj
}.

(** The two statements that follow the push of a file's bytes:
    [totalSize += data.length] and the padding to a multiple of 4
    (lines 72-78 and 120-127). *)
Definition advance (data : bytes) (st : state) : state :=
  let total := totalSize st + blen data in
  let padding := padding_of total in
  if 0 <? padding
  then mkState (binaryChunks st ++ [Padding padding]) (total + padding)
               (modifiedGltf st)
  else mkState (binaryChunks st) total (modifiedGltf st).

(** [entry.uri && !entry.uri.startsWith('data:')] (lines 56 and 98): the
    object and its URI when the test holds. Reading a property of [null]
    throws; a value that is no object has no [uri]; a truthy [uri] that is no
    string has no [startsWith] to call. *)
Definition external_uri (entry : json) : result (option (obj * string)) :=
  match entry with
  | JNull => Throw TypeError
  | JObj o =>
      match get "uri" o with
      | Some u =>
          if truthy u then
            match u with
            | JStr s => if String.prefix "data:" s then Ok None else Ok (Some (o, s))
            | _ => Throw TypeError
            end
          else Ok None
      | None => Ok None
      end
  | _ => Ok None
  end.

(** [bufferView.byteOffset || 0] when it is an integer: the [byteOffset]
    itself, and 0 for a falsy or missing one. *)
Definition byteOffset_or_0 (o : obj) : result Z :=
  match get "byteOffset" o with
  | Some v =>
      if truthy v then
        match v with
        | JNum n => Ok n
        | _ => Throw Unmodelled
        end
      else Ok 0
  | None => Ok 0
  end.

(** [String(n)] for an integer [n] below [10^21]: its decimal digits. *)
Definition Number_toString (n : Z) : string := NilEmpty.string_of_int (Z.to_int n).

(** [(bufferView.byteOffset || 0) + totalSize] (line 66). A falsy or missing
    [byteOffset] counts as 0 and an integer is added to the total; [true] is
    converted to 1; a string that is not empty is concatenated with the
    digits of the total. Two integers are added exactly, which is what the
    addition of doubles gives as long as the sum is at most [2^53] in
    absolute value. The embedding stops on a number that is no integer, on
    an array, on an object, and on the digits of a total from [10^21] on. *)
Definition plus_totalSize (total : Z) (o : obj) : result json :=
  match get "byteOffset" o with
  | Some (JStr s) =>
      if truthy (JStr s) then
        if total <? 10 ^ 21 then Ok (JStr (s ++ Number_toString total))
        else Throw Unmodelled
      else Ok (JNum total)
  | Some (JBool true) => Ok (JNum (1 + total))
  | _ =>
      off ← byteOffset_or_0 o;
      Ok (JNum (off + total))
  end.

(** The body of the loop over the buffer views (lines 65-68). *)
Definition patch_view (i total : Z) (bufferView : json) : result json :=
  match bufferView with
  | JNull => Throw TypeError
  | JObj o =>
      match get "buffer" o with
      | Some (JNum b) =>
          if b =? i then
            sum ← plus_totalSize total o;
            Ok (JObj (set "buffer" (JNum 0) (set "byteOffset" sum o)))
          else Ok bufferView
      | _ => Ok bufferView
      end
  | _ => Ok bufferView
  end.

(** [for (const bufferView of ...)]. *)
Fixpoint patch_view_list (i total : Z) (l : list json) : result (list json) :=
  match l with
  | [] => Ok []
  | bv :: l' =>
      bv' ← patch_view i total bv;
      l'' ← patch_view_list i total l';
      Ok (bv' :: l'')
  end.

(** Lines 63-70. A string iterates over its characters, which have no
    [buffer]; any other truthy value is not iterable. *)
Definition patch_views (i total : Z) (gltf : obj) : result obj :=
  match get "bufferViews" gltf with
  | Some bvs =>
      if truthy bvs then
        match bvs with
        | JArr l =>
            l' ← patch_view_list i total l;
            Ok (set "bufferViews" (JArr l') gltf)
        | JStr _ => Ok gltf
        | _ => Throw TypeError
        end
      else Ok gltf
  | None => Ok gltf
  end.

(** Lines 105-112: create the list when there is none, push the view of the
    image and return its index. A truthy value that is no array has no
    [push] to call. *)
Definition push_bufferView (view : json) (gltf : obj) : result (Z * obj) :=
  let gltf1 :=
    if truthy_prop (get "bufferViews" gltf) then gltf
    else set "bufferViews" (JArr []) gltf in
  match get "bufferViews" gltf1 with
  | Some (JArr l) =>
      Ok (Z.of_nat (length l), set "bufferViews" (JArr (l ++ [view])) gltf1)
  | _ => Throw TypeError
  end.

(** ** [createGLB]: the framing (lines 166-211) *)

Definition frameGLB (gltfBuffer binaryBuffer : bytes) : result bytes :=
  let jsonLength := blen gltfBuffer in
  let jsonPadding := padding_of jsonLength in
  let jsonChunkLength := jsonLength + jsonPadding in
  let paddedJsonBuffer := gltfBuffer ++ Buffer_alloc jsonPadding x20 in
  let binaryLength := blen binaryBuffer in
  let binaryPadding := padding_of binaryLength in
  let binaryChunkLength := binaryLength + binaryPadding in
  let paddedBinaryBuffer := binaryBuffer ++ Buffer_alloc binaryPadding x00 in
  let totalLength :=
    12 + 8 + jsonChunkLength
    + (if 0 <? binaryChunkLength then 8 + binaryChunkLength else 0) in
  magic ← writeUInt32LE 0x46546C67;
  version ← writeUInt32LE 2;
  total ← writeUInt32LE totalLength;
  let header := magic ++ version ++ total in
  jlen ← writeUInt32LE jsonChunkLength;
  jtype ← writeUInt32LE 0x4E4F534A;
  let jsonChunkHeader := jlen ++ jtype in
  if 0 <? binaryChunkLength then
    blen' ← writeUInt32LE binaryChunkLength;
    btype ← writeUInt32LE 0x004E4942;
    let binaryChunkHeader := blen' ++ btype in
    Ok (header ++ jsonChunkHeader ++ paddedJsonBuffer
          ++ binaryChunkHeader ++ paddedBinaryBuffer)
  else
    Ok (header ++ jsonChunkHeader ++ paddedJsonBuffer).

Section Converter.

(** [JSON.stringify] followed by [Buffer.from(..., 'utf8')]. *)
Variable stringify : json -> bytes.

(** [path.extname]. *)
Variable extname : string -> string.

(** [fs uri]: what [path.join(this.inputFolder, uri)] names; [None] when
    [fs.existsSync] is false. *)
Variable fs : string -> option fsentry.

(** The body of the loop over the buffers (lines 55-83), for the buffer at
    index [i]: the buffer after the step and the state after it. *)
Definition process_buffer (i : Z) (buffer : json) (st : state)
  : result (json * state) :=
  ext ← external_uri buffer;
  match ext with
  | None => Ok (buffer, st)
  | Some (o, uri) =>
      match fs uri with
      | None => Ok (buffer, st)
      | Some Unreadable => Throw IOError
      | Some (File bufferData) =>
          let chunks := binaryChunks st ++ [Data bufferData] in
          gltf ← patch_views i (totalSize st) (modifiedGltf st);
          let st' := advance bufferData (mkState chunks (totalSize st) gltf) in
          Ok (JObj (delete "uri" o), st')
      end
  end.

(** [for (let i = 0; i < modifiedGltf.buffers.length; i++)], from index [i]
    on. *)
Fixpoint buffers_loop (i : Z) (buffers : list json) (st : state)
  : result (list json * state) :=
  match buffers with
  | [] => Ok ([], st)
  | buffer :: rest =>
      '(buffer', st1) ← process_buffer i buffer st;
      '(rest', st2) ← buffers_loop (i + 1) rest st1;
      Ok (buffer' :: rest', st2)
  end.

(** Lines 53-92. *)
Definition process_buffers (st : state) : result state :=
  match get "buffers" (modifiedGltf st) with
  | Some bs =>
      if truthy bs then
        match bs with
        | JArr l =>
            '(l', st1) ← buffers_loop 0 l st;
            let gltf := set "buffers" (JArr l') (modifiedGltf st1) in
            if 0 <? Z.of_nat (length l') then
              Ok (mkState (binaryChunks st1) (totalSize st1)
                    (set "buffers"
                       (JArr [JObj [("byteLength"%string, JNum (totalSize st1))]])
                       gltf))
            else Ok (mkState (binaryChunks st1) (totalSize st1) gltf)
        | _ => Throw Unmodelled
        end
      else Ok st
  | None => Ok st
  end.

(** The body of the loop over the images (lines 97-129). *)
Definition process_image (image : json) (st : state) : result (json * state) :=
  ext ← external_uri image;
  match ext with
  | None => Ok (image, st)
  | Some (o, uri) =>
      match fs uri with
      | None => Ok (image, st)
      | Some Unreadable => Throw IOError
      | Some (File imageData) =>
          let mimeType := getMimeType (extname uri) in
          '(bufferViewIndex, gltf) ←
            push_bufferView
              (JObj [("buffer"%string, JNum 0);
                     ("byteOffset"%string, JNum (totalSize st));
                     ("byteLength"%string, JNum (blen imageData))])
              (modifiedGltf st);
          let image' :=
            JObj (set "mimeType" mimeType
                    (set "bufferView" (JNum bufferViewIndex)
                       (delete "uri" o))) in
          let chunks := binaryChunks st ++ [Data imageData] in
          Ok (image', advance imageData (mkState chunks (totalSize st) gltf))
      end
  end.

Fixpoint images_loop (images : list json) (st : state)
  : result (list json * state) :=
  match images with
  | [] => Ok ([], st)
  | image :: rest =>
      '(image', st1) ← process_image image st;
      '(rest', st2) ← images_loop rest st1;
      Ok (image' :: rest', st2)
  end.

(** Lines 95-131. *)
Definition process_images (st : state) : result state :=
  match get "images" (modifiedGltf st) with
  | Some imgs =>
      if truthy imgs then
        match imgs with
        | JArr l =>
            '(l', st1) ← images_loop l st;
            Ok (mkState (binaryChunks st1) (totalSize st1)
                  (set "images" (JArr l') (modifiedGltf st1)))
        | _ => Throw Unmodelled
        end
      else Ok st
  | None => Ok st
  end.

(** Lines 134-136. *)
Definition update_final_size (st : state) : result state :=
  match get "buffers" (modifiedGltf st) with
  | Some bs =>
      if truthy bs then
        match bs with
        | JArr [] => Ok st
        | JArr (JObj b0 :: rest) =>
            Ok (mkState (binaryChunks st) (totalSize st)
                  (set "buffers"
                     (JArr (JObj (set "byteLength" (JNum (totalSize st)) b0) :: rest))
                     (modifiedGltf st)))
        | JArr (JArr _ :: _) => Ok st
        | JArr (_ :: _) => Throw TypeError
        | _ => Throw Unmodelled
        end
      else Ok st
  | None => Ok st
  end.

(** Lines 42-136: the document is parsed and copied, then the buffers and
    the images are collected. In a tree of values the copy
    [JSON.parse(JSON.stringify(gltfData))] is the value itself. *)
Definition collect (gltfData : obj) : result state :=
  let modifiedGltf := gltfData in
  st1 ← process_buffers (mkState [] 0 modifiedGltf);
  st2 ← process_images st1;
  update_final_size st2.

(** Lines 156-161: the document that is serialized. *)
Definition cleanGltf (gltfData : obj) : obj :=
  if truthy_prop (get "asset" gltfData) then gltfData
  else set "asset" (JObj [("version"%string, JStr "2.0")]) gltfData.

Definition createGLB (gltfData : obj) (binaryBuffer : bytes) : result bytes :=
  let gltfBuffer := stringify (JObj (cleanGltf gltfData)) in
  frameGLB gltfBuffer binaryBuffer.

(** Lines 40-147: the bytes written to the [.glb] file. *)
Definition convertGLTFToGLB (gltfData : obj) : result bytes :=
  st ← collect gltfData;
  let combinedBuffer := Buffer_concat (binaryChunks st) in
  createGLB (modifiedGltf st) combinedBuffer.

End Converter.

(** ** The conversion over a store of objects

    The same method, with the objects and arrays of JavaScript kept in a
    store: a value is a primitive or a reference, a property assignment
    updates the object in place, and every reference to the object sees
    it. [JSON.parse] allocates the tree it reads; [JSON.stringify] reads what
    is reachable from a value. *)

Module Store.

Inductive val : Type :=
| VNull
| VBool (b : bool)
| VNum (n : Z)
| VStr (s : string)
| VRef (l : nat)
| VFrac (literal : string).

Inductive cell : Type :=
| CArr (elems : list val)
| CObj (props : list (string * val)).

Abbreviation heap := (list cell).

(** A computation on the store; the store survives an exception. *)
Definition M (A : Type) : Type := heap -> result A * heap.

#[global] Instance M_ret : MRet M := fun A (a : A) h => (Ok a, h).

#[global] Instance M_bind : MBind M :=
  fun A B (f : A -> M B) (m : M A) h =>
    match m h with
    | (Ok a, h') => f a h'
    | (Throw e, h') => (Throw e, h')
    end.

Definition throw {A : Type} (e : error) : M A := fun h => (Throw e, h).

(** A new object or array. *)
Definition alloc (c : cell) : M val := fun h => (Ok (VRef (length h)), h ++ [c]).

Definition load (l : nat) : M cell :=
  fun h =>
    match h !! l with
    | Some c => (Ok c, h)
    | None => (Throw TypeError, h)
    end.

Definition store (l : nat) (c : cell) : M unit := fun h => (Ok tt, <[l := c]> h).

Definition truthy (v : val) : bool :=
  match v with
  | VNull => false
  | VBool b => b
  | VNum n => negb (n =? 0)
  | VStr s => negb (String.eqb s EmptyString)
  | VRef _ => true
  | VFrac _ => true
  end.

Definition truthy_prop (p : option val) : bool :=
  match p with
  | Some v => truthy v
  | None => false
  end.

(** [x.k]. *)
Definition get_prop (x : val) (k : string) : M (option val) :=
  match x with
  | VNull => throw TypeError
  | VRef l =>
      c ← load l;
      match c with
      | CObj props => mret (get k props)
      | CArr _ => mret None
      end
  | _ => mret None
  end.

(** [x.k = v], in strict mode. *)
Definition set_prop (x : val) (k : string) (v : val) : M unit :=
  match x with
  | VRef l =>
      c ← load l;
      match c with
      | CObj props => store l (CObj (set k v props))
      | CArr _ => mret tt
      end
  | _ => throw TypeError
  end.

(** [delete x.k], where [x.k] has been read. *)
Definition delete_prop (x : val) (k : string) : M unit :=
  match x with
  | VRef l =>
      c ← load l;
      match c with
      | CObj props => store l (CObj (delete k props))
      | CArr _ => mret tt
      end
  | _ => mret tt
  end.

(** [JSON.parse], from the tree of the text. *)
Fixpoint JSON_parse (j : json) : M val :=
  match j with
  | JNull => mret VNull
  | JBool b => mret (VBool b)
  | JNum n => mret (VNum n)
  | JStr s => mret (VStr s)
  | JFrac x => mret (VFrac x)
  | JArr l =>
      vs ← (fix parse_elems (l : list json) : M (list val) :=
              match l with
              | [] => mret []
              | x :: l' =>
                  v ← JSON_parse x;
                  vs ← parse_elems l';
                  mret (v :: vs)
              end) l;
      alloc (CArr vs)
  | JObj o =>
      ps ← (fix parse_props (o : list (string * json)) : M (list (string * val)) :=
              match o with
              | [] => mret []
              | kx :: o' =>
                  v ← JSON_parse (snd kx);
                  ps ← parse_props o';
                  mret ((fst kx, v) :: ps)
              end) o;
      alloc (CObj ps)
  end.

(** The tree [JSON.stringify] writes for a value, following at most [fuel]
    references in a row; [None] on a cycle. *)
Fixpoint reify (fuel : nat) (h : heap) (v : val) : option json :=
  match v with
  | VNull => Some JNull
  | VBool b => Some (JBool b)
  | VNum n => Some (JNum n)
  | VStr s => Some (JStr s)
  | VFrac x => Some (JFrac x)
  | VRef l =>
      match fuel with
      | O => None
      | S fuel' =>
          match h !! l with
          | Some (CArr vs) => JArr <$> mapM (reify fuel' h) vs
          | Some (CObj ps) =>
              JObj <$> mapM (fun kv => (fun j => (fst kv, j)) <$> reify fuel' h (snd kv)) ps
          | None => None
          end
      end
  end.

(** The tree of a value, or the [TypeError] of a circular structure. *)
Definition tree_of (v : val) : M json :=
  fun h =>
    match reify (length h) h v with
    | Some j => (Ok j, h)
    | None => (Throw TypeError, h)
    end.

(** [JSON.parse(JSON.stringify(v))]. *)
Definition JSON_copy (v : val) : M val :=
  j ← tree_of v;
  JSON_parse j.

(** *** What a computation leaves untouched *)

Section Frame.

(** The store when the conversion starts: what the caller has, the
    parsed input included. *)
Variable h1 : heap.

(** A value that does not lead into [h1]. *)
Definition fresh_val (v : val) : Prop :=
  match v with
  | VRef l => length h1 <= l
  | _ => True
  end%nat.

Definition fresh_cell (c : cell) : Prop :=
  match c with
  | CArr vs => Forall fresh_val vs
  | CObj ps => Forall (fun kv => fresh_val (snd kv)) ps
  end.

Definition fresh_prop (p : option val) : Prop :=
  match p with
  | Some v => fresh_val v
  | None => True
  end.

(** The cells of [h1] are as they were, and the cells added since do not
    lead into [h1]. *)
Definition extends (h : heap) : Prop :=
  take (length h1) h = h1
  /\ forall l c, (length h1 <= l)%nat -> h !! l = Some c -> fresh_cell c.

(** [m] keeps [extends], and [Q] holds of what it returns. *)
Definition keeps {A : Type} (m : M A) (Q : A -> Prop) : Prop :=
  forall h, extends h ->
    extends (snd (m h))
    /\ match fst (m h) with
       | Ok a => Q a
       | Throw _ => True
       end.

End Frame.

(** The locals [binaryChunks] and [totalSize]. *)
Record locals : Type := mkLocals {
  binaryChunks : list chunk;
  totalSize : Z
}.

(** Lines 72-78 and 120-127. *)
Definition advance (data : bytes) (st : locals) : locals :=
  let total := totalSize st + blen data in
  let padding := padding_of total in
  if 0 <? padding
  then mkLocals (binaryChunks st ++ [Padding padding]) (total + padding)
  else mkLocals (binaryChunks st) total.

(** [entry.uri && !entry.uri.startsWith('data:')]: the URI when the test
    holds. *)
Definition external_uri (entry : val) : M (option string) :=
  u ← get_prop entry "uri";
  match u with
  | Some u =>
      if truthy u then
        match u with
        | VStr s => if String.prefix "data:" s then mret None else mret (Some s)
        | _ => throw TypeError
        end
      else mret None
  | None => mret None
  end.

(** [(byteOffset || 0) + totalSize] (line 66), as [plus_totalSize] has
    it. *)
Definition plus_totalSize (total : Z) (byteOffset : option val) : M val :=
  match byteOffset with
  | Some (VStr s) =>
      if truthy (VStr s) then
        if total <? 10 ^ 21 then mret (VStr (s ++ Number_toString total))
        else throw Unmodelled
      else mret (VNum total)
  | Some (VBool true) => mret (VNum (1 + total))
  | Some v =>
      if truthy v then
        match v with
        | VNum n => mret (VNum (n + total))
        | _ => throw Unmodelled
        end
      else mret (VNum (0 + total))
  | None => mret (VNum (0 + total))
  end.

(** Lines 65-68. *)
Definition patch_view (i total : Z) (bufferView : val) : M unit :=
  b ← get_prop bufferView "buffer";
  match b with
  | Some (VNum b) =>
      if b =? i then
        bo ← get_prop bufferView "byteOffset";
        sum ← plus_totalSize total bo;
        set_prop bufferView "byteOffset" sum;;
        set_prop bufferView "buffer" (VNum 0)
      else mret tt
  | _ => mret tt
  end.

Fixpoint for_each {A : Type} (body : A -> M unit) (l : list A) : M unit :=
  match l with
  | [] => mret tt
  | x :: l' => body x;; for_each body l'
  end.

(** Lines 63-70. The loop runs over the elements the array has when it
    starts; its body updates the views, not the array. *)
Definition patch_views (i total : Z) (modifiedGltf : val) : M unit :=
  bvs ← get_prop modifiedGltf "bufferViews";
  if truthy_prop bvs then
    match bvs with
    | Some (VRef l) =>
        c ← load l;
        match c with
        | CArr elems => for_each (patch_view i total) elems
        | CObj _ => throw TypeError
        end
    | Some (VStr _) => mret tt
    | _ => throw TypeError
    end
  else mret tt.

(** Lines 105-112. *)
Definition push_bufferView (view : list (string * val)) (modifiedGltf : val) : M Z :=
  bvs ← get_prop modifiedGltf "bufferViews";
  (if truthy_prop bvs then mret tt
   else (a ← alloc (CArr []); set_prop modifiedGltf "bufferViews" a));;
  bvs ← get_prop modifiedGltf "bufferViews";
  match bvs with
  | Some (VRef l) =>
      c ← load l;
      match c with
      | CArr elems =>
          v ← alloc (CObj view);
          store l (CArr (elems ++ [v]));;
          mret (Z.of_nat (length elems))
      | CObj _ => throw TypeError
      end
  | _ => throw TypeError
  end.

Section Converter.

Variable stringify : json -> bytes.
Variable extname : string -> string.
Variable fs : string -> option fsentry.

(** Lines 55-83. *)
Definition process_buffer (modifiedGltf : val) (i : Z) (buffer : val) (st : locals)
  : M locals :=
  ext ← external_uri buffer;
  match ext with
  | None => mret st
  | Some uri =>
      match fs uri with
      | None => mret st
      | Some Unreadable => throw IOError
      | Some (File bufferData) =>
          let chunks := binaryChunks st ++ [Data bufferData] in
          patch_views i (totalSize st) modifiedGltf;;
          let st' := advance bufferData (mkLocals chunks (totalSize st)) in
          delete_prop buffer "uri";;
          mret st'
      end
  end.

Fixpoint buffers_loop (modifiedGltf : val) (i : Z) (buffers : list val) (st : locals)
  : M locals :=
  match buffers with
  | [] => mret st
  | buffer :: rest =>
      st1 ← process_buffer modifiedGltf i buffer st;
      buffers_loop modifiedGltf (i + 1) rest st1
  end.

(** Lines 53-92. *)
Definition process_buffers (modifiedGltf : val) (st : locals) : M locals :=
  bs ← get_prop modifiedGltf "buffers";
  if truthy_prop bs then
    match bs with
    | Some (VRef l) =>
        c ← load l;
        match c with
        | CArr elems =>
            st1 ← buffers_loop modifiedGltf 0 elems st;
            if 0 <? Z.of_nat (length elems) then
              b ← alloc (CObj [("byteLength"%string, VNum (totalSize st1))]);
              a ← alloc (CArr [b]);
              set_prop modifiedGltf "buffers" a;;
              mret st1
            else mret st1
        | CObj _ => throw Unmodelled
        end
    | _ => throw Unmodelled
    end
  else mret st.

(** Lines 97-129. *)
Definition process_image (modifiedGltf : val) (image : val) (st : locals) : M locals :=
  ext ← external_uri image;
  match ext with
  | None => mret st
  | Some uri =>
      match fs uri with
      | None => mret st
      | Some Unreadable => throw IOError
      | Some (File imageData) =>
          let mimeType :=
            match getMimeType (extname uri) with
            | JStr m => VStr m
            | _ => VNull
            end in
          bufferViewIndex ←
            push_bufferView
              [("buffer"%string, VNum 0);
               ("byteOffset"%string, VNum (totalSize st));
               ("byteLength"%string, VNum (blen imageData))]
              modifiedGltf;
          delete_prop image "uri";;
          set_prop image "bufferView" (VNum bufferViewIndex);;
          set_prop image "mimeType" mimeType;;
          let chunks := binaryChunks st ++ [Data imageData] in
          mret (advance imageData (mkLocals chunks (totalSize st)))
      end
  end.

Fixpoint images_loop (modifiedGltf : val) (images : list val) (st : locals) : M locals :=
  match images with
  | [] => mret st
  | image :: rest =>
      st1 ← process_image modifiedGltf image st;
      images_loop modifiedGltf rest st1
  end.

(** Lines 95-131. *)
Definition process_images (modifiedGltf : val) (st : locals) : M locals :=
  imgs ← get_prop modifiedGltf "images";
  if truthy_prop imgs then
    match imgs with
    | Some (VRef l) =>
        c ← load l;
        match c with
        | CArr elems => images_loop modifiedGltf elems st
        | CObj _ => throw Unmodelled
        end
    | _ => throw Unmodelled
    end
  else mret st.

(** Lines 134-136. *)
Definition update_final_size (modifiedGltf : val) (st : locals) : M unit :=
  bs ← get_prop modifiedGltf "buffers";
  if truthy_prop bs then
    match bs with
    | Some (VRef l) =>
        c ← load l;
        match c with
        | CArr [] => mret tt
        | CArr (b0 :: _) => set_prop b0 "byteLength" (VNum (totalSize st))
        | CObj _ => throw Unmodelled
        end
    | _ => throw Unmodelled
    end
  else mret tt.

(** Lines 154-212. *)
Definition createGLB (gltfData : val) (binaryBuffer : bytes) : M bytes :=
  cleanGltf ← JSON_copy gltfData;
  asset ← get_prop cleanGltf "asset";
  (if truthy_prop asset then mret tt
   else (a ← alloc (CObj [("version"%string, VStr "2.0")]);
         set_prop cleanGltf "asset" a));;
  j ← tree_of cleanGltf;
  match frameGLB (stringify j) binaryBuffer with
  | Ok glb => mret glb
  | Throw e => throw e
  end.

(** Lines 44-147, from the parsed document [gltfData] on: the bytes
    written to the [.glb] file. *)
Definition convert_parsed (gltfData : val) : M bytes :=
  modifiedGltf ← JSON_copy gltfData;
  st1 ← process_buffers modifiedGltf (mkLocals [] 0);
  st2 ← process_images modifiedGltf st1;
  update_final_size modifiedGltf st2;;
  let combinedBuffer := Buffer_concat (binaryChunks st2) in
  createGLB modifiedGltf combinedBuffer.

(** Lines 40-147, from the tree of the text of the [.gltf] file on. *)
Definition convertGLTFToGLB (text : json) : M bytes :=
  gltfData ← JSON_parse text;
  convert_parsed gltfData.

End Converter.

End Store.

(** The number of references [JSON.stringify] follows in a row to write a
    tree. *)
Fixpoint json_depth (j : json) : nat :=
  match j with
  | JArr l => S (foldr (fun x d => Nat.max (json_depth x) d) O l)
  | JObj o => S (foldr (fun kx d => Nat.max (json_depth (snd kx)) d) O o)
  | _ => O
  end.

(** ** The container, in the words of the specification *)

(** [payload] padded with [fill] bytes up to a multiple of 4. *)
Definition pad4 (fill : byte) (payload : bytes) : bytes :=
  payload ++ repeat fill (Z.to_nat (padding_of (blen payload))).

(** A chunk: its length, its type, its payload. *)
Definition glb_chunk (type : Z) (payload : bytes) : bytes :=
  le32 (blen payload) ++ le32 type ++ payload.

(** The 12-byte header, the JSON chunk and, when there is binary data, the
    BIN chunk. *)
Definition glb_container (total : Z) (jsonText binary : bytes) : bytes :=
  le32 0x46546C67 ++ le32 2 ++ le32 total
    ++ glb_chunk 0x4E4F534A (pad4 x20 jsonText)
    ++ match binary with
       | [] => []
       | _ :: _ => glb_chunk 0x004E4942 (pad4 x00 binary)
       end.

(** What a reader finds as the payload of the first chunk: the length at
    offset 12, the bytes from offset 20 on. *)
Definition json_chunk_payload (glb : bytes) : option bytes :=
  match readUInt32LE glb 12 with
  | Some n => Some (firstn (Z.to_nat n) (skipn 20 glb))
  | None => None
  end.

(** The number of bytes [createGLB] computes as [totalLength]. *)
Definition glb_size (jsonText binary : bytes) : Z :=
  12 + 8 + blen (pad4 x20 jsonText)
  + match binary with
    | [] => 0
    | _ :: _ => 8 + blen (pad4 x00 binary)
    end.

(** ** The consolidated region, from the input's side *)

(** The array found under [k], when there is one. *)
Definition entries (k : string) (doc : obj) : list json :=
  match get k doc with
  | Some (JArr l) => l
  | _ => []
  end.

(** The list of views of a document. *)
Definition views_of (doc : obj) : list json := entries "bufferViews" doc.

(** [n] rounded up to the next multiple of 4. *)
Definition round_up4 (n : Z) : Z := 4 * ((n + 3) / 4).

(** The padding chunk pushed when the running total is [t]. *)
Definition pad_chunks (t : Z) : list chunk :=
  if 0 <? padding_of t then [Padding (padding_of t)] else [].

(** The chunks pushed for a list of files, from the running total [t] on. *)
Fixpoint file_chunks (t : Z) (files : list bytes) : list chunk :=
  match files with
  | [] => []
  | d :: files' =>
      Data d :: pad_chunks (t + blen d)
        ++ file_chunks (t + blen d + padding_of (t + blen d)) files'
  end.

(** The running total after a list of files. *)
Fixpoint run_total (t : Z) (files : list bytes) : Z :=
  match files with
  | [] => t
  | d :: files' => run_total (t + blen d + padding_of (t + blen d)) files'
  end.

(** The sum of the sizes of the files, each with its own padding. *)
Fixpoint padded_sum (files : list bytes) : Z :=
  match files with
  | [] => 0
  | d :: files' => blen d + padding_of (blen d) + padded_sum files'
  end.

(** The segments of a list of chunks: for every chunk of file data, the
    offset at which its bytes start in [Buffer.concat] of the list, counted
    from [pos], and its length. *)
Fixpoint segment_table (pos : Z) (cs : list chunk) : list (Z * Z) :=
  match cs with
  | [] => []
  | Data d :: cs' => (pos, blen d) :: segment_table (pos + blen d) cs'
  | Padding n :: cs' => segment_table (pos + blen (chunk_bytes (Padding n))) cs'
  end.

(** The views pushed for a list of image files, from the running total [t]
    on. *)
Fixpoint image_views (t : Z) (files : list bytes) : list json :=
  match files with
  | [] => []
  | d :: files' =>
      JObj [("buffer"%string, JNum 0); ("byteOffset"%string, JNum t);
            ("byteLength"%string, JNum (blen d))]
        :: image_views (t + blen d + padding_of (t + blen d)) files'
  end.

Section Resources.

Variable fs : string -> option fsentry.

(** The bytes an entry brings into the region: those of the file its URI
    names, when the URI is not a [data:] URI and the file can be read. *)
Definition embedded_file (entry : json) : option bytes :=
  match external_uri entry with
  | Ok (Some (_, uri)) =>
      match fs uri with
      | Some (File d) => Some d
      | _ => None
      end
  | _ => None
  end.

Fixpoint external_files (l : list json) : list bytes :=
  match l with
  | [] => []
  | entry :: l' =>
      match embedded_file entry with
      | Some d => d :: external_files l'
      | None => external_files l'
      end
  end.

End Resources.

(** The table of segments of the chunks pushed for a list of files. *)
Fixpoint file_table (t : Z) (files : list bytes) : list (Z * Z) :=
  match files with
  | [] => []
  | d :: files' =>
      (t, blen d) :: file_table (t + blen d + padding_of (t + blen d)) files'
  end.

(** The MIME types, in the words of the specification: by extension. *)
Definition mime_table (ext : string) : string :=
  if String.eqb ext ".jpg" then "image/jpeg"
  else if String.eqb ext ".jpeg" then "image/jpeg"
  else if String.eqb ext ".png" then "image/png"
  else if String.eqb ext ".gif" then "image/gif"
  else if String.eqb ext ".bmp" then "image/bmp"
  else if String.eqb ext ".webp" then "image/webp"
  else "application/octet-stream".

(** An entry with a [data:] URI. *)
Definition uses_data_uri (entry : json) : Prop :=
  exists o s,
    entry = JObj o /\ get "uri" o = Some (JStr s) /\ String.prefix "data:" s = true.

(** The document with a list of buffers that is not empty replaced by the
    single buffer of an empty region. *)
Definition collapse_buffers (doc : obj) : obj :=
  match entries "buffers" doc with
  | [] => doc
  | _ :: _ => set "buffers" (JArr [JObj [("byteLength"%string, JNum 0)]]) doc
  end.


(** [asset.version] of a document. *)
Definition asset_version (doc : obj) : option json :=
  match get "asset" doc with
  | Some (JObj a) => get "version" a
  | _ => None
  end.

(** A member that is an array, or that the guards [if (doc.k)] skip. *)
Definition array_or_falsy (p : option json) : Prop :=
  match p with
  | Some (JArr _) => True
  | Some v => truthy v = false
  | None => True
  end.

(** An entry the loops pass without an exception: its [uri] can be tested,
    and the file it names, if there is one, can be read. *)
Definition readable_entry (fs : string -> option fsentry) (entry : json) : Prop :=
  match external_uri entry with
  | Ok (Some (_, uri)) => fs uri <> Some Unreadable
  | Ok None => True
  | Throw _ => False
  end.

(** A view whose [byteOffset], if it has one, is an integer (or falsy). *)
Definition plain_view (view : json) : Prop :=
  match view with
  | JNull => False
  | JObj o => exists off, byteOffset_or_0 o = Ok off
  | _ => True
  end.

(** The views of a document are an array of plain views, or there are none. *)
Definition plain_views (doc : obj) : Prop :=
  array_or_falsy (get "bufferViews" doc) /\ Forall plain_view (views_of doc).

(** A document the collection accepts. *)
Definition well_formed (fs : string -> option fsentry) (doc : obj) : Prop :=
  array_or_falsy (get "buffers" doc)
  /\ array_or_falsy (get "images" doc)
  /\ Forall (readable_entry fs) (entries "buffers" doc)
  /\ Forall (readable_entry fs) (entries "images" doc)
  /\ plain_views doc.

(** ** The second chunk, as a reader finds it *)

(** The type and the payload of the chunk that follows the JSON chunk: its
    length and its type are read after the payload of the first chunk.
    [None] when the container ends there. *)
Definition bin_chunk (glb : bytes) : option (Z * bytes) :=
  match readUInt32LE glb 12 with
  | Some n =>
      let start := (20 + Z.to_nat n)%nat in
      match readUInt32LE glb start, readUInt32LE glb (start + 4) with
      | Some len, Some type =>
          Some (type, firstn (Z.to_nat len) (skipn (start + 8) glb))
      | _, _ => None
      end
  | None => None
  end.

(** The bytes of a container that follow the chunks a reader finds: those
    after the payload of the second chunk, or those after the payload of the
    first when no length of a second chunk can be read there. *)
Definition after_chunks (glb : bytes) : option bytes :=
  match readUInt32LE glb 12 with
  | Some n =>
      let start := (20 + Z.to_nat n)%nat in
      match readUInt32LE glb start with
      | Some len => Some (skipn (start + 8 + Z.to_nat len) glb)
      | None => Some (skipn start glb)
      end
  | None => None
  end.

(** A list of files laid out one after the other, each filled with zero
    bytes up to a multiple of 4. *)
Definition padded_files (files : list bytes) : bytes := flat_map (pad4 x00) files.

(** Two bytes that are the same, or the same letter of [A] to [Z] in the two
    cases. *)
Definition same_letter (a b : ascii) : bool :=
  let x := N_of_ascii a in
  let y := N_of_ascii b in
  ((x =? y)
   || ((65 <=? x) && (x <=? 90) && (y =? x + 32))
   || ((65 <=? y) && (y <=? 90) && (x =? y + 32)))%N.

(** Two strings that differ in the case of their letters at most. *)
Fixpoint equal_ignoring_case (s1 s2 : string) : bool :=
  match s1, s2 with
  | EmptyString, EmptyString => true
  | String a s1', String b s2' => same_letter a b && equal_ignoring_case s1' s2'
  | _, _ => false
  end.

(** What [path.extname] returns: the empty string, or a dot and what
    follows it. *)
Definition is_extension (s : string) : Prop :=
  s = EmptyString \/ exists rest, s = String "." rest.

(** The six types of the table of [getMimeType] and its default. *)
Definition mime_strings : list string :=
  [ "image/jpeg"; "image/png"; "image/gif"; "image/bmp"; "image/webp";
    "application/octet-stream" ]%string.

(** ** The method from the file name on, and [convertAll] *)

(** [s.endsWith(searchString)]. *)
Definition endsWith (searchString s : string) : bool :=
  let n := String.length s in
  let m := String.length searchString in
  (m <=? n)%nat && String.eqb (substring (n - m) m s) searchString.

(** Why the conversion of a file ends in the [catch] of [convertAll]. *)
Inductive failure : Type :=
| NotParsed                  (* readFileSync or JSON.parse of the file throws *)
| NotConverted (e : error)   (* an exception between lines 45 and 142 *)
| NotWritten.                (* writeFileSync throws *)

(** The lines [convertAll] prints. *)
Inductive event : Type :=
| NoFiles
| Found (n : nat)
| Converted (gltfFile : string)
| Failed (gltfFile : string) (why : failure).

(** The file a line reports on. *)
Definition event_file (e : event) : option string :=
  match e with
  | Converted gltfFile => Some gltfFile
  | Failed gltfFile _ => Some gltfFile
  | _ => None
  end.

Section Batch.

Variable stringify : json -> bytes.
Variable extname : string -> string.

(** The file system, as the converter finds it between two calls. *)
Variable world : Type.

(** [fs.readdirSync(this.inputFolder)], of a folder that can be listed
    ([main] checks that it exists). *)
Variable readdir : world -> list string.

(** [JSON.parse(fs.readFileSync(path.join(this.inputFolder, name), 'utf8'))];
    [None] when one of the two throws. *)
Variable read_gltf : world -> string -> option json.

(** What [path.join(this.inputFolder, uri)] names. *)
Variable resources : world -> string -> option fsentry.

(** [path.parse(name).name]. *)
Variable basename : string -> string.

(** [fs.writeFileSync(path.join(this.outputFolder, name), data)]: the file
    system after the call, and whether the call returned. *)
Variable writeFileSync : string -> bytes -> world -> world * bool.

(** What the method does with a document on which the embedding of lines
    45-142 stops ([Unmodelled]): the file system after it, and what it
    threw if it threw. Nothing is assumed of it; the method may well
    convert such a document and write the file. *)
Variable beyond : string -> json -> world -> world * option failure.

(** Lines 45-142 on whatever [JSON.parse] returns. Reading a property of
    [null] throws; an array has no [buffers] and no [images], takes the
    [asset] property and is serialized without it; any other value that is
    no object has no properties to read, and the assignment to its [asset]
    throws (the module is in strict mode). *)
Definition convert_value (fs : string -> option fsentry) (gltfData : json)
  : result bytes :=
  match gltfData with
  | JObj o => convertGLTFToGLB stringify extname fs o
  | JArr l => frameGLB (stringify (JArr l)) (Buffer_concat [])
  | _ => Throw TypeError
  end.

(** [convertGLTFToGLB(gltfFileName)], lines 40-147. *)
Definition convert_file (gltfFileName : string) (w : world) : world * option failure :=
  match read_gltf w gltfFileName with
  | None => (w, Some NotParsed)
  | Some gltfData =>
      match convert_value (resources w) gltfData with
      | Throw Unmodelled => beyond gltfFileName gltfData w
      | Throw e => (w, Some (NotConverted e))
      | Ok glbBuffer =>
          let (w', written) :=
            writeFileSync (basename gltfFileName ++ ".glb")%string glbBuffer w in
          (w', if written then None else Some NotWritten)
      end
  end.

(** [for (const gltfFile of gltfFiles)], lines 30-37. *)
Fixpoint convert_each (gltfFiles : list string) (w : world) : world * list event :=
  match gltfFiles with
  | [] => (w, [])
  | gltfFile :: rest =>
      let (w1, thrown) := convert_file gltfFile w in
      let line :=
        match thrown with
        | None => Converted gltfFile
        | Some why => Failed gltfFile why
        end in
      let (w2, lines) := convert_each rest w1 in
      (w2, line :: lines)
  end.

(** [convertAll], lines 19-38. *)
Definition convertAll (w : world) : world * list event :=
  let gltfFiles := List.filter (endsWith ".gltf") (readdir w) in
  match gltfFiles with
  | [] => (w, [NoFiles])
  | _ :: _ =>
      let (w', lines) := convert_each gltfFiles w in
      (w', Found (length gltfFiles) :: lines)
  end.

End Batch.

(** ** A serializer, a file-name splitter and a folder to run the converter on

    Every theorem below holds for any serializer, any [extname] and any file
    system. The following instances serve to evaluate the converter on
    concrete documents. *)

Definition dquote : string := String (ascii_of_N 34) EmptyString.

(** A string literal of JSON; the quote and the backslash are escaped. *)
Fixpoint escape (s : string) : string :=
  match s with
  | EmptyString => EmptyString
  | String c s' =>
      if orb (Ascii.eqb c (ascii_of_N 34)) (Ascii.eqb c (ascii_of_N 92))
      then String (ascii_of_N 92) (String c (escape s'))
      else String c (escape s')
  end.

Definition quoted (s : string) : string := (dquote ++ escape s ++ dquote)%string.

Fixpoint json_text (v : json) : string :=
  match v with
  | JNull => "null"
  | JBool true => "true"
  | JBool false => "false"
  | JNum n => NilEmpty.string_of_int (Z.to_int n)
  | JStr s => quoted s
  | JFrac x => x
  | JArr l => "[" ++ String.concat "," (map json_text l) ++ "]"
  | JObj o =>
      "{" ++ String.concat ","
               (map (fun kv => quoted (fst kv) ++ ":" ++ json_text (snd kv)) o)
          ++ "}"
  end%string.

(** [JSON.stringify] on documents of integers and plain strings, as UTF-8. *)
Definition JSON_stringify (v : json) : bytes := list_byte_of_string (json_text v).

(** The index after the last dot of [s], counted from the end. *)
Fixpoint last_dot (s : string) : option string :=
  match s with
  | EmptyString => None
  | String c s' =>
      match last_dot s' with
      | Some e => Some e
      | None => if Ascii.eqb c "." then Some s else None
      end
  end.

(** [path.extname] on a file name [name.ext]. *)
Definition extname_of_name (s : string) : string :=
  match last_dot s with
  | Some e => e
  | None => EmptyString
  end.

(** A folder given by the list of its files. *)
Fixpoint folder (files : list (string * fsentry)) (uri : string) : option fsentry :=
  match files with
  | [] => None
  | (name, e) :: files' => if String.eqb uri name then Some e else folder files' uri
  end.

(** ** Sample documents *)

Definition sample_folder : string -> option fsentry :=
  folder [ ("scene.bin", File (repeat x01 10));
           ("mesh.bin", File (repeat x03 7));
           ("anim.bin", File (repeat x04 6));
           ("tex.PNG", File (repeat x02 7));
           ("empty.png", File []) ]%string.

(** A buffer of 10 bytes and an image of 7 bytes. *)
Definition doc_scene : obj :=
  [ ("buffers", JArr [JObj [("uri", JStr "scene.bin"); ("byteLength", JNum 10)]]);
    ("bufferViews", JArr [JObj [("buffer", JNum 0); ("byteLength", JNum 10)]]);
    ("images", JArr [JObj [("uri", JStr "tex.PNG")]]) ]%string.

(** Two buffers, the first of 7 bytes, and a view into the second. *)
Definition doc_two_buffers : obj :=
  [ ("asset", JObj [("version", JStr "2.0")]);
    ("buffers", JArr [JObj [("uri", JStr "mesh.bin"); ("byteLength", JNum 7)];
                      JObj [("uri", JStr "anim.bin"); ("byteLength", JNum 6)]]);
    ("bufferViews", JArr [JObj [("buffer", JNum 1); ("byteOffset", JNum 5);
                                ("byteLength", JNum 1)]]) ]%string.

(** A buffer and an image whose files do not exist. *)
Definition doc_missing : obj :=
  [ ("buffers", JArr [JObj [("uri", JStr "missing.bin"); ("byteLength", JNum 4)]]);
    ("bufferViews", JArr [JObj [("buffer", JNum 0); ("byteOffset", JNum 2);
                                ("byteLength", JNum 2)]]);
    ("images", JArr [JObj [("uri", JStr "missing.png")]]) ]%string.

(** A buffer with a [data:] URI. *)
Definition doc_data : obj :=
  [ ("asset", JObj [("version", JStr "2.0")]);
    ("buffers", JArr [JObj [("uri", JStr "data:application/octet-stream;base64,AAAA");
                            ("byteLength", JNum 3)]]) ]%string.

(** An [asset] without [version]. *)
Definition doc_generator : obj :=
  [ ("asset", JObj [("generator", JStr "exporter")]) ]%string.

(** An image and no buffers. *)
Definition doc_image_only : obj :=
  [ ("images", JArr [JObj [("uri", JStr "tex.PNG")]]) ]%string.

(** An image whose file is empty, and no buffers. *)
Definition doc_empty_image : obj :=
  [ ("images", JArr [JObj [("uri", JStr "empty.png")]]) ]%string.

Definition state_of (r : result state) : state :=
  match r with
  | Ok st => st
  | Throw _ => mkState [] 0 []
  end.

Definition bytes_of (r : result bytes) : bytes :=
  match r with
  | Ok b => b
  | Throw _ => []
  end.

Definition scene_state : state :=
  Eval vm_compute in state_of (collect extname_of_name sample_folder doc_scene).


Definition missing_state : state :=
  Eval vm_compute in state_of (collect extname_of_name sample_folder doc_missing).

Definition scene_glb : bytes :=
  Eval vm_compute in
    bytes_of (convertGLTFToGLB JSON_stringify extname_of_name sample_folder doc_scene).

Definition data_glb : bytes :=
  Eval vm_compute in
    bytes_of (convertGLTFToGLB JSON_stringify extname_of_name sample_folder doc_data).

Definition generator_glb : bytes :=
  Eval vm_compute in
    bytes_of (convertGLTFToGLB JSON_stringify extname_of_name sample_folder doc_generator).

Definition image_only_glb : bytes :=
  Eval vm_compute in
    bytes_of (convertGLTFToGLB JSON_stringify extname_of_name sample_folder doc_image_only).

Definition empty_image_glb : bytes :=
  Eval vm_compute in
    bytes_of (convertGLTFToGLB JSON_stringify extname_of_name sample_folder doc_empty_image).

(** Two buffers and a view into the second whose [byteOffset] is a
    string. *)
Definition doc_string_offset : obj :=
  [ ("buffers", JArr [JObj [("uri", JStr "mesh.bin"); ("byteLength", JNum 7)];
                      JObj [("uri", JStr "anim.bin"); ("byteLength", JNum 6)]]);
    ("bufferViews", JArr [JObj [("buffer", JNum 1); ("byteOffset", JStr "5");
                                ("byteLength", JNum 1)]]) ]%string.

(** A buffer with a file next to one with a [data:] URI, views into both
    and into a buffer that is not there, an image with a [data:] URI and one
    with a file, and members the converter has no use for. *)
Definition doc_mixed : obj :=
  [ ("asset", JObj [("version", JStr "2.0"); ("generator", JStr "exporter")]);
    ("scenes", JArr [JObj [("nodes", JArr [JNum 0])]]);
    ("buffers", JArr [JObj [("uri", JStr "mesh.bin"); ("byteLength", JNum 7)];
                      JObj [("uri", JStr "data:application/octet-stream;base64,AAAA");
                            ("byteLength", JNum 3)]]);
    ("bufferViews", JArr [JObj [("buffer", JNum 0); ("byteLength", JNum 7)];
                          JObj [("buffer", JNum 1); ("byteOffset", JNum 1);
                                ("byteLength", JNum 2)];
                          JObj [("buffer", JNum 7); ("byteLength", JNum 1)]]);
    ("images", JArr [JObj [("uri", JStr "data:image/png;base64,AAAA")];
                     JObj [("uri", JStr "tex.PNG"); ("name", JStr "wall")]]) ]%string.

Definition mixed_state : state :=
  Eval vm_compute in state_of (collect extname_of_name sample_folder doc_mixed).

Definition mixed_glb : bytes :=
  Eval vm_compute in
    bytes_of (convertGLTFToGLB JSON_stringify extname_of_name sample_folder doc_mixed).

(** A folder in which the path of an image names a directory. *)
Definition locked_folder : string -> option fsentry :=
  folder [ ("scene.bin", File (repeat x01 10)); ("textures", Unreadable) ]%string.

Definition doc_locked : obj :=
  [ ("buffers", JArr [JObj [("uri", JStr "scene.bin"); ("byteLength", JNum 10)]]);
    ("images", JArr [JObj [("uri", JStr "textures")]]) ]%string.

(** An input folder, by the names [readdirSync] lists, and the files written
    to the output folder, the last one first. *)
Definition disk : Type := list string * list (string * bytes).

Definition disk_readdir (w : disk) : list string := fst w.

(** [scene.gltf] and [data.gltf] hold the documents above, [null.gltf] holds
    the text [null]; nothing else parses. *)
Definition disk_read (w : disk) (name : string) : option json :=
  get name [ ("scene.gltf", JObj doc_scene); ("null.gltf", JNull);
             ("data.gltf", JObj doc_data) ]%string.

Definition disk_resources (w : disk) : string -> option fsentry := sample_folder.

(** [path.parse(name).name] on a file name [name.ext]. *)
Definition name_of (name : string) : string :=
  substring 0 (String.length name - String.length (extname_of_name name)) name.

Definition disk_write (name : string) (data : bytes) (w : disk) : disk * bool :=
  ((fst w, (name, data) :: snd w), true).

(** No document of the folder is one on which the embedding stops. *)
Definition disk_beyond (name : string) (gltfData : json) (w : disk)
  : disk * option failure :=
  (w, Some (NotConverted Unmodelled)).

Definition disk_convertAll : disk -> disk * list event :=
  convertAll JSON_stringify extname_of_name disk disk_readdir disk_read disk_resources
    name_of disk_write disk_beyond.

Definition sample_disk : disk :=
  ([ "scene.gltf"; "scene.bin"; "broken.gltf"; "SCENE.GLTF"; "null.gltf"; "data.gltf";
     "tex.PNG" ]%string, []).

Definition failing_disk : disk :=
  ([ "broken.gltf"; "notes.txt"; "null.gltf" ]%string, []).

(** ** Properties of the framing *)

Lemma padding_of_range n : 0 <= padding_of n < 4.
Proof. unfold padding_of. apply Z.mod_pos_bound. lia. Qed.

Lemma padding_of_aligned n : (n + padding_of n) mod 4 = 0.
Proof.
  unfold padding_of.
  pose proof (Z.mod_pos_bound n 4 ltac:(lia)) as Hn.
  destruct (Z.eq_dec (n mod 4) 0) as [H0 | H0].
  - rewrite H0. change ((4 - 0) mod 4) with 0. now rewrite Z.add_0_r.
  - rewrite (Z.mod_small (4 - n mod 4)) by lia.
    rewrite Z.add_mod by lia.
    rewrite (Z.mod_small (4 - n mod 4)) by lia.
    replace (n mod 4 + (4 - n mod 4)) with 4 by lia. reflexivity.
Qed.

Lemma padding_of_0 n : n mod 4 = 0 -> padding_of n = 0.
Proof. unfold padding_of. intros ->. reflexivity. Qed.

Lemma blen_nonneg b : 0 <= blen b.
Proof. unfold blen. lia. Qed.

Lemma blen_app a b : blen (a ++ b) = blen a + blen b.
Proof. unfold blen. rewrite length_app. lia. Qed.

Lemma blen_alloc n fill : 0 <= n -> blen (Buffer_alloc n fill) = n.
Proof. intros Hn. unfold blen, Buffer_alloc. rewrite repeat_length. lia. Qed.

Lemma blen_le32 v : blen (le32 v) = 4.
Proof. reflexivity. Qed.

Lemma blen_pad4 fill b : blen (pad4 fill b) = blen b + padding_of (blen b).
Proof.
  unfold pad4. rewrite blen_app. f_equal.
  apply (blen_alloc _ fill). apply padding_of_range.
Qed.

Lemma pad4_aligned fill b : blen (pad4 fill b) mod 4 = 0.
Proof. rewrite blen_pad4. apply padding_of_aligned. Qed.

Lemma byte_val_u8 z : byte_val (u8 z) = z mod 256.
Proof.
  unfold byte_val, u8.
  assert (Hl : Z.land z 255 = z mod 256).
  { change 255 with (Z.ones 8). rewrite Z.land_ones by lia. reflexivity. }
  pose proof (Z.mod_pos_bound z 256 ltac:(lia)) as Hb.
  rewrite Hl.
  destruct (Byte.of_N (Z.to_N (z mod 256))) as [b |] eqn:E.
  - apply Byte.to_of_N in E. rewrite E. lia.
  - apply Byte.of_N_None_iff in E. lia.
Qed.

Lemma le32_decode v :
  0 <= v < 2 ^ 32 ->
  byte_val (u8 v) + Z.shiftl (byte_val (u8 (Z.shiftr v 8))) 8
  + Z.shiftl (byte_val (u8 (Z.shiftr v 16))) 16
  + Z.shiftl (byte_val (u8 (Z.shiftr v 24))) 24 = v.
Proof.
  intros Hv. rewrite !byte_val_u8.
  rewrite !Z.shiftr_div_pow2, !Z.shiftl_mul_pow2 by lia.
  change (2 ^ 8) with 256. change (2 ^ 16) with 65536.
  change (2 ^ 24) with 16777216. change (2 ^ 32) with 4294967296 in Hv.
  Z.div_mod_to_equations. lia.
Qed.

Lemma readUInt32LE_le32 pre v post :
  0 <= v < 2 ^ 32 ->
  readUInt32LE (pre ++ le32 v ++ post) (length pre) = Some v.
Proof.
  intros Hv. unfold readUInt32LE.
  rewrite skipn_app, skipn_all, Nat.sub_diag. simpl.
  f_equal. now apply le32_decode.
Qed.

Lemma writeUInt32LE_Ok v b : writeUInt32LE v = Ok b -> 0 <= v < 2 ^ 32 /\ b = le32 v.
Proof.
  unfold writeUInt32LE.
  destruct (0 <=? v) eqn:E1; destruct (v <? 2 ^ 32) eqn:E2; simpl; try discriminate.
  intros [= <-]. split; [lia | reflexivity].
Qed.

Lemma writeUInt32LE_in_range v : 0 <= v < 2 ^ 32 -> writeUInt32LE v = Ok (le32 v).
Proof.
  intros Hv. unfold writeUInt32LE.
  destruct (0 <=? v) eqn:E1; destruct (v <? 2 ^ 32) eqn:E2; simpl; try reflexivity; lia.
Qed.

Section Framing.

Variable stringify : json -> bytes.

Lemma glb_container_length total jsonText binary :
  blen (glb_container total jsonText binary) = glb_size jsonText binary.
Proof.
  unfold glb_container, glb_size, glb_chunk.
  destruct binary as [| b binary]; repeat rewrite ?blen_app, ?blen_le32.
  - change (blen []) with 0. lia.
  - lia.
Qed.

Lemma glb_size_nonneg jsonText binary : 20 <= glb_size jsonText binary.
Proof.
  unfold glb_size. pose proof (blen_nonneg (pad4 x20 jsonText)).
  destruct binary; [lia |]. pose proof (blen_nonneg (pad4 x00 (b :: binary))). lia.
Qed.

Lemma binary_chunk_present binary :
  (0 <? blen binary + padding_of (blen binary)) = match binary with [] => false | _ :: _ => true end.
Proof.
  destruct binary as [| b binary].
  - reflexivity.
  - pose proof (padding_of_range (blen (b :: binary))).
    apply Z.ltb_lt. unfold blen in *. simpl length in *. lia.
Qed.

(** [createGLB] writes the container of the specification, and throws when
    its size does not fit the 32-bit length field. *)
Lemma createGLB_eq gltfData binaryBuffer :
  let jsonText := stringify (JObj (cleanGltf gltfData)) in
  let total := glb_size jsonText binaryBuffer in
  createGLB stringify gltfData binaryBuffer =
    if total <? 2 ^ 32 then Ok (glb_container total jsonText binaryBuffer)
    else Throw RangeError.
Proof.
  intros jsonText total. unfold createGLB, frameGLB. fold jsonText.
  rewrite binary_chunk_present.
  assert (Hj : blen jsonText + padding_of (blen jsonText) = blen (pad4 x20 jsonText))
    by now rewrite blen_pad4.
  assert (Hb : blen binaryBuffer + padding_of (blen binaryBuffer)
               = blen (pad4 x00 binaryBuffer)) by now rewrite blen_pad4.
  rewrite Hj, Hb.
  assert (Ht : 12 + 8 + blen (pad4 x20 jsonText)
               + (if match binaryBuffer with [] => false | _ :: _ => true end
                  then 8 + blen (pad4 x00 binaryBuffer) else 0) = total).
  { unfold total, glb_size. now destruct binaryBuffer. }
  rewrite Ht.
  pose proof (glb_size_nonneg jsonText binaryBuffer) as Hn. fold total in Hn.
  pose proof (blen_nonneg (pad4 x20 jsonText)) as Hjn.
  pose proof (blen_nonneg (pad4 x00 binaryBuffer)) as Hbn.
  rewrite (writeUInt32LE_in_range 0x46546C67) by (cbv; split; congruence).
  rewrite (writeUInt32LE_in_range 2) by (cbv; split; congruence).
  rewrite (writeUInt32LE_in_range 0x4E4F534A) by (cbv; split; congruence).
  cbn [mbind result_bind].
  destruct (total <? 2 ^ 32) eqn:Hlt.
  - apply Z.ltb_lt in Hlt.
    rewrite (writeUInt32LE_in_range total) by lia.
    assert (Hjlt : blen (pad4 x20 jsonText) < 2 ^ 32).
    { unfold total, glb_size in Hlt. destruct binaryBuffer; lia. }
    rewrite (writeUInt32LE_in_range (blen (pad4 x20 jsonText))) by lia.
    destruct binaryBuffer as [| b binaryBuffer].
    + unfold glb_container, glb_chunk, pad4, Buffer_alloc.
      now rewrite <- !app_assoc, app_nil_r.
    + assert (Hblt : blen (pad4 x00 (b :: binaryBuffer)) < 2 ^ 32).
      { unfold total, glb_size in Hlt. lia. }
      rewrite (writeUInt32LE_in_range (blen (pad4 x00 (b :: binaryBuffer)))) by lia.
      rewrite (writeUInt32LE_in_range 0x004E4942) by (cbv; split; congruence).
      cbn [mbind result_bind].
      unfold glb_container, glb_chunk, pad4, Buffer_alloc.
      now rewrite <- !app_assoc.
  - assert (Hw : writeUInt32LE total = Throw RangeError).
    { unfold writeUInt32LE. now rewrite Hlt, andb_false_r. }
    now rewrite Hw.
Qed.

(** Whenever the size fits the length field, a container is emitted. *)
Lemma createGLB_emits gltfData binaryBuffer :
  glb_size (stringify (JObj (cleanGltf gltfData))) binaryBuffer < 2 ^ 32 ->
  exists out, createGLB stringify gltfData binaryBuffer = Ok out.
Proof.
  intros H. rewrite createGLB_eq. apply Z.ltb_lt in H. rewrite H. eauto.
Qed.

(** An emitted container is the container of the specification for its own
    length. *)
Lemma createGLB_Ok gltfData binaryBuffer out :
  createGLB stringify gltfData binaryBuffer = Ok out ->
  out = glb_container (blen out) (stringify (JObj (cleanGltf gltfData))) binaryBuffer
  /\ blen out = glb_size (stringify (JObj (cleanGltf gltfData))) binaryBuffer
  /\ blen out < 2 ^ 32.
Proof.
  rewrite createGLB_eq.
  destruct (_ <? _) eqn:Hlt; [| discriminate]. intros [= <-].
  apply Z.ltb_lt in Hlt. rewrite glb_container_length. auto.
Qed.

(** C1. The emitted container is, in order: the 12-byte header (magic
    0x46546C67, version 2, total length), the JSON chunk (length, type
    0x4E4F534A, the serialized document padded with spaces to a multiple of
    4) and, exactly when the binary region is not empty, the BIN chunk
    (length, type 0x004E4942, the region padded with zeros); every field is
    a little-endian 32-bit integer, and the total-length field, read back
    from offset 8, is the number of bytes of the container. *)
Theorem createGLB_container gltfData binaryBuffer out :
  createGLB stringify gltfData binaryBuffer = Ok out ->
  out = glb_container (blen out) (stringify (JObj (cleanGltf gltfData))) binaryBuffer
  /\ readUInt32LE out 0 = Some 0x46546C67
  /\ readUInt32LE out 4 = Some 2
  /\ readUInt32LE out 8 = Some (blen out)
  /\ blen (pad4 x20 (stringify (JObj (cleanGltf gltfData)))) mod 4 = 0
  /\ blen (pad4 x00 binaryBuffer) mod 4 = 0.
Proof.
  intros H. apply createGLB_Ok in H as (Hout & Hsize & Hlt).
  pose proof (glb_size_nonneg (stringify (JObj (cleanGltf gltfData))) binaryBuffer).
  split; [exact Hout |].
  split; [| split; [| split; [| split; apply pad4_aligned]]]; rewrite Hout at 1.
  - unfold glb_container.
    apply (readUInt32LE_le32 [] 0x46546C67). cbv; split; congruence.
  - unfold glb_container.
    apply (readUInt32LE_le32 (le32 0x46546C67) 2). cbv; split; congruence.
  - unfold glb_container.
    rewrite (app_assoc (le32 0x46546C67) (le32 2)).
    apply (readUInt32LE_le32 (le32 0x46546C67 ++ le32 2)). lia.
Qed.

End Framing.

(** ** Own properties of objects *)

Lemma get_set_eq {A} k (v : A) o : get k (set k v o) = Some v.
Proof.
  induction o as [| [k' v'] o IH]; simpl.
  - now rewrite String.eqb_refl.
  - destruct (String.eqb k k') eqn:E; simpl; rewrite E; [reflexivity | exact IH].
Qed.

Lemma get_set_ne {A} k k' (v : A) o : k <> k' -> get k (set k' v o) = get k o.
Proof.
  intros Hne. induction o as [| [k'' v''] o IH]; simpl.
  - apply String.eqb_neq in Hne. now rewrite Hne.
  - destruct (String.eqb k' k'') eqn:E; simpl.
    + apply String.eqb_eq in E. subst k''.
      apply String.eqb_neq in Hne. now rewrite Hne.
    + now rewrite IH.
Qed.

Lemma get_delete_eq {A} k (o : list (string * A)) : get k (delete k o) = None.
Proof.
  induction o as [| [k' v'] o IH]; simpl; [reflexivity |].
  destruct (String.eqb k k') eqn:E; simpl; [exact IH | now rewrite E].
Qed.

Lemma get_delete_ne {A} k k' (o : list (string * A)) :
  k <> k' -> get k (delete k' o) = get k o.
Proof.
  intros Hne. induction o as [| [k'' v''] o IH]; simpl; [reflexivity |].
  destruct (String.eqb k' k'') eqn:E; simpl.
  - apply String.eqb_eq in E. subst k''.
    apply String.eqb_neq in Hne. now rewrite Hne.
  - now rewrite IH.
Qed.

Lemma set_get_id {A} k (v : A) o : get k o = Some v -> set k v o = o.
Proof.
  induction o as [| [k' v'] o IH]; simpl; [discriminate |].
  destruct (String.eqb k k') eqn:E.
  - now intros [= ->].
  - intros H. now rewrite IH.
Qed.

Lemma set_set {A} k (v v' : A) o : set k v (set k v' o) = set k v o.
Proof.
  induction o as [| [k' v''] o IH]; simpl.
  - now rewrite String.eqb_refl.
  - destruct (String.eqb k k') eqn:E; simpl; rewrite E; [reflexivity | now rewrite IH].
Qed.

Lemma delete_absent {A} k (o : list (string * A)) : get k o = None -> delete k o = o.
Proof.
  induction o as [| [k' v'] o IH]; simpl; [reflexivity |].
  destruct (String.eqb k k') eqn:E; [discriminate |].
  intros H. now rewrite IH.
Qed.

(** ** Arithmetic of the alignment *)

Lemma round_up4_padding n : round_up4 n = n + padding_of n.
Proof. unfold round_up4, padding_of. Z.div_mod_to_equations. lia. Qed.

Lemma round_up4_aligned n : round_up4 n mod 4 = 0.
Proof. unfold round_up4. rewrite Z.mul_comm. apply Z.mod_mul. lia. Qed.

Lemma round_up4_least n m : n <= m -> m mod 4 = 0 -> round_up4 n <= m.
Proof. unfold round_up4. intros. Z.div_mod_to_equations. lia. Qed.

Lemma round_up4_ge n : n <= round_up4 n < n + 4.
Proof. unfold round_up4. Z.div_mod_to_equations. lia. Qed.

Lemma round_up4_add t n : t mod 4 = 0 -> round_up4 (t + n) = t + round_up4 n.
Proof. unfold round_up4. intros. Z.div_mod_to_equations. lia. Qed.

Lemma padding_of_add t n : t mod 4 = 0 -> padding_of (t + n) = padding_of n.
Proof.
  intros Ht. pose proof (round_up4_add t n Ht) as H.
  rewrite !round_up4_padding in H. lia.
Qed.

Lemma run_total_aligned t files : t mod 4 = 0 -> run_total t files mod 4 = 0.
Proof.
  revert t. induction files as [| d files IH]; intros t Ht; simpl; [exact Ht |].
  apply IH. apply padding_of_aligned.
Qed.

Lemma run_total_app t files files' :
  run_total t (files ++ files') = run_total (run_total t files) files'.
Proof. revert t. induction files as [| d files IH]; intros t; simpl; [reflexivity | apply IH]. Qed.

Lemma run_total_padded_sum t files :
  t mod 4 = 0 -> run_total t files = t + padded_sum files.
Proof.
  revert t. induction files as [| d files IH]; intros t Ht; simpl; [lia |].
  rewrite IH by apply padding_of_aligned.
  rewrite (padding_of_add t) by exact Ht. lia.
Qed.

Lemma padded_sum_app files files' :
  padded_sum (files ++ files') = padded_sum files + padded_sum files'.
Proof. induction files as [| d files IH]; simpl; lia. Qed.

Lemma padded_sum_nonneg files : 0 <= padded_sum files.
Proof.
  induction files as [| d files IH]; simpl; [lia |].
  pose proof (blen_nonneg d). pose proof (padding_of_range (blen d)). lia.
Qed.

Lemma file_chunks_app t files files' :
  file_chunks t (files ++ files')
  = file_chunks t files ++ file_chunks (run_total t files) files'.
Proof.
  revert t. induction files as [| d files IH]; intros t; simpl; [reflexivity |].
  rewrite IH. now rewrite <- app_assoc.
Qed.

Lemma external_files_app fs l l' :
  external_files fs (l ++ l') = external_files fs l ++ external_files fs l'.
Proof.
  induction l as [| e l IH]; simpl; [reflexivity |].
  destruct (embedded_file fs e); simpl; now rewrite IH.
Qed.

Lemma image_views_app t files files' :
  image_views t (files ++ files')
  = image_views t files ++ image_views (run_total t files) files'.
Proof.
  revert t. induction files as [| d files IH]; intros t; simpl; [reflexivity |].
  now rewrite IH.
Qed.

Lemma image_views_length t files : length (image_views t files) = length files.
Proof. revert t. induction files as [| d files IH]; intros t; simpl; [reflexivity | now rewrite IH]. Qed.

(** ** The chunks and their segments *)

Lemma blen_pad_chunks t : blen (Buffer_concat (pad_chunks t)) = padding_of t.
Proof.
  unfold pad_chunks. pose proof (padding_of_range t) as Hr.
  destruct (0 <? padding_of t) eqn:E; simpl.
  - rewrite app_nil_r. apply blen_alloc. lia.
  - apply Z.ltb_ge in E. change (blen []) with 0. lia.
Qed.

Lemma Buffer_concat_app cs cs' :
  Buffer_concat (cs ++ cs') = Buffer_concat cs ++ Buffer_concat cs'.
Proof. unfold Buffer_concat. apply flat_map_app. Qed.

Lemma blen_file_chunks t files :
  t + blen (Buffer_concat (file_chunks t files)) = run_total t files.
Proof.
  revert t. induction files as [| d files IH]; intros t; simpl.
  - change (blen []) with 0. lia.
  - change (Buffer_concat (?a ++ ?b)) with (flat_map chunk_bytes (a ++ b)).
    fold (Buffer_concat (pad_chunks (t + blen d) ++
            file_chunks (t + blen d + padding_of (t + blen d)) files)).
    rewrite blen_app, Buffer_concat_app, blen_app, blen_pad_chunks.
    rewrite <- IH. lia.
Qed.

Lemma segment_table_app pos cs cs' :
  segment_table pos (cs ++ cs')
  = segment_table pos cs ++ segment_table (pos + blen (Buffer_concat cs)) cs'.
Proof.
  revert pos. induction cs as [| c cs IH]; intros pos; simpl.
  - change (blen []) with 0. now rewrite Z.add_0_r.
  - unfold Buffer_concat in *. destruct c as [d | n]; simpl; rewrite IH, blen_app.
    + now rewrite Z.add_assoc.
    + now rewrite Z.add_assoc.
Qed.

Lemma segment_table_pad_chunks pos t : segment_table pos (pad_chunks t) = [].
Proof. unfold pad_chunks. now destruct (0 <? padding_of t). Qed.

Lemma segment_table_file_chunks t files :
  segment_table t (file_chunks t files) = file_table t files.
Proof.
  revert t. induction files as [| d files IH]; intros t; simpl; [reflexivity |].
  f_equal. rewrite segment_table_app, segment_table_pad_chunks, blen_pad_chunks.
  simpl. rewrite <- IH. reflexivity.
Qed.

Lemma file_table_lookup t files k off len :
  t mod 4 = 0 ->
  file_table t files !! k = Some (off, len) ->
  off mod 4 = 0
  /\ off = run_total t (take k files)
  /\ (exists d, files !! k = Some d /\ len = blen d)
  /\ (forall off' len', file_table t files !! S k = Some (off', len') ->
        off' = round_up4 (off + len)).
Proof.
  revert t k. induction files as [| d files IH]; intros t k Ht Hk; [destruct k; discriminate |].
  destruct k as [| k]; simpl in Hk.
  - injection Hk as <- <-. repeat split; eauto.
    intros off' len' Hn. simpl in Hn.
    destruct files as [| d' files]; [discriminate |]. simpl in Hn.
    injection Hn as <- _. now rewrite round_up4_padding.
  - apply IH in Hk; [| apply padding_of_aligned]. exact Hk.
Qed.

(** ** One step of the collection *)

Lemma advance_eq d cs t g :
  advance d (mkState cs t g)
  = mkState (cs ++ pad_chunks (t + blen d))
            (t + blen d + padding_of (t + blen d)) g.
Proof.
  unfold advance, pad_chunks. simpl.
  pose proof (padding_of_range (t + blen d)) as Hr.
  destruct (0 <? padding_of (t + blen d)) eqn:E; [reflexivity |].
  apply Z.ltb_ge in E. rewrite app_nil_r. f_equal. lia.
Qed.

Lemma patch_views_get i t g g' k :
  patch_views i t g = Ok g' -> k <> "bufferViews"%string -> get k g' = get k g.
Proof.
  unfold patch_views. intros H Hk.
  destruct (get "bufferViews" g) as [bvs |]; [| now injection H as <-].
  destruct (truthy bvs); [| now injection H as <-].
  destruct bvs; try discriminate; try (now injection H as <-).
  destruct (patch_view_list i t l) as [l' | e]; [| discriminate].
  injection H as <-. now apply get_set_ne.
Qed.

Lemma push_bufferView_get view g idx g' k :
  push_bufferView view g = Ok (idx, g') -> k <> "bufferViews"%string ->
  get k g' = get k g.
Proof.
  unfold push_bufferView. intros H Hk.
  destruct (truthy_prop (get "bufferViews" g)).
  - destruct (get "bufferViews" g) as [[] |]; try discriminate.
    injection H as _ <-. now apply get_set_ne.
  - rewrite get_set_eq in H. injection H as _ <-.
    now rewrite !get_set_ne.
Qed.

(** Pushing a view appends it to the list of views and returns its index. *)
Lemma push_bufferView_views view g idx g' :
  push_bufferView view g = Ok (idx, g') ->
  views_of g' = views_of g ++ [view] /\ idx = Z.of_nat (length (views_of g)).
Proof.
  unfold push_bufferView, views_of, entries. intros H.
  destruct (truthy_prop (get "bufferViews" g)) eqn:Et.
  - destruct (get "bufferViews" g) as [[] |]; try discriminate.
    injection H as <- <-. now rewrite get_set_eq.
  - rewrite get_set_eq in H. injection H as <- <-.
    rewrite get_set_eq.
    destruct (get "bufferViews" g) as [[] |]; try discriminate; now split.
Qed.

Section Collection.

Variable extname : string -> string.
Variable fs : string -> option fsentry.

Lemma process_buffer_inv i buffer st b' st' :
  process_buffer fs i buffer st = Ok (b', st') ->
  match embedded_file fs buffer with
  | Some d =>
      exists o uri gltf,
        external_uri buffer = Ok (Some (o, uri))
        /\ fs uri = Some (File d)
        /\ patch_views i (totalSize st) (modifiedGltf st) = Ok gltf
        /\ b' = JObj (delete "uri" o)
        /\ st' = mkState (binaryChunks st ++ Data d :: pad_chunks (totalSize st + blen d))
                   (totalSize st + blen d + padding_of (totalSize st + blen d))
                   gltf
  | None => b' = buffer /\ st' = st
  end.
Proof.
  unfold process_buffer, embedded_file.
  destruct (external_uri buffer) as [[[o uri] |] | e]; cbn [mbind result_bind];
    try discriminate; [| now intros [= <- <-]].
  destruct (fs uri) as [[d |] |] eqn:Hfs; try discriminate; [| now intros [= <- <-]].
  destruct (patch_views i (totalSize st) (modifiedGltf st)) as [gltf | e];
    cbn [mbind result_bind]; [| discriminate].
  rewrite advance_eq. intros [= <- <-].
  exists o, uri, gltf. rewrite <- app_assoc. repeat split; auto.
Qed.

Lemma process_image_inv image st image' st' :
  process_image extname fs image st = Ok (image', st') ->
  match embedded_file fs image with
  | Some d =>
      exists o uri idx gltf,
        external_uri image = Ok (Some (o, uri))
        /\ fs uri = Some (File d)
        /\ push_bufferView
             (JObj [("buffer"%string, JNum 0);
                    ("byteOffset"%string, JNum (totalSize st));
                    ("byteLength"%string, JNum (blen d))])
             (modifiedGltf st) = Ok (idx, gltf)
        /\ image' = JObj (set "mimeType" (getMimeType (extname uri))
                            (set "bufferView" (JNum idx) (delete "uri" o)))
        /\ st' = mkState (binaryChunks st ++ Data d :: pad_chunks (totalSize st + blen d))
                   (totalSize st + blen d + padding_of (totalSize st + blen d))
                   gltf
  | None => image' = image /\ st' = st
  end.
Proof.
  unfold process_image, embedded_file.
  destruct (external_uri image) as [[[o uri] |] | e]; cbn [mbind result_bind];
    try discriminate; [| now intros [= <- <-]].
  destruct (fs uri) as [[d |] |] eqn:Hfs; try discriminate; [| now intros [= <- <-]].
  destruct (push_bufferView _ (modifiedGltf st)) as [[idx gltf] | e];
    cbn [mbind result_bind]; [| discriminate].
  rewrite advance_eq. intros [= <- <-].
  exists o, uri, idx, gltf. rewrite <- app_assoc. repeat split; auto.
Qed.

(** ** The loops *)

Lemma buffers_loop_chunks l : forall i st l' st',
  buffers_loop fs i l st = Ok (l', st') ->
  binaryChunks st' = binaryChunks st ++ file_chunks (totalSize st) (external_files fs l)
  /\ totalSize st' = run_total (totalSize st) (external_files fs l)
  /\ length l' = length l.
Proof.
  induction l as [| buffer l IH]; intros i st l' st' H; simpl in H.
  - injection H as <- <-. simpl. now rewrite app_nil_r.
  - destruct (process_buffer fs i buffer st) as [[b1 st1] | e] eqn:Hstep;
      cbn [mbind result_bind] in H; [| discriminate].
    destruct (buffers_loop fs (i + 1) l st1) as [[l1 st2] | e] eqn:Hloop;
      cbn [mbind result_bind] in H; [| discriminate].
    injection H as <- <-.
    apply IH in Hloop as (Hc & Ht & Hl).
    apply process_buffer_inv in Hstep. simpl.
    destruct (embedded_file fs buffer) as [d |].
    + destruct Hstep as (o & uri & gltf & _ & _ & _ & _ & ->). simpl in *.
      rewrite Hc, Ht, <- app_assoc. simpl. now rewrite Hl.
    + destruct Hstep as [_ ->]. now rewrite Hl.
Qed.

Lemma images_loop_chunks l : forall st l' st',
  images_loop extname fs l st = Ok (l', st') ->
  binaryChunks st' = binaryChunks st ++ file_chunks (totalSize st) (external_files fs l)
  /\ totalSize st' = run_total (totalSize st) (external_files fs l)
  /\ length l' = length l.
Proof.
  induction l as [| image l IH]; intros st l' st' H; simpl in H.
  - injection H as <- <-. simpl. now rewrite app_nil_r.
  - destruct (process_image extname fs image st) as [[b1 st1] | e] eqn:Hstep;
      cbn [mbind result_bind] in H; [| discriminate].
    destruct (images_loop extname fs l st1) as [[l1 st2] | e] eqn:Hloop;
      cbn [mbind result_bind] in H; [| discriminate].
    injection H as <- <-.
    apply IH in Hloop as (Hc & Ht & Hl).
    apply process_image_inv in Hstep. simpl.
    destruct (embedded_file fs image) as [d |].
    + destruct Hstep as (o & uri & idx & gltf & _ & _ & _ & _ & ->). simpl in *.
      rewrite Hc, Ht, <- app_assoc. simpl. now rewrite Hl.
    + destruct Hstep as [_ ->]. now rewrite Hl.
Qed.

Lemma buffers_loop_get l : forall i st l' st' k,
  buffers_loop fs i l st = Ok (l', st') -> k <> "bufferViews"%string ->
  get k (modifiedGltf st') = get k (modifiedGltf st).
Proof.
  induction l as [| buffer l IH]; intros i st l' st' k H Hk; simpl in H.
  - now injection H as <- <-.
  - destruct (process_buffer fs i buffer st) as [[b1 st1] | e] eqn:Hstep;
      cbn [mbind result_bind] in H; [| discriminate].
    destruct (buffers_loop fs (i + 1) l st1) as [[l1 st2] | e] eqn:Hloop;
      cbn [mbind result_bind] in H; [| discriminate].
    injection H as <- <-.
    rewrite (IH _ _ _ _ k Hloop Hk).
    apply process_buffer_inv in Hstep.
    destruct (embedded_file fs buffer) as [d |].
    + destruct Hstep as (o & uri & gltf & _ & _ & Hp & _ & ->). simpl.
      eapply patch_views_get; eauto.
    + now destruct Hstep as [_ ->].
Qed.

Lemma images_loop_get l : forall st l' st' k,
  images_loop extname fs l st = Ok (l', st') -> k <> "bufferViews"%string ->
  get k (modifiedGltf st') = get k (modifiedGltf st).
Proof.
  induction l as [| image l IH]; intros st l' st' k H Hk; simpl in H.
  - now injection H as <- <-.
  - destruct (process_image extname fs image st) as [[b1 st1] | e] eqn:Hstep;
      cbn [mbind result_bind] in H; [| discriminate].
    destruct (images_loop extname fs l st1) as [[l1 st2] | e] eqn:Hloop;
      cbn [mbind result_bind] in H; [| discriminate].
    injection H as <- <-.
    rewrite (IH _ _ _ k Hloop Hk).
    apply process_image_inv in Hstep.
    destruct (embedded_file fs image) as [d |].
    + destruct Hstep as (o & uri & idx & gltf & _ & _ & Hp & _ & ->). simpl.
      eapply push_bufferView_get; eauto.
    + now destruct Hstep as [_ ->].
Qed.

End Collection.

Section Conversion.

Variable extname : string -> string.
Variable fs : string -> option fsentry.

Lemma state_eta st : mkState (binaryChunks st) (totalSize st) (modifiedGltf st) = st.
Proof. now destruct st. Qed.

(** The block of the buffers runs the loop over the array of buffers and,
    when the array is not empty, replaces it by a single buffer. *)
Lemma process_buffers_inv st st1 :
  process_buffers fs st = Ok st1 ->
  exists l' stL,
    buffers_loop fs 0 (entries "buffers" (modifiedGltf st)) st = Ok (l', stL)
    /\ st1 = mkState (binaryChunks stL) (totalSize stL)
               (match entries "buffers" (modifiedGltf st) with
                | [] => modifiedGltf stL
                | _ :: _ =>
                    set "buffers"
                      (JArr [JObj [("byteLength"%string, JNum (totalSize stL))]])
                      (modifiedGltf stL)
                end).
Proof.
  unfold process_buffers, entries. intros H.
  destruct (get "buffers" (modifiedGltf st)) as [bs |] eqn:Hg.
  2:{ injection H as <-. exists [], st. now rewrite state_eta. }
  destruct (truthy bs) eqn:Ht.
  2:{ injection H as <-. exists [], st.
      destruct bs; try discriminate; now rewrite state_eta. }
  destruct bs as [| | | | l | |]; try discriminate.
  destruct (buffers_loop fs 0 l st) as [[l' stL] | e] eqn:Hloop;
    cbn [mbind result_bind] in H; [| discriminate].
  exists l', stL. split; [reflexivity |].
  pose proof (buffers_loop_chunks fs l _ _ _ _ Hloop) as (_ & _ & Hlen).
  destruct l as [| b l].
  - destruct l'; [| discriminate]. simpl in H. injection H as <-.
    simpl in Hloop. injection Hloop as <-. now rewrite set_get_id.
  - destruct l' as [| b' l']; [discriminate |].
    replace (0 <? Z.of_nat (length (b' :: l'))) with true in H
      by (symmetry; apply Z.ltb_lt; simpl length; lia).
    injection H as <-. now rewrite set_set.
Qed.

Lemma process_images_inv st st1 :
  process_images extname fs st = Ok st1 ->
  exists l' stL,
    images_loop extname fs (entries "images" (modifiedGltf st)) st = Ok (l', stL)
    /\ st1 = mkState (binaryChunks stL) (totalSize stL)
               (match entries "images" (modifiedGltf st) with
                | [] => modifiedGltf stL
                | _ :: _ => set "images" (JArr l') (modifiedGltf stL)
                end).
Proof.
  unfold process_images, entries. intros H.
  destruct (get "images" (modifiedGltf st)) as [imgs |] eqn:Hg.
  2:{ injection H as <-. exists [], st. now rewrite state_eta. }
  destruct (truthy imgs) eqn:Ht.
  2:{ injection H as <-. exists [], st.
      destruct imgs; try discriminate; now rewrite state_eta. }
  destruct imgs as [| | | | l | |]; try discriminate.
  destruct (images_loop extname fs l st) as [[l' stL] | e] eqn:Hloop;
    cbn [mbind result_bind] in H; [| discriminate].
  exists l', stL. split; [reflexivity |].
  injection H as <-.
  destruct l as [| b l]; [| reflexivity].
  simpl in Hloop. injection Hloop as <- <-. now rewrite set_get_id.
Qed.

(** What [collect] returns, step by step. *)
Lemma collect_inv gltfData st :
  collect extname fs gltfData = Ok st ->
  exists bl' stB st1 il' stI st2,
    buffers_loop fs 0 (entries "buffers" gltfData) (mkState [] 0 gltfData)
      = Ok (bl', stB)
    /\ st1 = mkState (binaryChunks stB) (totalSize stB)
               (match entries "buffers" gltfData with
                | [] => modifiedGltf stB
                | _ :: _ =>
                    set "buffers"
                      (JArr [JObj [("byteLength"%string, JNum (totalSize stB))]])
                      (modifiedGltf stB)
                end)
    /\ images_loop extname fs (entries "images" gltfData) st1 = Ok (il', stI)
    /\ st2 = mkState (binaryChunks stI) (totalSize stI)
               (match entries "images" gltfData with
                | [] => modifiedGltf stI
                | _ :: _ => set "images" (JArr il') (modifiedGltf stI)
                end)
    /\ update_final_size st2 = Ok st.
Proof.
  unfold collect. intros H.
  destruct (process_buffers fs _) as [st1 | e] eqn:Hb;
    cbn [mbind result_bind] in H; [| discriminate].
  destruct (process_images extname fs st1) as [st2 | e] eqn:Hi;
    cbn [mbind result_bind] in H; [| discriminate].
  apply process_buffers_inv in Hb as (bl' & stB & Hbl & Hst1). simpl in Hbl, Hst1.
  apply process_images_inv in Hi as (il' & stI & Hil & Hst2).
  assert (Himg : entries "images" (modifiedGltf st1) = entries "images" gltfData).
  { unfold entries. replace (get "images" (modifiedGltf st1)) with (get "images" gltfData);
      [reflexivity |].
    pose proof (buffers_loop_get fs _ _ _ _ _ "images"%string Hbl ltac:(discriminate)) as Hg.
    simpl in Hg. rewrite Hst1. simpl.
    destruct (entries "buffers" gltfData); [| rewrite get_set_ne by discriminate]; auto. }
  rewrite Himg in Hil, Hst2.
  exists bl', stB, st1, il', stI, st2. repeat split; auto.
Qed.

Lemma update_final_size_chunks st st' :
  update_final_size st = Ok st' ->
  binaryChunks st' = binaryChunks st /\ totalSize st' = totalSize st.
Proof.
  unfold update_final_size. intros H.
  destruct (get "buffers" (modifiedGltf st)) as [bs |]; [| now injection H as <-].
  destruct (truthy bs); [| now injection H as <-].
  destruct bs as [| | | | [| [] ?] | |]; try discriminate; now injection H as <-.
Qed.

(** The chunks [collect] pushes are those of the files of the buffers,
    followed by those of the files of the images; [totalSize] is their
    running total. *)
Lemma collect_chunks gltfData st :
  collect extname fs gltfData = Ok st ->
  let files := external_files fs (entries "buffers" gltfData)
               ++ external_files fs (entries "images" gltfData) in
  binaryChunks st = file_chunks 0 files /\ totalSize st = run_total 0 files.
Proof.
  intros H files.
  apply collect_inv in H as (bl' & stB & st1 & il' & stI & st2 & Hb & -> & Hi & -> & Hu).
  apply update_final_size_chunks in Hu as [-> ->]. simpl.
  apply buffers_loop_chunks in Hb as (Hcb & Htb & _).
  apply images_loop_chunks in Hi as (Hci & Hti & _). simpl in *.
  unfold files. rewrite file_chunks_app, run_total_app.
  now rewrite Hci, Hti, Hcb, Htb.
Qed.

Lemma collect_total_aligned gltfData st :
  collect extname fs gltfData = Ok st ->
  totalSize st mod 4 = 0
  /\ blen (Buffer_concat (binaryChunks st)) = totalSize st.
Proof.
  intros H. apply collect_chunks in H as [-> ->]. split.
  - now apply run_total_aligned.
  - rewrite <- blen_file_chunks. lia.
Qed.

End Conversion.

(** ** The views through the loop over the buffers *)

Lemma patch_view_other i t v b :
  get "buffer" v = Some (JNum b) -> b <> i -> patch_view i t (JObj v) = Ok (JObj v).
Proof.
  intros Hb Hne. unfold patch_view. rewrite Hb.
  apply Z.eqb_neq in Hne. now rewrite Hne.
Qed.

(** The sum of line 66 for a view whose [byteOffset] is an integer, falsy or
    missing. *)
Lemma plus_totalSize_integer t v off :
  byteOffset_or_0 v = Ok off -> plus_totalSize t v = Ok (JNum (off + t)).
Proof.
  unfold plus_totalSize, byteOffset_or_0.
  destruct (get "byteOffset" v) as [[| [] | n | s | l | o | x] |]; simpl;
    try discriminate; try (intros [= <-]; reflexivity).
  - destruct (negb (n =? 0)); intros [= <-]; reflexivity.
  - destruct (negb (String.eqb s EmptyString)); [discriminate |].
    intros [= <-]. reflexivity.
Qed.


Lemma patch_view_list_lookup i t l : forall l',
  patch_view_list i t l = Ok l' ->
  length l' = length l
  /\ forall k bv, l !! k = Some bv ->
       exists bv', l' !! k = Some bv' /\ patch_view i t bv = Ok bv'.
Proof.
  induction l as [| bv0 l IH]; intros l' H; simpl in H.
  - injection H as <-. split; [reflexivity |]. intros k bv Hk. destruct k; discriminate.
  - destruct (patch_view i t bv0) as [bv0' | e] eqn:H0; cbn [mbind result_bind] in H;
      [| discriminate].
    destruct (patch_view_list i t l) as [l1 | e] eqn:H1; cbn [mbind result_bind] in H;
      [| discriminate].
    injection H as <-. destruct (IH _ eq_refl) as [Hlen Hlk].
    split; [simpl; now rewrite Hlen |].
    intros [| k] bv Hk; simpl in *.
    + injection Hk as <-. eauto.
    + now apply Hlk.
Qed.

Lemma patch_views_lookup i t g g' k bv :
  patch_views i t g = Ok g' ->
  views_of g !! k = Some bv ->
  exists bv', views_of g' !! k = Some bv' /\ patch_view i t bv = Ok bv'.
Proof.
  unfold patch_views, views_of, entries. intros H Hk.
  destruct (get "bufferViews" g) as [[| | | | l | |] |] eqn:Hg;
    try (destruct k; discriminate).
  simpl in H.
  destruct (patch_view_list i t l) as [l' | e] eqn:Hl; cbn [mbind result_bind] in H;
    [| discriminate].
  injection H as <-. rewrite get_set_eq.
  apply patch_view_list_lookup in Hl as [_ Hl]. now apply Hl.
Qed.

Section Views.

Variable extname : string -> string.
Variable fs : string -> option fsentry.

(** A view is left as it is by the loop when no buffer that brings a file
    has the index the view refers to. *)
Lemma buffers_loop_view_untouched l : forall i st l' st' k v b,
  buffers_loop fs i l st = Ok (l', st') ->
  views_of (modifiedGltf st) !! k = Some (JObj v) ->
  get "buffer" v = Some (JNum b) ->
  (forall n buffer, l !! n = Some buffer -> b = i + Z.of_nat n ->
                    embedded_file fs buffer = None) ->
  views_of (modifiedGltf st') !! k = Some (JObj v).
Proof.
  induction l as [| buffer l IH]; intros i st l' st' k v b H Hk Hb Hno; simpl in H.
  - now injection H as <- <-.
  - destruct (process_buffer fs i buffer st) as [[b1 st1] | e] eqn:Hstep;
      cbn [mbind result_bind] in H; [| discriminate].
    destruct (buffers_loop fs (i + 1) l st1) as [[l1 st2] | e] eqn:Hloop;
      cbn [mbind result_bind] in H; [| discriminate].
    injection H as <- <-.
    apply process_buffer_inv in Hstep.
    eapply (IH _ _ _ _ k v b Hloop); [| exact Hb |].
    + destruct (embedded_file fs buffer) as [d |] eqn:He.
      * destruct Hstep as (o & uri & gltf & _ & _ & Hp & _ & ->). simpl.
        destruct (patch_views_lookup _ _ _ _ _ _ Hp Hk) as (bv' & Hk' & Hpv).
        rewrite (patch_view_other i _ v b Hb) in Hpv; [now injection Hpv as <- |].
        intros ->. specialize (Hno 0%nat buffer eq_refl ltac:(simpl; lia)). congruence.
      * now destruct Hstep as [_ ->].
    + intros n buffer' Hn Hbn. apply (Hno (S n) buffer' Hn). lia.
Qed.


(** The loop over the images appends one view for every file. *)
Lemma images_loop_views l : forall st l' st',
  images_loop extname fs l st = Ok (l', st') ->
  views_of (modifiedGltf st')
  = views_of (modifiedGltf st) ++ image_views (totalSize st) (external_files fs l).
Proof.
  induction l as [| image l IH]; intros st l' st' H; simpl in H.
  - injection H as <- <-. simpl. now rewrite app_nil_r.
  - destruct (process_image extname fs image st) as [[b1 st1] | e] eqn:Hstep;
      cbn [mbind result_bind] in H; [| discriminate].
    destruct (images_loop extname fs l st1) as [[l1 st2] | e] eqn:Hloop;
      cbn [mbind result_bind] in H; [| discriminate].
    injection H as <- <-. apply IH in Hloop. rewrite Hloop.
    apply process_image_inv in Hstep. simpl.
    destruct (embedded_file fs image) as [d |].
    + destruct Hstep as (o & uri & idx & gltf & _ & _ & Hp & _ & ->). simpl.
      apply push_bufferView_views in Hp as [-> _]. now rewrite <- app_assoc.
    + now destruct Hstep as [_ ->].
Qed.

(** What the loop over the images makes of the image at index [n]. *)
Lemma images_loop_lookup l : forall st l' st' n image,
  images_loop extname fs l st = Ok (l', st') ->
  l !! n = Some image ->
  match embedded_file fs image with
  | Some d =>
      exists o uri,
        external_uri image = Ok (Some (o, uri))
        /\ fs uri = Some (File d)
        /\ l' !! n
           = Some (JObj (set "mimeType" (getMimeType (extname uri))
                           (set "bufferView"
                              (JNum (Z.of_nat (length (views_of (modifiedGltf st))
                                               + length (external_files fs (take n l)))))
                              (delete "uri" o))))
  | None => l' !! n = Some image
  end.
Proof.
  induction l as [| image0 l IH]; intros st l' st' n image H Hn;
    [destruct n; discriminate |].
  simpl in H.
  destruct (process_image extname fs image0 st) as [[b1 st1] | e] eqn:Hstep;
    cbn [mbind result_bind] in H; [| discriminate].
  destruct (images_loop extname fs l st1) as [[l1 st2] | e] eqn:Hloop;
    cbn [mbind result_bind] in H; [| discriminate].
  injection H as <- <-.
  apply process_image_inv in Hstep.
  destruct n as [| n]; simpl in Hn.
  - injection Hn as ->. simpl.
    destruct (embedded_file fs image) as [d |].
    + destruct Hstep as (o & uri & idx & gltf & He & Hf & Hp & -> & _).
      apply push_bufferView_views in Hp as [_ ->].
      exists o, uri. rewrite Nat.add_0_r. now repeat split.
    + now destruct Hstep as [-> _].
  - specialize (IH _ _ _ n image Hloop Hn). simpl.
    destruct (embedded_file fs image) as [d |]; [| exact IH].
    destruct IH as (o & uri & He & Hf & Hl). exists o, uri.
    split; [exact He |]. split; [exact Hf |]. rewrite Hl.
    assert (Hidx : (length (views_of (modifiedGltf st1))
                    + length (external_files fs (take n l))
                    = length (views_of (modifiedGltf st))
                      + length (external_files fs (take (S n) (image0 :: l))))%nat).
    { simpl take. simpl external_files.
      destruct (embedded_file fs image0) as [d0 |].
      - destruct Hstep as (o0 & uri0 & idx & gltf & _ & _ & Hp & _ & ->). simpl.
        apply push_bufferView_views in Hp as [-> _]. rewrite length_app. simpl. lia.
      - now destruct Hstep as [_ ->]. }
    now rewrite Hidx.
Qed.

End Views.

(** ** The document after the collection *)

Lemma update_final_size_get st st' k :
  update_final_size st = Ok st' -> k <> "buffers"%string ->
  get k (modifiedGltf st') = get k (modifiedGltf st).
Proof.
  unfold update_final_size. intros H Hk.
  destruct (get "buffers" (modifiedGltf st)) as [bs |]; [| now injection H as <-].
  destruct (truthy bs); [| now injection H as <-].
  destruct bs as [| | | | [| [] ?] | |]; try discriminate; injection H as <-; auto.
  simpl. now apply get_set_ne.
Qed.

Lemma update_final_size_single st st' t :
  update_final_size st = Ok st' ->
  get "buffers" (modifiedGltf st) = Some (JArr [JObj [("byteLength"%string, JNum t)]]) ->
  get "buffers" (modifiedGltf st')
  = Some (JArr [JObj [("byteLength"%string, JNum (totalSize st))]]).
Proof.
  unfold update_final_size. intros H Hg. rewrite Hg in H. simpl in H.
  injection H as <-. simpl. now rewrite get_set_eq.
Qed.

Lemma update_final_size_none st st' :
  update_final_size st = Ok st' ->
  entries "buffers" (modifiedGltf st) = [] ->
  st' = st.
Proof.
  unfold update_final_size, entries. intros H Hg.
  destruct (get "buffers" (modifiedGltf st)) as [bs |]; [| now injection H as <-].
  destruct (truthy bs); [| now injection H as <-].
  destruct bs as [| | | | [| [] ?] | |]; try discriminate; now injection H as <-.
Qed.

Section Document.

Variable extname : string -> string.
Variable fs : string -> option fsentry.

(** The members of the document that the collection does not touch. *)
Lemma collect_get gltfData st k :
  collect extname fs gltfData = Ok st ->
  k <> "buffers"%string -> k <> "bufferViews"%string -> k <> "images"%string ->
  get k (modifiedGltf st) = get k gltfData.
Proof.
  intros H Hb Hv Hi.
  apply collect_inv in H as (bl' & stB & st1 & il' & stI & st2 & HB & -> & HI & -> & Hu).
  rewrite (update_final_size_get _ _ k Hu Hb). simpl.
  assert (get k (modifiedGltf stI) = get k gltfData) as Hk.
  { rewrite (images_loop_get _ _ _ _ _ _ k HI Hv). simpl.
    assert (get k (modifiedGltf stB) = get k gltfData) as Hk
      by apply (buffers_loop_get _ _ _ _ _ _ k HB Hv).
    destruct (entries "buffers" gltfData); [| rewrite get_set_ne by exact Hb]; exact Hk. }
  destruct (entries "images" gltfData); [| rewrite get_set_ne by exact Hi]; exact Hk.
Qed.

(** The buffers of the document after the collection: a single buffer of
    the size of the region when the input has buffers, and what the input
    has otherwise. *)
Lemma collect_buffers gltfData st :
  collect extname fs gltfData = Ok st ->
  get "buffers" (modifiedGltf st)
  = match entries "buffers" gltfData with
    | [] => get "buffers" gltfData
    | _ :: _ => Some (JArr [JObj [("byteLength"%string, JNum (totalSize st))]])
    end.
Proof.
  intros H.
  pose proof H as Hinv.
  apply collect_inv in Hinv
    as (bl' & stB & st1 & il' & stI & st2 & HB & -> & HI & -> & Hu).
  pose proof (buffers_loop_get _ _ _ _ _ _ "buffers"%string HB ltac:(discriminate)) as HgB.
  pose proof (images_loop_get _ _ _ _ _ _ "buffers"%string HI ltac:(discriminate)) as HgI.
  simpl in HgB, HgI.
  assert (Hg2 : get "buffers"
                  (match entries "images" gltfData with
                   | [] => modifiedGltf stI
                   | _ :: _ => set "images" (JArr il') (modifiedGltf stI)
                   end) = get "buffers" (modifiedGltf stI)).
  { destruct (entries "images" gltfData); [| rewrite get_set_ne by discriminate]; reflexivity. }
  destruct (entries "buffers" gltfData) as [| b bl] eqn:Hbl.
  - apply update_final_size_none in Hu as ->; cbn [modifiedGltf].
    + now rewrite Hg2, HgI, HgB.
    + unfold entries at 1. rewrite Hg2, HgI, HgB. exact Hbl.
  - rewrite get_set_eq in HgI.
    pose proof (update_final_size_chunks _ _ Hu) as [_ Ht].
    rewrite Ht. eapply update_final_size_single; [exact Hu |].
    cbn [modifiedGltf]. rewrite Hg2, HgI. reflexivity.
Qed.

(** The views of the document after the collection: those the loop over the
    buffers leaves, followed by one view for the file of every image. *)
Lemma collect_views gltfData st :
  collect extname fs gltfData = Ok st ->
  exists bl' stB,
    buffers_loop fs 0 (entries "buffers" gltfData) (mkState [] 0 gltfData) = Ok (bl', stB)
    /\ views_of (modifiedGltf st)
       = views_of (modifiedGltf stB)
           ++ image_views (totalSize stB)
                (external_files fs (entries "images" gltfData)).
Proof.
  intros H.
  apply collect_inv in H as (bl' & stB & st1 & il' & stI & st2 & HB & -> & HI & -> & Hu).
  exists bl', stB. split; [exact HB |].
  apply images_loop_views in HI. simpl in HI.
  unfold views_of, entries in *.
  rewrite (update_final_size_get _ _ "bufferViews"%string Hu) by discriminate. simpl.
  replace (get "bufferViews"
             (match match get "images" gltfData with
                    | Some (JArr l) => l
                    | _ => []
                    end with
              | [] => modifiedGltf stI
              | _ :: _ => set "images" (JArr il') (modifiedGltf stI)
              end)) with (get "bufferViews" (modifiedGltf stI)).
  2:{ destruct (match get "images" gltfData with Some (JArr l) => l | _ => [] end);
        [| rewrite get_set_ne by discriminate]; reflexivity. }
  rewrite HI. f_equal.
  destruct (match get "buffers" gltfData with Some (JArr l) => l | _ => [] end);
    [| rewrite get_set_ne by discriminate]; reflexivity.
Qed.

(** The images of the document after the collection are those the loop over
    the images returns. *)
Lemma collect_images gltfData st :
  collect extname fs gltfData = Ok st ->
  exists bl' stB il' stI,
    buffers_loop fs 0 (entries "buffers" gltfData) (mkState [] 0 gltfData) = Ok (bl', stB)
    /\ images_loop extname fs (entries "images" gltfData)
         (mkState (binaryChunks stB) (totalSize stB)
            (match entries "buffers" gltfData with
             | [] => modifiedGltf stB
             | _ :: _ =>
                 set "buffers"
                   (JArr [JObj [("byteLength"%string, JNum (totalSize stB))]])
                   (modifiedGltf stB)
             end)) = Ok (il', stI)
    /\ entries "images" (modifiedGltf st) = il'.
Proof.
  intros H.
  apply collect_inv in H as (bl' & stB & st1 & il' & stI & st2 & HB & -> & HI & -> & Hu).
  exists bl', stB, il', stI. split; [exact HB |]. split; [exact HI |].
  unfold entries at 1.
  rewrite (update_final_size_get _ _ "images"%string Hu) by discriminate. simpl.
  destruct (entries "images" gltfData) as [| im il] eqn:Hil.
  - simpl in HI. injection HI as <- <-. simpl.
    destruct (entries "buffers" gltfData).
    + rewrite (buffers_loop_get _ _ _ _ _ _ "images"%string HB) by discriminate.
      simpl. exact Hil.
    + rewrite get_set_ne by discriminate.
      rewrite (buffers_loop_get _ _ _ _ _ _ "images"%string HB) by discriminate.
      simpl. exact Hil.
  - now rewrite get_set_eq.
Qed.

End Document.

(** ** Reading the container back *)

Lemma json_chunk_payload_container total jsonText binary :
  blen (pad4 x20 jsonText) < 2 ^ 32 ->
  json_chunk_payload (glb_container total jsonText binary) = Some (pad4 x20 jsonText).
Proof.
  intros Hlt. unfold json_chunk_payload, glb_container, glb_chunk.
  pose proof (blen_nonneg (pad4 x20 jsonText)) as Hn.
  replace (le32 0x46546C67 ++ le32 2 ++ le32 total ++
           (le32 (blen (pad4 x20 jsonText)) ++ le32 0x4E4F534A ++ pad4 x20 jsonText) ++
           match binary with
           | [] => []
           | _ :: _ => le32 (blen (pad4 x00 binary)) ++ le32 0x004E4942 ++ pad4 x00 binary
           end)
    with ((le32 0x46546C67 ++ le32 2 ++ le32 total)
            ++ le32 (blen (pad4 x20 jsonText))
            ++ (le32 0x4E4F534A ++ pad4 x20 jsonText ++
                match binary with
                | [] => []
                | _ :: _ => le32 (blen (pad4 x00 binary)) ++ le32 0x004E4942 ++ pad4 x00 binary
                end))
    by now rewrite <- !app_assoc.
  rewrite (readUInt32LE_le32 (le32 0x46546C67 ++ le32 2 ++ le32 total)) by lia.
  f_equal. cbn [le32 app skipn].
  unfold blen. rewrite Nat2Z.id. apply take_app_length.
Qed.

Section Claims.

Variable stringify : json -> bytes.
Variable extname : string -> string.
Variable fs : string -> option fsentry.

(** The conversion collects the resources and frames the result. *)
Lemma convertGLTFToGLB_inv gltfData out :
  convertGLTFToGLB stringify extname fs gltfData = Ok out ->
  exists st,
    collect extname fs gltfData = Ok st
    /\ createGLB stringify (modifiedGltf st) (Buffer_concat (binaryChunks st)) = Ok out
    /\ out = glb_container (blen out)
               (stringify (JObj (cleanGltf (modifiedGltf st))))
               (Buffer_concat (binaryChunks st)).
Proof.
  unfold convertGLTFToGLB. intros H.
  destruct (collect extname fs gltfData) as [st | e]; cbn [mbind result_bind] in H;
    [| discriminate].
  exists st. split; [reflexivity |]. split; [exact H |].
  now apply createGLB_Ok in H.
Qed.

(** C2. In the consolidated region every segment starts at a multiple of 4,
    and the segment that follows starts at the offset of this one plus its
    length, rounded up to the next multiple of 4. *)
Theorem segment_offsets gltfData st k off len :
  collect extname fs gltfData = Ok st ->
  segment_table 0 (binaryChunks st) !! k = Some (off, len) ->
  off mod 4 = 0
  /\ forall off' len',
       segment_table 0 (binaryChunks st) !! S k = Some (off', len') ->
       off' = round_up4 (off + len) /\ off' = off + round_up4 len.
Proof.
  intros H Hk. apply collect_chunks in H as [Hc _]. rewrite Hc in *.
  rewrite segment_table_file_chunks in *.
  apply file_table_lookup in Hk as (Hoff & _ & _ & Hnext); [| reflexivity].
  split; [exact Hoff |]. intros off' len' Hn.
  specialize (Hnext _ _ Hn). split; [exact Hnext |].
  now rewrite Hnext, round_up4_add.
Qed.

(** The region has the length of the padded files. *)
Lemma collect_region_length gltfData st :
  collect extname fs gltfData = Ok st ->
  blen (Buffer_concat (binaryChunks st))
  = padded_sum (external_files fs (entries "buffers" gltfData)
                ++ external_files fs (entries "images" gltfData))
  /\ totalSize st = blen (Buffer_concat (binaryChunks st))
  /\ totalSize st mod 4 = 0.
Proof.
  intros H.
  pose proof (collect_total_aligned _ _ _ _ H) as [Hal Hlen].
  pose proof (collect_chunks _ _ _ _ H) as [_ Ht].
  rewrite run_total_padded_sum, Z.add_0_l in Ht by reflexivity.
  rewrite Hlen. auto.
Qed.


End Claims.

(** ** Where the bytes of a file lie in the region *)

Lemma region_segment files1 d files2 :
  take (length d)
    (drop (Z.to_nat (run_total 0 files1))
       (Buffer_concat (file_chunks 0 (files1 ++ d :: files2)))) = d.
Proof.
  rewrite file_chunks_app, Buffer_concat_app.
  pose proof (blen_file_chunks 0 files1) as Hlen. unfold blen in Hlen.
  replace (Z.to_nat (run_total 0 files1))
    with (length (Buffer_concat (file_chunks 0 files1))) by lia.
  rewrite drop_app_length. simpl.
  change (d ++ flat_map chunk_bytes ?r) with (d ++ Buffer_concat r).
  apply take_app_length.
Qed.

Lemma external_files_split fs l n entry d :
  l !! n = Some entry ->
  embedded_file fs entry = Some d ->
  external_files fs l
  = external_files fs (take n l) ++ d :: external_files fs (drop (S n) l).
Proof.
  intros Hn He. rewrite <- (take_drop_middle l n entry Hn) at 1.
  rewrite external_files_app. simpl. now rewrite He.
Qed.

Lemma image_views_lookup t files1 d files2 :
  image_views t (files1 ++ d :: files2) !! length files1
  = Some (JObj [("buffer"%string, JNum 0);
                ("byteOffset"%string, JNum (run_total t files1));
                ("byteLength"%string, JNum (blen d))]).
Proof.
  rewrite image_views_app. simpl.
  rewrite <- (image_views_length t files1). apply list_lookup_middle. reflexivity.
Qed.

Lemma image_views_buffer t files :
  Forall (fun view => exists o, view = JObj o /\ get "buffer" o = Some (JNum 0))
         (image_views t files).
Proof.
  revert t. induction files as [| d files IH]; intros t; simpl; constructor; eauto.
Qed.

Lemma patch_views_length i t g g' :
  patch_views i t g = Ok g' -> length (views_of g') = length (views_of g).
Proof.
  unfold patch_views, views_of, entries. intros H.
  destruct (get "bufferViews" g) as [bvs |] eqn:Hg; [| injection H as <-; now rewrite Hg].
  destruct (truthy bvs); [| injection H as <-; now rewrite Hg].
  destruct bvs; try discriminate; try (injection H as <-; now rewrite Hg).
  destruct (patch_view_list i t l) as [l' | e] eqn:Hl; [| discriminate].
  injection H as <-. rewrite get_set_eq.
  now apply patch_view_list_lookup in Hl as [Hlen _].
Qed.

Lemma buffers_loop_views_length fs l : forall i st l' st',
  buffers_loop fs i l st = Ok (l', st') ->
  length (views_of (modifiedGltf st')) = length (views_of (modifiedGltf st)).
Proof.
  induction l as [| buffer l IH]; intros i st l' st' H; simpl in H.
  - now injection H as <- <-.
  - destruct (process_buffer fs i buffer st) as [[b1 st1] | e] eqn:Hstep;
      cbn [mbind result_bind] in H; [| discriminate].
    destruct (buffers_loop fs (i + 1) l st1) as [[l1 st2] | e] eqn:Hloop;
      cbn [mbind result_bind] in H; [| discriminate].
    injection H as <- <-. rewrite (IH _ _ _ _ Hloop).
    apply process_buffer_inv in Hstep.
    destruct (embedded_file fs buffer) as [d |].
    + destruct Hstep as (o & uri & gltf & _ & _ & Hp & _ & ->). simpl.
      now apply patch_views_length in Hp.
    + now destruct Hstep as [_ ->].
Qed.

Lemma views_of_set k v g : k <> "bufferViews"%string -> views_of (set k v g) = views_of g.
Proof. intros Hk. unfold views_of, entries. rewrite get_set_ne; auto. Qed.

Lemma byteOffset_or_0_missing v : get "byteOffset" v = None -> byteOffset_or_0 v = Ok 0.
Proof. unfold byteOffset_or_0. now intros ->. Qed.

Lemma byteOffset_or_0_number v n :
  get "byteOffset" v = Some (JNum n) -> byteOffset_or_0 v = Ok n.
Proof.
  unfold byteOffset_or_0. intros ->. simpl.
  destruct (n =? 0) eqn:E; simpl; [apply Z.eqb_eq in E; now subst | reflexivity].
Qed.

(** [getMimeType] looks the lower-cased extension up in the table. *)
Lemma getMimeType_table ext : getMimeType ext = JStr (mime_table (toLowerCase ext)).
Proof.
  unfold getMimeType, mime_table, mimeTypes. simpl.
  repeat (destruct (String.eqb (toLowerCase ext) _); [reflexivity |]).
  reflexivity.
Qed.

Section Patching.

Variable extname : string -> string.
Variable fs : string -> option fsentry.



(** C5, amended. An image whose URI names a file that is read is rewritten:
    the bytes of the file lie in the region at the running total, a new view
    of buffer 0 with that offset and the size of the file is appended to the
    views, the image refers to it by its index, has no [uri] any more, and
    its [mimeType] is the entry of the table for the lower-cased extension
    of the URI. *)
Theorem image_embedded gltfData st n image o uri d :
  collect extname fs gltfData = Ok st ->
  entries "images" gltfData !! n = Some image ->
  external_uri image = Ok (Some (o, uri)) ->
  fs uri = Some (File d) ->
  let idx := (length (views_of gltfData)
              + length (external_files fs (take n (entries "images" gltfData))))%nat in
  let off := padded_sum (external_files fs (entries "buffers" gltfData)
                         ++ external_files fs (take n (entries "images" gltfData))) in
  exists o',
    entries "images" (modifiedGltf st) !! n = Some (JObj o')
    /\ get "bufferView" o' = Some (JNum (Z.of_nat idx))
    /\ get "mimeType" o' = Some (JStr (mime_table (toLowerCase (extname uri))))
    /\ get "uri" o' = None
    /\ (forall key, key <> "uri"%string -> key <> "bufferView"%string ->
                    key <> "mimeType"%string -> get key o' = get key o)
    /\ views_of (modifiedGltf st) !! idx
       = Some (JObj [("buffer"%string, JNum 0); ("byteOffset"%string, JNum off);
                     ("byteLength"%string, JNum (blen d))])
    /\ take (length d) (drop (Z.to_nat off) (Buffer_concat (binaryChunks st))) = d.
Proof.
  intros H Hn Hext Hfs idx off.
  assert (He : embedded_file fs image = Some d).
  { unfold embedded_file. now rewrite Hext, Hfs. }
  pose proof (collect_chunks _ _ _ _ H) as [Hc _].
  destruct (collect_views _ _ _ _ H) as (bl' & stB & HB & Hv).
  destruct (collect_images _ _ _ _ H) as (bl2 & stB2 & il' & stI & HB2 & HI & Himg).
  rewrite HB in HB2. injection HB2 as <- <-.
  pose proof (buffers_loop_views_length _ _ _ _ _ _ HB) as Hlen. simpl in Hlen.
  pose proof (buffers_loop_chunks _ _ _ _ _ _ HB) as (_ & HtB & _). simpl in HtB.
  pose proof (images_loop_lookup _ _ _ _ _ _ n image HI Hn) as Hl.
  rewrite He in Hl. destruct Hl as (o1 & uri1 & Hext1 & _ & Hl).
  rewrite Hext in Hext1. injection Hext1 as <- <-.
  cbn [modifiedGltf] in Hl.
  assert (Hvl : length (views_of
                  (match entries "buffers" gltfData with
                   | [] => modifiedGltf stB
                   | _ :: _ =>
                       set "buffers"
                         (JArr [JObj [("byteLength"%string, JNum (totalSize stB))]])
                         (modifiedGltf stB)
                   end)) = length (views_of gltfData)).
  { destruct (entries "buffers" gltfData); [| rewrite views_of_set by discriminate];
      exact Hlen. }
  rewrite Hvl in Hl. fold idx in Hl.
  eexists. split; [rewrite Himg; exact Hl |].
  split; [now rewrite get_set_ne, get_set_eq by discriminate |].
  split; [now rewrite get_set_eq, getMimeType_table |].
  split; [now rewrite !get_set_ne, get_delete_eq by discriminate |].
  split; [intros key H1 H2 H3; now rewrite !get_set_ne, get_delete_ne by auto |].
  pose proof (external_files_split fs _ n image d Hn He) as Hsplit.
  assert (Hoff : off = run_total (totalSize stB)
                         (external_files fs (take n (entries "images" gltfData)))).
  { unfold off. rewrite HtB, <- run_total_app.
    now rewrite run_total_padded_sum, Z.add_0_l by reflexivity. }
  split.
  - rewrite Hv, Hsplit. unfold idx. rewrite <- Hlen.
    rewrite lookup_app_r by lia.
    replace (length (views_of (modifiedGltf stB))
             + length (external_files fs (take n (entries "images" gltfData)))
             - length (views_of (modifiedGltf stB)))%nat
      with (length (external_files fs (take n (entries "images" gltfData)))) by lia.
    now rewrite image_views_lookup, Hoff.
  - rewrite Hc, Hsplit, app_assoc. unfold off.
    rewrite <- (Z.add_0_l (padded_sum _)), <- run_total_padded_sum by reflexivity.
    apply region_segment.
Qed.

(** C6. A buffer whose URI names no existing file passes through its loop
    step with nothing pushed and the running total as it was, and the step
    does not throw; the views that refer to it keep their [buffer] and
    [byteOffset]. An image whose URI names no existing file is left as it
    is, its [uri] included. *)
Theorem missing_files_skipped :
  (forall i buffer st o uri,
      external_uri buffer = Ok (Some (o, uri)) -> fs uri = None ->
      process_buffer fs i buffer st = Ok (buffer, st))
  /\ (forall image st o uri,
      external_uri image = Ok (Some (o, uri)) -> fs uri = None ->
      process_image extname fs image st = Ok (image, st))
  /\ (forall gltfData st n buffer o uri k v,
      collect extname fs gltfData = Ok st ->
      entries "buffers" gltfData !! n = Some buffer ->
      external_uri buffer = Ok (Some (o, uri)) -> fs uri = None ->
      views_of gltfData !! k = Some (JObj v) ->
      get "buffer" v = Some (JNum (Z.of_nat n)) ->
      views_of (modifiedGltf st) !! k = Some (JObj v)
      /\ external_files fs (take (S n) (entries "buffers" gltfData))
         = external_files fs (take n (entries "buffers" gltfData)))
  /\ (forall gltfData st n image o uri,
      collect extname fs gltfData = Ok st ->
      entries "images" gltfData !! n = Some image ->
      external_uri image = Ok (Some (o, uri)) -> fs uri = None ->
      entries "images" (modifiedGltf st) !! n = Some image
      /\ get "uri" o = Some (JStr uri)).
Proof.
  split; [| split; [| split]].
  - intros i buffer st o uri Hext Hfs. unfold process_buffer.
    rewrite Hext. cbn [mbind result_bind]. now rewrite Hfs.
  - intros image st o uri Hext Hfs. unfold process_image.
    rewrite Hext. cbn [mbind result_bind]. now rewrite Hfs.
  - intros gltfData st n buffer o uri k v H Hn Hext Hfs Hk Hb.
    assert (He : embedded_file fs buffer = None).
    { unfold embedded_file. now rewrite Hext, Hfs. }
    split.
    + destruct (collect_views _ _ _ _ H) as (bl' & stB & HB & Hv).
      rewrite Hv. apply lookup_app_l_Some.
      eapply (buffers_loop_view_untouched fs _ _ _ _ _ k v _ HB); [exact Hk | exact Hb |].
      intros m buffer' Hm Hmn.
      assert (m = n) as -> by lia. congruence.
    + rewrite (take_S_r _ _ _ Hn), external_files_app. simpl.
      now rewrite He, app_nil_r.
  - intros gltfData st n image o uri H Hn Hext Hfs.
    assert (He : embedded_file fs image = None).
    { unfold embedded_file. now rewrite Hext, Hfs. }
    destruct (collect_images _ _ _ _ H) as (bl' & stB & il' & stI & HB & HI & Himg).
    pose proof (images_loop_lookup _ _ _ _ _ _ n image HI Hn) as Hl.
    rewrite He in Hl. split; [now rewrite Himg |].
    unfold external_uri in Hext.
    destruct image as [| | | | | oi |]; try discriminate.
    destruct (get "uri" oi) as [u |] eqn:Hu; [| discriminate].
    destruct (truthy u); [| discriminate].
    destruct u as [| | | s | | |]; try discriminate.
    destruct (String.prefix "data:" s); [discriminate |].
    now injection Hext as <- <-.
Qed.

End Patching.

(** ** Documents that bring no file *)

Lemma uses_data_uri_external entry : uses_data_uri entry -> external_uri entry = Ok None.
Proof.
  intros (o & s & -> & Hu & Hp). unfold external_uri. rewrite Hu. simpl.
  destruct (String.eqb s EmptyString); simpl; [reflexivity | now rewrite Hp].
Qed.

Lemma uses_data_uri_embedded fs entry : uses_data_uri entry -> embedded_file fs entry = None.
Proof. intros H. unfold embedded_file. now rewrite uses_data_uri_external. Qed.

Lemma external_files_data_uri fs l : Forall uses_data_uri l -> external_files fs l = [].
Proof.
  induction 1 as [| e l He _ IH]; simpl; [reflexivity |].
  now rewrite uses_data_uri_embedded.
Qed.

Lemma external_files_nil_cons fs e l :
  external_files fs (e :: l) = [] -> embedded_file fs e = None /\ external_files fs l = [].
Proof. simpl. destruct (embedded_file fs e); [discriminate | auto]. Qed.

Lemma padded_sum_ge files1 d files2 : blen d <= padded_sum (files1 ++ d :: files2).
Proof.
  rewrite padded_sum_app. simpl.
  pose proof (padded_sum_nonneg files1). pose proof (padded_sum_nonneg files2).
  pose proof (padding_of_range (blen d)). lia.
Qed.

Section NoFiles.

Variable stringify : json -> bytes.
Variable extname : string -> string.
Variable fs : string -> option fsentry.

Lemma buffers_loop_no_files l : forall i st l' st',
  external_files fs l = [] ->
  buffers_loop fs i l st = Ok (l', st') -> l' = l /\ st' = st.
Proof.
  induction l as [| buffer l IH]; intros i st l' st' Hno H; simpl in H.
  - now injection H as <- <-.
  - apply external_files_nil_cons in Hno as [He Hno].
    destruct (process_buffer fs i buffer st) as [[b1 st1] | e] eqn:Hstep;
      cbn [mbind result_bind] in H; [| discriminate].
    destruct (buffers_loop fs (i + 1) l st1) as [[l1 st2] | e] eqn:Hloop;
      cbn [mbind result_bind] in H; [| discriminate].
    injection H as <- <-.
    apply process_buffer_inv in Hstep. rewrite He in Hstep. destruct Hstep as [-> ->].
    now destruct (IH _ _ _ _ Hno Hloop) as [-> ->].
Qed.

Lemma images_loop_no_files l : forall st l' st',
  external_files fs l = [] ->
  images_loop extname fs l st = Ok (l', st') -> l' = l /\ st' = st.
Proof.
  induction l as [| image l IH]; intros st l' st' Hno H; simpl in H.
  - now injection H as <- <-.
  - apply external_files_nil_cons in Hno as [He Hno].
    destruct (process_image extname fs image st) as [[b1 st1] | e] eqn:Hstep;
      cbn [mbind result_bind] in H; [| discriminate].
    destruct (images_loop extname fs l st1) as [[l1 st2] | e] eqn:Hloop;
      cbn [mbind result_bind] in H; [| discriminate].
    injection H as <- <-.
    apply process_image_inv in Hstep. rewrite He in Hstep. destruct Hstep as [-> ->].
    now destruct (IH _ _ _ Hno Hloop) as [-> ->].
Qed.

Lemma entries_cons_get k doc e l :
  entries k doc = e :: l -> get k doc = Some (JArr (e :: l)).
Proof.
  unfold entries. destruct (get k doc) as [[] |]; try discriminate. now intros ->.
Qed.

(** When no entry brings a file, the collection returns an empty region and
    the document with its buffers collapsed. *)
Lemma collect_no_files gltfData st :
  external_files fs (entries "buffers" gltfData) = [] ->
  external_files fs (entries "images" gltfData) = [] ->
  collect extname fs gltfData = Ok st ->
  st = mkState [] 0 (collapse_buffers gltfData).
Proof.
  intros Hb Hi H.
  apply collect_inv in H as (bl' & stB & st1 & il' & stI & st2 & HB & -> & HI & -> & Hu).
  apply (buffers_loop_no_files _ _ _ _ _ Hb) in HB as [-> ->].
  apply (images_loop_no_files _ _ _ _ Hi) in HI as [-> ->].
  cbn [binaryChunks totalSize modifiedGltf] in Hu.
  fold (collapse_buffers gltfData) in Hu.
  assert (Himg : match entries "images" gltfData with
                 | [] => collapse_buffers gltfData
                 | _ :: _ => set "images" (JArr (entries "images" gltfData))
                               (collapse_buffers gltfData)
                 end = collapse_buffers gltfData).
  { destruct (entries "images" gltfData) as [| im il] eqn:Hil; [reflexivity |].
    apply set_get_id. apply entries_cons_get in Hil. unfold collapse_buffers.
    destruct (entries "buffers" gltfData); [| rewrite get_set_ne by discriminate];
      exact Hil. }
  rewrite Himg in Hu.
  unfold collapse_buffers in *.
  destruct (entries "buffers" gltfData) as [| b bl] eqn:Hbl.
  - now apply update_final_size_none in Hu.
  - unfold update_final_size in Hu. cbn [modifiedGltf totalSize binaryChunks] in Hu.
    rewrite get_set_eq in Hu. simpl in Hu. injection Hu as <-.
    now rewrite set_set.
Qed.

(** Such a conversion does not throw when the members [buffers] and
    [images] are arrays (or are skipped by the guards). *)
Lemma collect_data_uris gltfData :
  array_or_falsy (get "buffers" gltfData) ->
  array_or_falsy (get "images" gltfData) ->
  Forall uses_data_uri (entries "buffers" gltfData) ->
  Forall uses_data_uri (entries "images" gltfData) ->
  collect extname fs gltfData = Ok (mkState [] 0 (collapse_buffers gltfData)).
Proof.
  intros Hsb Hsi Hb Hi.
  assert (Hlb : forall l i st, Forall uses_data_uri l -> buffers_loop fs i l st = Ok (l, st)).
  { intros l. induction l as [| e l IH]; intros i st Hl; [reflexivity |].
    inversion Hl as [| ? ? He Hl']; subst. simpl.
    unfold process_buffer. rewrite (uses_data_uri_external _ He).
    cbn [mbind result_bind]. now rewrite IH. }
  assert (Hli : forall l st, Forall uses_data_uri l ->
                             images_loop extname fs l st = Ok (l, st)).
  { intros l. induction l as [| e l IH]; intros st Hl; [reflexivity |].
    inversion Hl as [| ? ? He Hl']; subst. simpl.
    unfold process_image. rewrite (uses_data_uri_external _ He).
    cbn [mbind result_bind]. now rewrite IH. }
  assert (Hpb : process_buffers fs (mkState [] 0 gltfData)
                = Ok (mkState [] 0 (collapse_buffers gltfData))).
  { unfold process_buffers, collapse_buffers, entries in *. simpl.
    destruct (get "buffers" gltfData) as [bs |] eqn:Hg; [| reflexivity].
    destruct bs as [| | | | l | |]; simpl in Hsb; try discriminate;
      try reflexivity; try (cbn [truthy]; rewrite Hsb; reflexivity).
    simpl. rewrite (Hlb l 0 _ Hb). cbn [mbind result_bind].
    destruct l as [| b l]; simpl.
    - now rewrite set_get_id.
    - now rewrite set_set. }
  unfold collect. rewrite Hpb. cbn [mbind result_bind].
  assert (Hgi : get "images" (collapse_buffers gltfData) = get "images" gltfData).
  { unfold collapse_buffers.
    destruct (entries "buffers" gltfData); [| rewrite get_set_ne by discriminate];
      reflexivity. }
  assert (Hpi : process_images extname fs (mkState [] 0 (collapse_buffers gltfData))
                = Ok (mkState [] 0 (collapse_buffers gltfData))).
  { unfold process_images. cbn [modifiedGltf]. rewrite Hgi.
    unfold entries in Hi.
    destruct (get "images" gltfData) as [is_ |] eqn:Hg; [| reflexivity].
    destruct is_ as [| | | | l | |]; simpl in Hsi; try discriminate;
      try reflexivity; try (cbn [truthy]; rewrite Hsi; reflexivity).
    simpl. rewrite (Hli l _ Hi). cbn [mbind result_bind binaryChunks totalSize modifiedGltf].
    rewrite set_get_id; [reflexivity |]. now rewrite Hgi. }
  rewrite Hpi. cbn [mbind result_bind].
  unfold update_final_size, collapse_buffers, entries. cbn [modifiedGltf].
  destruct (get "buffers" gltfData) as [bs |] eqn:Hg; [| now rewrite Hg].
  destruct bs as [| | | | l | |]; simpl in Hsb; try discriminate;
    try (rewrite Hg; reflexivity); try (rewrite Hg; cbn [truthy]; rewrite Hsb; reflexivity).
  destruct l as [| b l]; [now rewrite Hg |].
  rewrite get_set_eq. simpl. now rewrite set_set.
Qed.

End NoFiles.

Section Serialized.

Variable stringify : json -> bytes.
Variable extname : string -> string.
Variable fs : string -> option fsentry.

Lemma createGLB_json_fits gltfData binaryBuffer out :
  createGLB stringify gltfData binaryBuffer = Ok out ->
  blen (pad4 x20 (stringify (JObj (cleanGltf gltfData)))) < 2 ^ 32.
Proof.
  rewrite createGLB_eq.
  destruct (_ <? _) eqn:Hlt; [| discriminate]. intros _.
  apply Z.ltb_lt in Hlt. unfold glb_size in Hlt.
  destruct binaryBuffer as [| b binaryBuffer]; [lia |].
  pose proof (blen_nonneg (pad4 x00 (b :: binaryBuffer))). lia.
Qed.

(** The JSON chunk of the container is the serialization of the collected
    document, made clean and padded. *)
Lemma convertGLTFToGLB_json gltfData out :
  convertGLTFToGLB stringify extname fs gltfData = Ok out ->
  exists st,
    collect extname fs gltfData = Ok st
    /\ json_chunk_payload out
       = Some (pad4 x20 (stringify (JObj (cleanGltf (modifiedGltf st))))).
Proof.
  intros H. apply convertGLTFToGLB_inv in H as (st & Hc & Hg & Hout).
  exists st. split; [exact Hc |]. rewrite Hout.
  apply json_chunk_payload_container. eapply createGLB_json_fits; eauto.
Qed.

Lemma get_cleanGltf k doc : k <> "asset"%string -> get k (cleanGltf doc) = get k doc.
Proof.
  intros Hk. unfold cleanGltf.
  destruct (truthy_prop (get "asset" doc)); [reflexivity | now apply get_set_ne].
Qed.

(** C7, amended. For a document whose buffers and images all use [data:]
    URIs the container has no BIN chunk, and its JSON chunk is the
    serialization, padded with spaces, of the input document in which a
    list of buffers that is not empty is replaced by the single buffer
    [{byteLength: 0}] and an absent [asset] is set to [{version: "2.0"}];
    the document is serialized as it is when it has no buffers and has an
    [asset]. *)
Theorem data_uri_conversion gltfData out :
  Forall uses_data_uri (entries "buffers" gltfData) ->
  Forall uses_data_uri (entries "images" gltfData) ->
  convertGLTFToGLB stringify extname fs gltfData = Ok out ->
  let document := cleanGltf (collapse_buffers gltfData) in
  out = glb_container (blen out) (stringify (JObj document)) []
  /\ json_chunk_payload out = Some (pad4 x20 (stringify (JObj document)))
  /\ (entries "buffers" gltfData = [] ->
      truthy_prop (get "asset" gltfData) = true -> document = gltfData).
Proof.
  intros Hb Hi H document.
  pose proof (convertGLTFToGLB_json _ _ H) as (st' & Hc' & Hj).
  apply convertGLTFToGLB_inv in H as (st & Hc & _ & Hout).
  rewrite Hc in Hc'. injection Hc' as <-.
  apply (collect_no_files extname fs) in Hc;
    [| now apply external_files_data_uri | now apply external_files_data_uri].
  subst st. simpl in Hout, Hj. fold document in Hout, Hj.
  split; [exact Hout |]. split; [exact Hj |].
  intros Hnone Hasset. unfold document, collapse_buffers, cleanGltf.
  now rewrite Hnone, Hasset.
Qed.

(** C8, amended. The document serialized into the container has [asset]
    equal to the object [{version: "2.0"}], and so [asset.version] equal to
    "2.0", whenever the input has no [asset] (or one that is falsy); an
    [asset] the input has is serialized as it is. *)
Theorem asset_ensured gltfData out :
  convertGLTFToGLB stringify extname fs gltfData = Ok out ->
  exists st,
    collect extname fs gltfData = Ok st
    /\ json_chunk_payload out
       = Some (pad4 x20 (stringify (JObj (cleanGltf (modifiedGltf st)))))
    /\ (truthy_prop (get "asset" gltfData) = false ->
        get "asset" (cleanGltf (modifiedGltf st))
        = Some (JObj [("version"%string, JStr "2.0")])
        /\ asset_version (cleanGltf (modifiedGltf st)) = Some (JStr "2.0"))
    /\ (truthy_prop (get "asset" gltfData) = true ->
        get "asset" (cleanGltf (modifiedGltf st)) = get "asset" gltfData).
Proof.
  intros H. destruct (convertGLTFToGLB_json _ _ H) as (st & Hc & Hj).
  exists st. split; [exact Hc |]. split; [exact Hj |].
  pose proof (collect_get _ _ _ _ "asset"%string Hc
                ltac:(discriminate) ltac:(discriminate) ltac:(discriminate)) as Ha.
  unfold asset_version, cleanGltf. rewrite Ha. split; intros ->.
  - now rewrite get_set_eq.
  - exact Ha.
Qed.

(** C10, amended. For a document without [buffers] and with an image whose
    URI names a file that is read and is not empty, the container has a BIN
    chunk that is not empty, the views of the files of the images are
    appended with [buffer] 0, and the serialized document has no
    [buffers]. *)
Theorem images_without_buffers gltfData out n image d :
  get "buffers" gltfData = None ->
  entries "images" gltfData !! n = Some image ->
  embedded_file fs image = Some d ->
  d <> [] ->
  convertGLTFToGLB stringify extname fs gltfData = Ok out ->
  exists st b region,
    collect extname fs gltfData = Ok st
    /\ Buffer_concat (binaryChunks st) = b :: region
    /\ out = glb_container (blen out)
               (stringify (JObj (cleanGltf (modifiedGltf st)))) (b :: region)
    /\ get "buffers" (cleanGltf (modifiedGltf st)) = None
    /\ views_of (modifiedGltf st)
       = views_of gltfData
           ++ image_views 0 (external_files fs (entries "images" gltfData))
    /\ image_views 0 (external_files fs (entries "images" gltfData)) <> []
    /\ Forall (fun view => exists o, view = JObj o /\ get "buffer" o = Some (JNum 0))
         (image_views 0 (external_files fs (entries "images" gltfData))).
Proof.
  intros Hnb Hn He Hd H.
  apply convertGLTFToGLB_inv in H as (st & Hc & _ & Hout).
  assert (Hbl : entries "buffers" gltfData = []).
  { unfold entries. now rewrite Hnb. }
  pose proof (collect_region_length _ _ _ _ Hc) as (Hlen & _).
  rewrite Hbl in Hlen. simpl in Hlen.
  pose proof (external_files_split fs _ n image d Hn He) as Hsplit.
  assert (Hpos : 0 < blen (Buffer_concat (binaryChunks st))).
  { rewrite Hlen, Hsplit.
    pose proof (padded_sum_ge (external_files fs (take n (entries "images" gltfData))) d
                  (external_files fs (drop (S n) (entries "images" gltfData)))).
    assert (0 < blen d); [| lia].
    destruct d; [contradiction | unfold blen; simpl; lia]. }
  destruct (Buffer_concat (binaryChunks st)) as [| b region] eqn:Hregion;
    [change (blen []) with 0 in Hpos; lia |].
  exists st, b, region. split; [exact Hc |]. split; [exact Hregion |].
  split; [exact Hout |].
  split.
  { rewrite get_cleanGltf by discriminate.
    rewrite (collect_buffers _ _ _ _ Hc), Hbl. exact Hnb. }
  split.
  { destruct (collect_views _ _ _ _ Hc) as (bl' & stB & HB & Hv).
    rewrite Hbl in HB. simpl in HB. injection HB as <- <-. exact Hv. }
  split; [| apply image_views_buffer].
  rewrite Hsplit, image_views_app. simpl. now destruct (image_views 0 _).
Qed.

End Serialized.

(** ** Documents on which the collection does not throw *)

Lemma patch_view_ok i t view :
  plain_view view -> exists view', patch_view i t view = Ok view' /\ plain_view view'.
Proof.
  destruct view as [| | | | | o |]; simpl; try contradiction; eauto.
  intros [off Hoff].
  assert (Hself : plain_view (JObj o)) by (now exists off).
  destruct (get "buffer" o) as [[| | b | | | |] |] eqn:Hb; simpl;
    try (exists (JObj o); split; [reflexivity | exact Hself]).
  destruct (b =? i); [| exists (JObj o); split; [reflexivity | exact Hself]].
  rewrite (plus_totalSize_integer t o off Hoff). cbn [mbind result_bind].
  eexists. split; [reflexivity |].
  simpl. exists (off + t). apply byteOffset_or_0_number.
  rewrite get_set_ne by discriminate. apply get_set_eq.
Qed.

Lemma patch_view_list_ok i t l :
  Forall plain_view l ->
  exists l', patch_view_list i t l = Ok l' /\ Forall plain_view l'.
Proof.
  induction 1 as [| view l Hv _ (l' & Hl & Hl')]; simpl; [eauto |].
  destruct (patch_view_ok i t view Hv) as (view' & Hp & Hv').
  rewrite Hp. cbn [mbind result_bind]. rewrite Hl. cbn [mbind result_bind]. eauto.
Qed.

Lemma plain_views_set_array l g :
  Forall plain_view l -> plain_views (set "bufferViews" (JArr l) g).
Proof.
  intros Hl. unfold plain_views, views_of, entries. now rewrite get_set_eq.
Qed.

Lemma plain_views_set_other k v g :
  k <> "bufferViews"%string -> plain_views g -> plain_views (set k v g).
Proof.
  intros Hk. unfold plain_views, views_of, entries. now rewrite get_set_ne by auto.
Qed.

Lemma patch_views_ok i t g :
  plain_views g -> exists g', patch_views i t g = Ok g' /\ plain_views g'.
Proof.
  intros [Hshape Hviews]. unfold patch_views, views_of, entries in *.
  destruct (get "bufferViews" g) as [bvs |] eqn:Hg.
  2:{ exists g. split; [reflexivity |]. unfold plain_views, views_of, entries. now rewrite Hg. }
  destruct bvs as [| | | | l | |]; simpl in Hshape; try discriminate;
    try (exists g; cbn [truthy]; rewrite ?Hshape; split; [reflexivity |];
         unfold plain_views, views_of, entries; rewrite Hg; now split).
  simpl. destruct (patch_view_list_ok i t l Hviews) as (l' & Hl & Hl').
  rewrite Hl. cbn [mbind result_bind]. eexists. split; [reflexivity |].
  now apply plain_views_set_array.
Qed.

Lemma push_bufferView_ok view g :
  plain_views g -> plain_view view ->
  exists idx g', push_bufferView view g = Ok (idx, g') /\ plain_views g'.
Proof.
  intros [Hshape Hviews] Hview. unfold push_bufferView, views_of, entries in *.
  destruct (get "bufferViews" g) as [bvs |] eqn:Hg; simpl.
  - destruct bvs as [| | | | l | |]; simpl in Hshape; try discriminate;
      cbn [truthy]; rewrite ?Hshape; rewrite ?get_set_eq; rewrite ?Hg;
      eexists _, _; (split; [reflexivity |]);
      rewrite ?set_set; apply plain_views_set_array; (apply Forall_app; split);
      try assumption; repeat constructor; assumption.
  - rewrite get_set_eq. eexists _, _. split; [reflexivity |].
    rewrite set_set. apply plain_views_set_array. now repeat constructor.
Qed.

Section Totality.

Variable extname : string -> string.
Variable fs : string -> option fsentry.

Lemma process_buffer_ok i buffer st :
  readable_entry fs buffer -> plain_views (modifiedGltf st) ->
  exists buffer' st',
    process_buffer fs i buffer st = Ok (buffer', st') /\ plain_views (modifiedGltf st').
Proof.
  unfold readable_entry, process_buffer. intros He Hv.
  destruct (external_uri buffer) as [[[o uri] |] | e]; cbn [mbind result_bind];
    [| eauto | contradiction].
  destruct (fs uri) as [[data |] |]; [| contradiction | eauto].
  destruct (patch_views_ok i (totalSize st) _ Hv) as (g' & Hp & Hg').
  rewrite Hp. cbn [mbind result_bind]. rewrite advance_eq. eauto.
Qed.

Lemma buffers_loop_ok l : forall i st,
  Forall (readable_entry fs) l -> plain_views (modifiedGltf st) ->
  exists l' st',
    buffers_loop fs i l st = Ok (l', st') /\ plain_views (modifiedGltf st').
Proof.
  induction l as [| buffer l IH]; intros i st Hl Hv; simpl; [eauto |].
  inversion Hl as [| ? ? Hb Hl']; subst.
  destruct (process_buffer_ok i buffer st Hb Hv) as (b' & st1 & Hstep & Hv1).
  rewrite Hstep. cbn [mbind result_bind].
  destruct (IH (i + 1) st1 Hl' Hv1) as (l' & st2 & Hloop & Hv2).
  rewrite Hloop. cbn [mbind result_bind]. eauto.
Qed.

Lemma process_image_ok image st :
  readable_entry fs image -> plain_views (modifiedGltf st) ->
  exists image' st',
    process_image extname fs image st = Ok (image', st')
    /\ plain_views (modifiedGltf st').
Proof.
  unfold readable_entry, process_image. intros He Hv.
  destruct (external_uri image) as [[[o uri] |] | e]; cbn [mbind result_bind];
    [| eauto | contradiction].
  destruct (fs uri) as [[data |] |]; [| contradiction | eauto].
  destruct (push_bufferView_ok
              (JObj [("buffer"%string, JNum 0);
                     ("byteOffset"%string, JNum (totalSize st));
                     ("byteLength"%string, JNum (blen data))])
              _ Hv) as (idx & g' & Hp & Hg').
  { simpl. exists (totalSize st). now apply byteOffset_or_0_number. }
  rewrite Hp. cbn [mbind result_bind]. rewrite advance_eq. eauto.
Qed.

Lemma images_loop_ok l : forall st,
  Forall (readable_entry fs) l -> plain_views (modifiedGltf st) ->
  exists l' st',
    images_loop extname fs l st = Ok (l', st') /\ plain_views (modifiedGltf st').
Proof.
  induction l as [| image l IH]; intros st Hl Hv; simpl; [eauto |].
  inversion Hl as [| ? ? Hi Hl']; subst.
  destruct (process_image_ok image st Hi Hv) as (i' & st1 & Hstep & Hv1).
  rewrite Hstep. cbn [mbind result_bind].
  destruct (IH st1 Hl' Hv1) as (l' & st2 & Hloop & Hv2).
  rewrite Hloop. cbn [mbind result_bind]. eauto.
Qed.

(** The collection of a well-formed document returns; in particular a file
    that does not exist makes no exception. *)
Lemma collect_succeeds gltfData :
  well_formed fs gltfData -> exists st, collect extname fs gltfData = Ok st.
Proof.
  intros (Hsb & Hsi & Hb & Hi & Hv). unfold collect.
  assert (Hpb : exists st1,
             process_buffers fs (mkState [] 0 gltfData) = Ok st1
             /\ plain_views (modifiedGltf st1)
             /\ get "images" (modifiedGltf st1) = get "images" gltfData
             /\ ((array_or_falsy (get "buffers" (modifiedGltf st1))
                  /\ entries "buffers" (modifiedGltf st1) = [])
                 \/ exists t, get "buffers" (modifiedGltf st1)
                              = Some (JArr [JObj [("byteLength"%string, JNum t)]]))).
  { unfold process_buffers, entries in *. cbn [modifiedGltf].
    destruct (get "buffers" gltfData) as [bs |] eqn:Hg.
    2:{ eexists. split; [reflexivity |]. cbn [modifiedGltf]. rewrite Hg. simpl. auto. }
    destruct bs as [| | | | l | |]; simpl in Hsb; try discriminate;
      try (eexists; cbn [truthy]; rewrite ?Hsb; split; [reflexivity |];
           cbn [modifiedGltf]; rewrite Hg; simpl; auto).
    simpl.
    destruct (buffers_loop_ok l 0 (mkState [] 0 gltfData) Hb Hv) as (l' & stL & Hloop & HvL).
    rewrite Hloop. cbn [mbind result_bind].
    pose proof (buffers_loop_get _ _ _ _ _ _ "images"%string Hloop ltac:(discriminate)) as Hgi.
    simpl in Hgi.
    destruct (0 <? Z.of_nat (length l')) eqn:Hlen; eexists; (split; [reflexivity |]);
      cbn [modifiedGltf].
    - split; [now repeat apply plain_views_set_other |].
      split; [now rewrite !get_set_ne by discriminate |].
      right. eexists. now rewrite get_set_eq.
    - split; [now apply plain_views_set_other |].
      split; [now rewrite get_set_ne by discriminate |].
      left. rewrite get_set_eq. apply Z.ltb_ge in Hlen.
      destruct l'; [simpl; auto | simpl length in Hlen; lia]. }
  destruct Hpb as (st1 & Hpb & Hv1 & Hgi & Hbuf). rewrite Hpb. cbn [mbind result_bind].
  assert (Hpi : exists st2,
             process_images extname fs st1 = Ok st2
             /\ get "buffers" (modifiedGltf st2) = get "buffers" (modifiedGltf st1)).
  { unfold process_images, entries in *. rewrite Hgi.
    destruct (get "images" gltfData) as [imgs |] eqn:Hg; [| eauto].
    destruct imgs as [| | | | l | |]; simpl in Hsi; try discriminate;
      try (eexists; cbn [truthy]; rewrite ?Hsi; split; reflexivity).
    simpl.
    destruct (images_loop_ok l st1 Hi Hv1) as (l' & stL & Hloop & HvL).
    rewrite Hloop. cbn [mbind result_bind]. eexists. split; [reflexivity |].
    cbn [modifiedGltf]. rewrite get_set_ne by discriminate.
    apply (images_loop_get _ _ _ _ _ _ "buffers"%string Hloop). discriminate. }
  destruct Hpi as (st2 & Hpi & Hgb). rewrite Hpi. cbn [mbind result_bind].
  unfold update_final_size. unfold entries in Hbuf. rewrite Hgb.
  destruct Hbuf as [[Hshape Hnone] | [t Hone]].
  - destruct (get "buffers" (modifiedGltf st1)) as [bs |]; [| eauto].
    destruct bs as [| | | | l | |]; simpl in Hshape; try discriminate;
      cbn [truthy]; rewrite ?Hshape; eauto.
    subst l. eauto.
  - rewrite Hone. simpl. eauto.
Qed.

(** The conversion of a well-formed document writes a container whenever the
    size of the container fits its 32-bit length field. *)
Lemma convertGLTFToGLB_succeeds (stringify : json -> bytes) gltfData :
  well_formed fs gltfData ->
  exists st,
    collect extname fs gltfData = Ok st
    /\ (glb_size (stringify (JObj (cleanGltf (modifiedGltf st))))
          (Buffer_concat (binaryChunks st)) < 2 ^ 32 ->
        exists out, convertGLTFToGLB stringify extname fs gltfData = Ok out).
Proof.
  intros Hwf. destruct (collect_succeeds gltfData Hwf) as (st & Hc).
  exists st. split; [exact Hc |]. intros Hsize.
  unfold convertGLTFToGLB. rewrite Hc. cbn [mbind result_bind].
  now apply createGLB_emits.
Qed.

End Totality.

(** ** The store: what the conversion leaves untouched *)

Module StoreFacts.
Import Store.

Section Frame.

Variable h1 : heap.

Local Abbreviation fresh_val := (Store.fresh_val h1).
Local Abbreviation fresh_cell := (Store.fresh_cell h1).
Local Abbreviation fresh_prop := (Store.fresh_prop h1).
Local Abbreviation extends := (Store.extends h1).
Local Abbreviation keeps := (Store.keeps h1).

Lemma extends_length h : extends h -> (length h1 <= length h)%nat.
Proof.
  intros [Ht _]. rewrite <- Ht at 1. rewrite length_take. lia.
Qed.

Lemma extends_start : extends h1.
Proof.
  split; [apply take_ge; lia |].
  intros l c Hl Hc. apply lookup_lt_Some in Hc. lia.
Qed.

Lemma keeps_ret {A} (a : A) (Q : A -> Prop) : Q a -> keeps (mret a) Q.
Proof. intros Hq h Hh. now split. Qed.

Lemma keeps_throw {A} e (Q : A -> Prop) : keeps (throw e) Q.
Proof. intros h Hh. now split. Qed.

Lemma keeps_bind {A B} (m : M A) (f : A -> M B) (P : A -> Prop) (Q : B -> Prop) :
  keeps m P -> (forall a, P a -> keeps (f a) Q) -> keeps (m ≫= f) Q.
Proof.
  intros Hm Hf h Hh. unfold mbind, M_bind.
  specialize (Hm h Hh). destruct (m h) as [[a | e] h']; simpl in *.
  - destruct Hm as [Hh' Ha]. exact (Hf a Ha h' Hh').
  - now split.
Qed.

Lemma keeps_weaken {A} (m : M A) (P Q : A -> Prop) :
  keeps m P -> (forall a, P a -> Q a) -> keeps m Q.
Proof.
  intros Hm Hpq h Hh. specialize (Hm h Hh).
  destruct (m h) as [[a | e] h']; simpl in *; intuition.
Qed.

Lemma keeps_alloc c : fresh_cell c -> keeps (alloc c) fresh_val.
Proof.
  intros Hc h Hh. pose proof (extends_length h Hh) as Hlen.
  destruct Hh as [Ht Hf]. unfold alloc. simpl. split; [split |].
  - now rewrite take_app_le.
  - intros l c' Hl Hl'. apply lookup_app_Some in Hl' as [Hl' | [_ Hl']].
    + eauto.
    + destruct (l - length h)%nat; simpl in Hl'; [| discriminate].
      now injection Hl' as <-.
  - exact Hlen.
Qed.

Lemma keeps_load l : (length h1 <= l)%nat -> keeps (load l) fresh_cell.
Proof.
  intros Hl h Hh. unfold load.
  destruct (h !! l) as [c |] eqn:Hc; simpl; split; auto.
  destruct Hh as [_ Hf]. eauto.
Qed.

Lemma keeps_store l c :
  (length h1 <= l)%nat -> fresh_cell c -> keeps (store l c) (fun _ => True).
Proof.
  intros Hl Hc h [Ht Hf]. unfold store. simpl. split; [split |]; auto.
  - now rewrite take_insert_ge.
  - intros l' c' Hl' Hc'.
    apply list_lookup_insert_Some in Hc' as [(_ & <- & _) | [_ Hc']]; eauto.
Qed.

Lemma fresh_get k ps :
  Forall (fun kv => fresh_val (snd kv)) ps -> fresh_prop (get k ps).
Proof.
  induction 1 as [| [k' v] ps Hv _ IH]; simpl; [exact I |].
  destruct (String.eqb k k'); [exact Hv | exact IH].
Qed.

Lemma fresh_set k v ps :
  fresh_val v -> Forall (fun kv => fresh_val (snd kv)) ps ->
  Forall (fun kv => fresh_val (snd kv)) (set k v ps).
Proof.
  intros Hv. induction 1 as [| [k' v'] ps Hv' Hps IH]; simpl.
  - now repeat constructor.
  - destruct (String.eqb k k'); constructor; auto.
Qed.

Lemma fresh_delete k ps :
  Forall (fun kv => fresh_val (snd kv)) ps ->
  Forall (fun kv => fresh_val (snd kv)) (delete k ps).
Proof.
  induction 1 as [| [k' v'] ps Hv' Hps IH]; simpl; [constructor |].
  destruct (String.eqb k k'); [exact IH | now constructor].
Qed.

Lemma keeps_get_prop x k : fresh_val x -> keeps (get_prop x k) fresh_prop.
Proof.
  intros Hx. destruct x as [| b | n | s | l | x]; simpl;
    try (apply keeps_ret; exact I); [apply keeps_throw |].
  eapply keeps_bind; [apply keeps_load; exact Hx |].
  intros [vs | ps] Hc; apply keeps_ret; [exact I | now apply fresh_get].
Qed.

Lemma keeps_set_prop x k v :
  fresh_val x -> fresh_val v -> keeps (set_prop x k v) (fun _ => True).
Proof.
  intros Hx Hv. destruct x as [| b | n | s | l | x]; simpl; try apply keeps_throw.
  eapply keeps_bind; [apply keeps_load; exact Hx |].
  intros [vs | ps] Hc; [now apply keeps_ret |].
  apply keeps_store; [exact Hx | now apply fresh_set].
Qed.

Lemma keeps_delete_prop x k : fresh_val x -> keeps (delete_prop x k) (fun _ => True).
Proof.
  intros Hx. destruct x as [| b | n | s | l | x]; simpl; try (now apply keeps_ret).
  eapply keeps_bind; [apply keeps_load; exact Hx |].
  intros [vs | ps] Hc; [now apply keeps_ret |].
  apply keeps_store; [exact Hx | now apply fresh_delete].
Qed.

(** [JSON.parse] builds its tree out of new cells. *)
Lemma keeps_JSON_parse j : keeps (JSON_parse j) fresh_val.
Proof.
  induction j as [| b | n | s | x | l IH | o IH] using json_ind'; simpl;
    try (apply keeps_ret; exact I).
  - eapply keeps_bind with (P := Forall fresh_val); [| intros vs Hvs; now apply keeps_alloc].
    induction IH as [| x l Hx _ IHl]; [now apply keeps_ret |].
    eapply keeps_bind; [exact Hx |]. intros v Hv.
    eapply keeps_bind; [exact IHl |]. intros vs Hvs.
    apply keeps_ret. now constructor.
  - eapply keeps_bind with (P := Forall (fun kv => fresh_val (snd kv)));
      [| intros ps Hps; now apply keeps_alloc].
    induction IH as [| kx o Hx _ IHo]; [now apply keeps_ret |].
    eapply keeps_bind; [exact Hx |]. intros v Hv.
    eapply keeps_bind; [exact IHo |]. intros ps Hps.
    apply keeps_ret. now constructor.
Qed.

Lemma keeps_tree_of v : keeps (tree_of v) (fun _ => True).
Proof.
  intros h Hh. unfold tree_of. now destruct (reify (length h) h v).
Qed.

(** The copy [JSON.parse(JSON.stringify(v))] does not lead into [h1],
    whatever [v] is. *)
Lemma keeps_JSON_copy v : keeps (JSON_copy v) fresh_val.
Proof.
  unfold JSON_copy. eapply keeps_bind; [apply keeps_tree_of |].
  intros j _. apply keeps_JSON_parse.
Qed.

Lemma keeps_for_each {A} (body : A -> M unit) (P : A -> Prop) l :
  (forall x, P x -> keeps (body x) (fun _ => True)) ->
  Forall P l -> keeps (for_each body l) (fun _ => True).
Proof.
  intros Hbody. induction 1 as [| x l Hx _ IH]; simpl; [now apply keeps_ret |].
  eapply keeps_bind; [apply Hbody, Hx |]. intros _ _. exact IH.
Qed.

Lemma keeps_external_uri entry :
  fresh_val entry -> keeps (external_uri entry) (fun _ => True).
Proof.
  intros He. unfold external_uri.
  eapply keeps_bind; [now apply keeps_get_prop |].
  intros [u |] _; [| now apply keeps_ret].
  destruct (truthy u); [| now apply keeps_ret].
  destruct u; try apply keeps_throw.
  destruct (String.prefix "data:" s); now apply keeps_ret.
Qed.

Lemma keeps_plus_totalSize total byteOffset :
  keeps (plus_totalSize total byteOffset) fresh_val.
Proof.
  unfold plus_totalSize.
  destruct byteOffset as [[| [] | n | s | l | x] |]; simpl;
    repeat match goal with
           | |- context [if ?c then _ else _] => destruct c
           end;
    first [now apply keeps_ret | apply keeps_throw].
Qed.

Lemma keeps_patch_view i total bufferView :
  fresh_val bufferView -> keeps (patch_view i total bufferView) (fun _ => True).
Proof.
  intros Hv. unfold patch_view.
  eapply keeps_bind; [now apply keeps_get_prop |].
  intros [[| | b | | |] |] _; try (now apply keeps_ret).
  destruct (b =? i); [| now apply keeps_ret].
  eapply keeps_bind; [now apply keeps_get_prop |]. intros bo _.
  eapply keeps_bind; [apply keeps_plus_totalSize |].
  intros sum Hsum.
  eapply keeps_bind; [now apply keeps_set_prop |]. intros _ _.
  now apply keeps_set_prop.
Qed.

Lemma keeps_patch_views i total modifiedGltf :
  fresh_val modifiedGltf -> keeps (patch_views i total modifiedGltf) (fun _ => True).
Proof.
  intros Hg. unfold patch_views.
  eapply keeps_bind; [now apply keeps_get_prop |].
  intros bvs Hbvs. destruct (truthy_prop bvs); [| now apply keeps_ret].
  destruct bvs as [[| | | | l |] |]; try apply keeps_throw; [now apply keeps_ret |].
  eapply keeps_bind; [apply keeps_load; exact Hbvs |].
  intros [elems | ps] Hc; [| apply keeps_throw].
  eapply keeps_for_each; [| exact Hc]. intros x Hx. now apply keeps_patch_view.
Qed.

Lemma keeps_push_bufferView view modifiedGltf :
  fresh_val modifiedGltf ->
  Forall (fun kv => fresh_val (snd kv)) view ->
  keeps (push_bufferView view modifiedGltf) (fun _ => True).
Proof.
  intros Hg Hview. unfold push_bufferView.
  eapply keeps_bind; [now apply keeps_get_prop |]. intros bvs _.
  eapply keeps_bind with (P := fun _ => True).
  - destruct (truthy_prop bvs); [now apply keeps_ret |].
    eapply keeps_bind; [apply keeps_alloc; constructor |].
    intros a Ha. now apply keeps_set_prop.
  - intros _ _.
    eapply keeps_bind; [now apply keeps_get_prop |].
    intros [[| | | | l |] |] Hl; try apply keeps_throw.
    eapply keeps_bind; [apply keeps_load; exact Hl |].
    intros [elems | ps] Hc; [| apply keeps_throw].
    eapply keeps_bind; [now apply keeps_alloc |]. intros v Hv.
    eapply keeps_bind; [| intros _ _; now apply keeps_ret].
    apply keeps_store; [exact Hl |].
    apply Forall_app. split; [exact Hc | now repeat constructor].
Qed.

Section Converter.

Variable stringify : json -> bytes.
Variable extname : string -> string.
Variable fs : string -> option fsentry.

Lemma keeps_process_buffer modifiedGltf i buffer st :
  fresh_val modifiedGltf -> fresh_val buffer ->
  keeps (process_buffer fs modifiedGltf i buffer st) (fun _ => True).
Proof.
  intros Hg Hb. unfold process_buffer.
  eapply keeps_bind; [now apply keeps_external_uri |].
  intros [uri |] _; [| now apply keeps_ret].
  destruct (fs uri) as [[data |] |]; [| apply keeps_throw | now apply keeps_ret].
  eapply keeps_bind; [now apply keeps_patch_views |]. intros _ _.
  eapply keeps_bind; [now apply keeps_delete_prop |]. intros _ _.
  now apply keeps_ret.
Qed.

Lemma keeps_buffers_loop modifiedGltf buffers : forall i st,
  fresh_val modifiedGltf -> Forall fresh_val buffers ->
  keeps (buffers_loop fs modifiedGltf i buffers st) (fun _ => True).
Proof.
  induction buffers as [| buffer rest IH]; intros i st Hg Hbs; simpl;
    [now apply keeps_ret |].
  inversion Hbs as [| ? ? Hb Hrest]; subst.
  eapply keeps_bind; [now apply keeps_process_buffer |].
  intros st1 _. now apply IH.
Qed.

Lemma keeps_process_buffers modifiedGltf st :
  fresh_val modifiedGltf ->
  keeps (process_buffers fs modifiedGltf st) (fun _ => True).
Proof.
  intros Hg. unfold process_buffers.
  eapply keeps_bind; [now apply keeps_get_prop |].
  intros bs Hbs. destruct (truthy_prop bs); [| now apply keeps_ret].
  destruct bs as [[| | | | l |] |]; try apply keeps_throw.
  eapply keeps_bind; [apply keeps_load; exact Hbs |].
  intros [elems | ps] Hc; [| apply keeps_throw].
  eapply keeps_bind; [now apply keeps_buffers_loop |]. intros st1 _.
  destruct (0 <? Z.of_nat (length elems)); [| now apply keeps_ret].
  eapply keeps_bind; [apply keeps_alloc; now repeat constructor |]. intros b Hb.
  eapply keeps_bind; [apply keeps_alloc; now repeat constructor |]. intros a Ha.
  eapply keeps_bind; [now apply keeps_set_prop |]. intros _ _.
  now apply keeps_ret.
Qed.

Lemma keeps_process_image modifiedGltf image st :
  fresh_val modifiedGltf -> fresh_val image ->
  keeps (process_image extname fs modifiedGltf image st) (fun _ => True).
Proof.
  intros Hg Hi. unfold process_image.
  eapply keeps_bind; [now apply keeps_external_uri |].
  intros [uri |] _; [| now apply keeps_ret].
  destruct (fs uri) as [[data |] |]; [| apply keeps_throw | now apply keeps_ret].
  eapply keeps_bind; [apply keeps_push_bufferView; [exact Hg | now repeat constructor] |].
  intros idx _.
  eapply keeps_bind; [now apply keeps_delete_prop |]. intros _ _.
  eapply keeps_bind; [now apply keeps_set_prop |]. intros _ _.
  eapply keeps_bind; [| intros _ _; now apply keeps_ret].
  apply keeps_set_prop; [exact Hi |].
  now destruct (getMimeType (extname uri)).
Qed.

Lemma keeps_images_loop modifiedGltf images : forall st,
  fresh_val modifiedGltf -> Forall fresh_val images ->
  keeps (images_loop extname fs modifiedGltf images st) (fun _ => True).
Proof.
  induction images as [| image rest IH]; intros st Hg His; simpl;
    [now apply keeps_ret |].
  inversion His as [| ? ? Hi Hrest]; subst.
  eapply keeps_bind; [now apply keeps_process_image |].
  intros st1 _. now apply IH.
Qed.

Lemma keeps_process_images modifiedGltf st :
  fresh_val modifiedGltf ->
  keeps (process_images extname fs modifiedGltf st) (fun _ => True).
Proof.
  intros Hg. unfold process_images.
  eapply keeps_bind; [now apply keeps_get_prop |].
  intros imgs Himgs. destruct (truthy_prop imgs); [| now apply keeps_ret].
  destruct imgs as [[| | | | l |] |]; try apply keeps_throw.
  eapply keeps_bind; [apply keeps_load; exact Himgs |].
  intros [elems | ps] Hc; [| apply keeps_throw].
  now apply keeps_images_loop.
Qed.

Lemma keeps_update_final_size modifiedGltf st :
  fresh_val modifiedGltf ->
  keeps (update_final_size modifiedGltf st) (fun _ => True).
Proof.
  intros Hg. unfold update_final_size.
  eapply keeps_bind; [now apply keeps_get_prop |].
  intros bs Hbs. destruct (truthy_prop bs); [| now apply keeps_ret].
  destruct bs as [[| | | | l |] |]; try apply keeps_throw.
  eapply keeps_bind; [apply keeps_load; exact Hbs |].
  intros [[| b0 elems] | ps] Hc; [now apply keeps_ret | | apply keeps_throw].
  inversion Hc; subst. now apply keeps_set_prop.
Qed.

Lemma keeps_createGLB gltfData binaryBuffer :
  keeps (createGLB stringify gltfData binaryBuffer) (fun _ => True).
Proof.
  unfold createGLB.
  eapply keeps_bind; [apply keeps_JSON_copy |]. intros cleanGltf Hc.
  eapply keeps_bind; [now apply keeps_get_prop |]. intros asset _.
  eapply keeps_bind with (P := fun _ => True).
  - destruct (truthy_prop asset); [now apply keeps_ret |].
    eapply keeps_bind; [apply keeps_alloc; now repeat constructor |].
    intros a Ha. now apply keeps_set_prop.
  - intros _ _. eapply keeps_bind; [apply keeps_tree_of |]. intros j _.
    destruct (frameGLB (stringify j) binaryBuffer); [now apply keeps_ret | apply keeps_throw].
Qed.

(** The conversion of a parsed document keeps every cell of the store
    it starts from: all its updates go to the copy and to what it
    allocates. *)
Lemma keeps_convert_parsed gltfData :
  keeps (convert_parsed stringify extname fs gltfData) (fun _ => True).
Proof.
  unfold convert_parsed.
  eapply keeps_bind; [apply keeps_JSON_copy |]. intros modifiedGltf Hg.
  eapply keeps_bind; [now apply keeps_process_buffers |]. intros st1 _.
  eapply keeps_bind; [now apply keeps_process_images |]. intros st2 _.
  eapply keeps_bind; [now apply keeps_update_final_size |]. intros _ _.
  apply keeps_createGLB.
Qed.

End Converter.

End Frame.

(** *** Reading a value back *)

Lemma reify_fuel fuel : forall fuel' h v j,
  reify fuel h v = Some j -> (fuel <= fuel')%nat -> reify fuel' h v = Some j.
Proof.
  induction fuel as [| fuel IH]; intros fuel' h v j Hr Hle.
  - destruct v; simpl in *; try discriminate; destruct fuel'; exact Hr.
  - destruct v as [| | | | l |]; try (destruct fuel'; exact Hr).
    destruct fuel' as [| fuel']; [lia |]. simpl in *.
    destruct (h !! l) as [[vs | ps] |]; [| | discriminate].
    + destruct (mapM (reify fuel h) vs) as [js |] eqn:Hm; [| discriminate].
      apply mapM_Some in Hm.
      assert (Hm' : mapM (reify fuel' h) vs = Some js).
      { apply mapM_Some. eapply Forall2_impl; [exact Hm |].
        intros x y Hxy. apply (IH fuel' h x y Hxy). lia. }
      now rewrite Hm'.
    + destruct (mapM (fun kv => (fun j => (fst kv, j)) <$> reify fuel h (snd kv)) ps)
        as [js |] eqn:Hm; [| discriminate].
      apply mapM_Some in Hm.
      assert (Hm' : mapM (fun kv => (fun j => (fst kv, j)) <$> reify fuel' h (snd kv)) ps
                    = Some js).
      { apply mapM_Some. eapply Forall2_impl; [exact Hm |].
        intros kv y Hxy. simpl in *.
        destruct (reify fuel h (snd kv)) as [jx |] eqn:Hx; [| discriminate].
        rewrite (IH fuel' h (snd kv) jx Hx); [exact Hxy | lia]. }
      now rewrite Hm'.
Qed.

(** What is read from a store is read from every store that extends it. *)
Lemma reify_app fuel : forall h ext v j,
  reify fuel h v = Some j -> reify fuel (h ++ ext) v = Some j.
Proof.
  induction fuel as [| fuel IH]; intros h ext v j Hr.
  - destruct v; simpl in *; try discriminate; exact Hr.
  - destruct v as [| | | | l |]; try exact Hr. simpl in *.
    destruct (h !! l) as [c |] eqn:Hl; [| discriminate].
    rewrite (lookup_app_l_Some _ _ _ _ Hl).
    destruct c as [vs | ps].
    + destruct (mapM (reify fuel h) vs) as [js |] eqn:Hm; [| discriminate].
      apply mapM_Some in Hm.
      assert (Hm' : mapM (reify fuel (h ++ ext)) vs = Some js).
      { apply mapM_Some. eapply Forall2_impl; [exact Hm |].
        intros x y Hxy. now apply IH. }
      now rewrite Hm'.
    + destruct (mapM (fun kv => (fun j => (fst kv, j)) <$> reify fuel h (snd kv)) ps)
        as [js |] eqn:Hm; [| discriminate].
      apply mapM_Some in Hm.
      assert (Hm' : mapM (fun kv => (fun j => (fst kv, j))
                                      <$> reify fuel (h ++ ext) (snd kv)) ps = Some js).
      { apply mapM_Some. eapply Forall2_impl; [exact Hm |].
        intros kv y Hxy. simpl in *.
        destruct (reify fuel h (snd kv)) as [jx |] eqn:Hx; [| discriminate].
        now rewrite (IH h ext (snd kv) jx Hx). }
      now rewrite Hm'.
Qed.

Lemma bind_Ok {A B} (m : M A) (f : A -> M B) h a h' :
  m h = (Ok a, h') -> (m ≫= f) h = f a h'.
Proof. intros Hm. unfold mbind, M_bind. now rewrite Hm. Qed.

(** [JSON.parse] succeeds, extends the store, and what it returns reads
    back as the tree it was given. *)
Lemma JSON_parse_reify j : forall h,
  exists v ext,
    JSON_parse j h = (Ok v, h ++ ext)
    /\ forall ext', reify (json_depth j) (h ++ ext ++ ext') v = Some j.
Proof.
  induction j as [| b | n | s | x | l IH | o IH] using json_ind'; intros h;
    try (eexists _, []; rewrite app_nil_r; split; [reflexivity | intros; reflexivity]).
  - assert (Hel : forall h, exists vs ext,
               (fix parse_elems (l : list json) : M (list val) :=
                  match l with
                  | [] => mret []
                  | x :: l' =>
                      v ← JSON_parse x; vs ← parse_elems l'; mret (v :: vs)
                  end) l h = (Ok vs, h ++ ext)
               /\ forall ext',
                    Forall2 (fun v x => reify (json_depth x) (h ++ ext ++ ext') v = Some x)
                      vs l).
    { clear h. induction IH as [| x l Hx _ IHl]; intros h.
      - exists [], []. rewrite app_nil_r. split; [reflexivity | constructor].
      - destruct (Hx h) as (v & e1 & Hv & Hrv).
        destruct (IHl (h ++ e1)) as (vs & e2 & Hvs & Hrvs).
        exists (v :: vs), (e1 ++ e2).
        rewrite (bind_Ok _ _ _ _ _ Hv), (bind_Ok _ _ _ _ _ Hvs), <- app_assoc.
        split; [reflexivity |].
        intros ext'. constructor.
        + rewrite <- app_assoc. apply Hrv.
        + specialize (Hrvs ext'). rewrite <- !app_assoc in *. exact Hrvs. }
    destruct (Hel h) as (vs & ext & Hvs & Hr).
    exists (VRef (length (h ++ ext))), (ext ++ [CArr vs]).
    simpl JSON_parse. rewrite (bind_Ok _ _ _ _ _ Hvs). unfold alloc.
    rewrite <- app_assoc. split; [reflexivity |].
    intros ext'. cbn [reify json_depth].
    replace (h ++ (ext ++ [CArr vs]) ++ ext') with ((h ++ ext) ++ CArr vs :: ext')
      by now rewrite <- !app_assoc.
    rewrite list_lookup_middle by reflexivity.
    assert (Hm : mapM (reify (foldr (fun x d => Nat.max (json_depth x) d) O l)
                         ((h ++ ext) ++ CArr vs :: ext')) vs = Some l).
    { apply mapM_Some. specialize (Hr (CArr vs :: ext')).
      rewrite app_assoc in Hr. revert Hr.
      generalize ((h ++ ext) ++ CArr vs :: ext'). clear. intros hp Hr.
      induction Hr as [| v x vs l Hv _ IHr]; [constructor |].
      simpl. constructor.
      - eapply reify_fuel; [exact Hv | lia].
      - eapply Forall2_impl; [exact IHr |].
        intros v' x' Hv'. eapply reify_fuel; [exact Hv' | lia]. }
    now rewrite Hm.
  - assert (Hel : forall h, exists ps ext,
               (fix parse_props (o : list (string * json)) : M (list (string * val)) :=
                  match o with
                  | [] => mret []
                  | kx :: o' =>
                      v ← JSON_parse (snd kx); ps ← parse_props o';
                      mret ((fst kx, v) :: ps)
                  end) o h = (Ok ps, h ++ ext)
               /\ forall ext',
                    Forall2 (fun kv kx =>
                               fst kv = fst kx
                               /\ reify (json_depth (snd kx)) (h ++ ext ++ ext') (snd kv)
                                  = Some (snd kx))
                      ps o).
    { clear h. induction IH as [| kx o Hx _ IHo]; intros h.
      - exists [], []. rewrite app_nil_r. split; [reflexivity | constructor].
      - destruct (Hx h) as (v & e1 & Hv & Hrv).
        destruct (IHo (h ++ e1)) as (ps & e2 & Hps & Hrps).
        exists ((fst kx, v) :: ps), (e1 ++ e2).
        rewrite (bind_Ok _ _ _ _ _ Hv), (bind_Ok _ _ _ _ _ Hps), <- app_assoc.
        split; [reflexivity |].
        intros ext'. constructor.
        + split; [reflexivity |]. simpl. rewrite <- app_assoc. apply Hrv.
        + specialize (Hrps ext'). rewrite <- !app_assoc in *. exact Hrps. }
    destruct (Hel h) as (ps & ext & Hps & Hr).
    exists (VRef (length (h ++ ext))), (ext ++ [CObj ps]).
    simpl JSON_parse. rewrite (bind_Ok _ _ _ _ _ Hps). unfold alloc.
    rewrite <- app_assoc. split; [reflexivity |].
    intros ext'. cbn [reify json_depth].
    replace (h ++ (ext ++ [CObj ps]) ++ ext') with ((h ++ ext) ++ CObj ps :: ext')
      by now rewrite <- !app_assoc.
    rewrite list_lookup_middle by reflexivity.
    assert (Hm : mapM (fun kv => (fun j => (fst kv, j))
                         <$> reify (foldr (fun kx d => Nat.max (json_depth (snd kx)) d) O o)
                               ((h ++ ext) ++ CObj ps :: ext') (snd kv)) ps = Some o).
    { apply mapM_Some. specialize (Hr (CObj ps :: ext')).
      rewrite app_assoc in Hr. revert Hr.
      generalize ((h ++ ext) ++ CObj ps :: ext'). clear. intros hp Hr.
      induction Hr as [| kv kx ps o [Hk Hv] _ IHr]; [constructor |].
      simpl. constructor.
      - erewrite reify_fuel; [| exact Hv | lia]. simpl. rewrite Hk. now destruct kx.
      - eapply Forall2_impl; [exact IHr |].
        intros kv' kx' Hv'. simpl in *.
        destruct (reify _ _ (snd kv')) as [jx |] eqn:Hx; [| discriminate].
        erewrite reify_fuel; [exact Hv' | exact Hx | lia]. }
    now rewrite Hm.
Qed.

Section Input.

Variable stringify : json -> bytes.
Variable extname : string -> string.
Variable fs : string -> option fsentry.

(** Whatever the conversion of a parsed document returns or throws, the
    cells of the store it starts from are as they were. *)
Lemma convert_parsed_frame gltfData h1 :
  take (length h1) (snd (convert_parsed stringify extname fs gltfData h1)) = h1.
Proof.
  destruct (keeps_convert_parsed h1 stringify extname fs gltfData h1 (extends_start h1))
    as [[Ht _] _].
  exact Ht.
Qed.

(** C9. The conversion does not mutate the parsed input: after
    [gltfData = JSON.parse(text)], whatever the rest of the method returns
    or throws, every cell the store had is as it was, and [gltfData]
    still reads as the tree of the text; all updates go to the copy. *)
Theorem input_not_mutated text h0 :
  exists gltfData h1,
    JSON_parse text h0 = (Ok gltfData, h1)
    /\ convertGLTFToGLB stringify extname fs text h0
       = convert_parsed stringify extname fs gltfData h1
    /\ reify (json_depth text) h1 gltfData = Some text
    /\ forall r h2,
         convert_parsed stringify extname fs gltfData h1 = (r, h2) ->
         take (length h1) h2 = h1
         /\ reify (json_depth text) h2 gltfData = Some text.
Proof.
  destruct (JSON_parse_reify text h0) as (gltfData & ext & Hparse & Hread).
  exists gltfData, (h0 ++ ext). split; [exact Hparse |].
  split; [unfold convertGLTFToGLB; now rewrite (bind_Ok _ _ _ _ _ Hparse) |].
  assert (Hread1 : reify (json_depth text) (h0 ++ ext) gltfData = Some text).
  { specialize (Hread []). now rewrite app_nil_r in Hread. }
  split; [exact Hread1 |].
  intros r h2 Hrun.
  pose proof (convert_parsed_frame gltfData (h0 ++ ext)) as Hframe.
  rewrite Hrun in Hframe. simpl in Hframe. split; [exact Hframe |].
  rewrite <- (take_drop (length (h0 ++ ext)) h2), Hframe.
  now apply reify_app.
Qed.

End Input.

End StoreFacts.


(** ** The chunks of the container, as a loader reads them *)

Lemma readUInt32LE_at pre v post n :
  n = length pre -> 0 <= v < 2 ^ 32 ->
  readUInt32LE (pre ++ le32 v ++ post) n = Some v.
Proof. intros ->. apply readUInt32LE_le32. Qed.

Lemma readUInt32LE_end buf : readUInt32LE buf (length buf) = None.
Proof. unfold readUInt32LE. now rewrite skipn_all. Qed.

Lemma pad4_length fill b : Z.to_nat (blen (pad4 fill b)) = length (pad4 fill b).
Proof. unfold blen. apply Nat2Z.id. Qed.

(** The length and the type of the first chunk, at offsets 12 and 16. *)
Lemma json_chunk_header total jsonText binary :
  blen (pad4 x20 jsonText) < 2 ^ 32 ->
  readUInt32LE (glb_container total jsonText binary) 12 = Some (blen (pad4 x20 jsonText))
  /\ readUInt32LE (glb_container total jsonText binary) 16 = Some 0x4E4F534A.
Proof.
  intros Hfit. pose proof (blen_nonneg (pad4 x20 jsonText)) as Hn.
  unfold glb_container, glb_chunk.
  set (tail := match binary with [] => [] | _ :: _ => _ end).
  split.
  - replace (le32 0x46546C67 ++ le32 2 ++ le32 total
               ++ (le32 (blen (pad4 x20 jsonText)) ++ le32 0x4E4F534A ++ pad4 x20 jsonText)
               ++ tail)
      with ((le32 0x46546C67 ++ le32 2 ++ le32 total)
              ++ le32 (blen (pad4 x20 jsonText))
              ++ (le32 0x4E4F534A ++ pad4 x20 jsonText ++ tail))
      by now rewrite <- !app_assoc.
    apply readUInt32LE_at; [reflexivity | lia].
  - replace (le32 0x46546C67 ++ le32 2 ++ le32 total
               ++ (le32 (blen (pad4 x20 jsonText)) ++ le32 0x4E4F534A ++ pad4 x20 jsonText)
               ++ tail)
      with ((le32 0x46546C67 ++ le32 2 ++ le32 total ++ le32 (blen (pad4 x20 jsonText)))
              ++ le32 0x4E4F534A ++ (pad4 x20 jsonText ++ tail))
      by now rewrite <- !app_assoc.
    apply readUInt32LE_at; [reflexivity | lia].
Qed.

(** The second chunk of a container: none when there is no binary data,
    and the padded binary data under the type [BIN] otherwise. *)
Lemma bin_chunk_container total jsonText binary :
  blen (pad4 x20 jsonText) < 2 ^ 32 ->
  blen (pad4 x00 binary) < 2 ^ 32 ->
  bin_chunk (glb_container total jsonText binary)
  = match binary with
    | [] => None
    | _ :: _ => Some (0x004E4942, pad4 x00 binary)
    end.
Proof.
  intros Hfit Hbl.
  pose proof (blen_nonneg (pad4 x20 jsonText)) as Hn.
  pose proof (blen_nonneg (pad4 x00 binary)) as Hnb.
  unfold bin_chunk.
  destruct (json_chunk_header total jsonText binary Hfit) as [-> _]. cbn zeta.
  set (first := le32 0x46546C67 ++ le32 2 ++ le32 total
                  ++ le32 (blen (pad4 x20 jsonText)) ++ le32 0x4E4F534A
                  ++ pad4 x20 jsonText).
  assert (Hfirst : length first = (20 + Z.to_nat (blen (pad4 x20 jsonText)))%nat).
  { unfold first. rewrite !length_app, pad4_length. reflexivity. }
  rewrite <- Hfirst.
  destruct binary as [| b binary].
  - replace (glb_container total jsonText []) with first
      by (unfold glb_container, glb_chunk, first; now rewrite <- !app_assoc, app_nil_r).
    now rewrite readUInt32LE_end.
  - set (bin := b :: binary) in *.
    replace (glb_container total jsonText bin)
      with (first ++ le32 (blen (pad4 x00 bin)) ++ le32 0x004E4942 ++ pad4 x00 bin)
      by (unfold glb_container, glb_chunk, first, bin; now rewrite <- !app_assoc).
    rewrite readUInt32LE_at by (reflexivity || lia).
    replace (first ++ le32 (blen (pad4 x00 bin)) ++ le32 0x004E4942 ++ pad4 x00 bin)
      with ((first ++ le32 (blen (pad4 x00 bin))) ++ le32 0x004E4942 ++ pad4 x00 bin)
      by now rewrite <- app_assoc.
    rewrite readUInt32LE_at; [| rewrite length_app; reflexivity | lia].
    f_equal. f_equal.
    replace ((first ++ le32 (blen (pad4 x00 bin))) ++ le32 0x004E4942 ++ pad4 x00 bin)
      with ((first ++ le32 (blen (pad4 x00 bin)) ++ le32 0x004E4942) ++ pad4 x00 bin)
      by now rewrite <- !app_assoc.
    replace (length first + 8)%nat
      with (length (first ++ le32 (blen (pad4 x00 bin)) ++ le32 0x004E4942))
      by (rewrite !length_app; simpl; lia).
    rewrite drop_app_length, pad4_length. apply firstn_all.
Qed.

(** A container ends with its last chunk. *)
Lemma after_chunks_container total jsonText binary :
  blen (pad4 x20 jsonText) < 2 ^ 32 ->
  blen (pad4 x00 binary) < 2 ^ 32 ->
  after_chunks (glb_container total jsonText binary) = Some [].
Proof.
  intros Hfit Hbl.
  pose proof (blen_nonneg (pad4 x20 jsonText)) as Hn.
  pose proof (blen_nonneg (pad4 x00 binary)) as Hnb.
  unfold after_chunks.
  destruct (json_chunk_header total jsonText binary Hfit) as [-> _]. cbn zeta.
  set (first := le32 0x46546C67 ++ le32 2 ++ le32 total
                  ++ le32 (blen (pad4 x20 jsonText)) ++ le32 0x4E4F534A
                  ++ pad4 x20 jsonText).
  assert (Hfirst : length first = (20 + Z.to_nat (blen (pad4 x20 jsonText)))%nat).
  { unfold first. rewrite !length_app, pad4_length. reflexivity. }
  rewrite <- Hfirst.
  destruct binary as [| b binary].
  - replace (glb_container total jsonText []) with first
      by (unfold glb_container, glb_chunk, first; now rewrite <- !app_assoc, app_nil_r).
    now rewrite readUInt32LE_end, skipn_all.
  - set (bin := b :: binary) in *.
    replace (glb_container total jsonText bin)
      with (first ++ le32 (blen (pad4 x00 bin)) ++ le32 0x004E4942 ++ pad4 x00 bin)
      by (unfold glb_container, glb_chunk, first, bin; now rewrite <- !app_assoc).
    rewrite readUInt32LE_at by (reflexivity || lia).
    f_equal. apply skipn_all2.
    rewrite !length_app, pad4_length. simpl. lia.
Qed.

Section Readback.

Variable stringify : json -> bytes.

(** The binary data of a container that was emitted fits its length
    field. *)
Lemma createGLB_binary_fits gltfData binaryBuffer out :
  createGLB stringify gltfData binaryBuffer = Ok out ->
  blen (pad4 x00 binaryBuffer) < 2 ^ 32.
Proof.
  intros H. apply createGLB_Ok in H as (_ & Hsize & Hlt).
  pose proof (blen_nonneg (pad4 x20 (stringify (JObj (cleanGltf gltfData))))) as Hn.
  unfold glb_size in Hsize. destruct binaryBuffer; [vm_compute; reflexivity | lia].
Qed.

(** X1. In the container [createGLB] returns, the first chunk is the JSON
    chunk: a loader reads at offset 12 a length that is a multiple of 4, at
    offset 16 the type [0x4E4F534A], and as the payload the serialized
    document followed by fewer than four spaces. *)
Theorem json_chunk_readback gltfData binaryBuffer out :
  createGLB stringify gltfData binaryBuffer = Ok out ->
  let text := stringify (JObj (cleanGltf gltfData)) in
  exists k,
    0 <= k < 4
    /\ (blen text + k) mod 4 = 0
    /\ readUInt32LE out 12 = Some (blen text + k)
    /\ readUInt32LE out 16 = Some 0x4E4F534A
    /\ json_chunk_payload out = Some (text ++ repeat x20 (Z.to_nat k)).
Proof.
  intros H text.
  pose proof (createGLB_json_fits _ _ _ _ H) as Hfit. fold text in Hfit.
  apply createGLB_Ok in H as (Hout & _ & _). fold text in Hout.
  exists (padding_of (blen text)).
  split; [apply padding_of_range |].
  split; [apply padding_of_aligned |].
  rewrite <- blen_pad4 with (fill := x20). rewrite Hout.
  destruct (json_chunk_header (blen out) text binaryBuffer Hfit) as [H12 H16].
  split; [exact H12 |]. split; [exact H16 |].
  now apply json_chunk_payload_container.
Qed.

(** X2. In the container [createGLB] returns, a loader finds after the
    JSON chunk a chunk of type [0x004E4942] whose payload is the binary
    buffer, filled with zero bytes up to a multiple of 4, and no byte after
    it; when the binary buffer is empty no second chunk can be read and the
    container ends after the JSON chunk. *)
Theorem bin_chunk_readback gltfData binaryBuffer out :
  createGLB stringify gltfData binaryBuffer = Ok out ->
  bin_chunk out
  = match binaryBuffer with
    | [] => None
    | _ :: _ => Some (0x004E4942, pad4 x00 binaryBuffer)
    end
  /\ after_chunks out = Some [].
Proof.
  intros H.
  pose proof (createGLB_json_fits _ _ _ _ H) as Hfit.
  pose proof (createGLB_binary_fits _ _ _ H) as Hbl.
  apply createGLB_Ok in H as (-> & _ & _).
  split; [now apply bin_chunk_container | now apply after_chunks_container].
Qed.

(** X3. [createGLB] returns a container of the size it computes, which is
    a multiple of 4 and below [2^32]; it throws when the size does not fit
    the 32-bit length field of the header, and then it is the range error of
    [writeUInt32LE]. *)
Theorem createGLB_outcome gltfData binaryBuffer :
  let size := glb_size (stringify (JObj (cleanGltf gltfData))) binaryBuffer in
  match createGLB stringify gltfData binaryBuffer with
  | Ok out => blen out = size /\ size < 2 ^ 32 /\ blen out mod 4 = 0
  | Throw e => e = RangeError /\ 2 ^ 32 <= size
  end.
Proof.
  intros size. rewrite createGLB_eq. fold size.
  destruct (size <? 2 ^ 32) eqn:Hlt.
  - apply Z.ltb_lt in Hlt. rewrite glb_container_length. fold size.
    split; [reflexivity |]. split; [exact Hlt |].
    unfold size, glb_size.
    pose proof (pad4_aligned x20 (stringify (JObj (cleanGltf gltfData)))) as Hj.
    pose proof (pad4_aligned x00 binaryBuffer) as Hb.
    destruct binaryBuffer; Z.to_euclidean_division_equations; lia.
  - apply Z.ltb_ge in Hlt. split; [reflexivity | exact Hlt].
Qed.

End Readback.

(** ** [getMimeType] and the case of the extension *)

Lemma lower_ascii_idem c : lower_ascii (lower_ascii c) = lower_ascii c.
Proof. destruct c as [[] [] [] [] [] [] [] []]; reflexivity. Qed.

Lemma toLowerCase_idem s : toLowerCase (toLowerCase s) = toLowerCase s.
Proof.
  induction s as [| c s IH]; simpl; [reflexivity | now rewrite lower_ascii_idem, IH].
Qed.

Lemma same_letter_lower a b : same_letter a b = true -> lower_ascii a = lower_ascii b.
Proof.
  unfold same_letter, lower_ascii.
  pose proof (ascii_N_embedding a) as Ea. pose proof (ascii_N_embedding b) as Eb.
  revert Ea Eb. generalize (N_of_ascii a) (N_of_ascii b). intros x y <- <- H.
  destruct (N.eqb_spec x y) as [-> | Hxy]; [reflexivity |].
  destruct (N.leb_spec 65 x), (N.leb_spec x 90), (N.leb_spec 65 y), (N.leb_spec y 90),
    (N.eqb_spec y (x + 32)), (N.eqb_spec x (y + 32));
    simpl in *; try discriminate; subst; try reflexivity; try lia.
Qed.

Lemma equal_ignoring_case_lower s1 : forall s2,
  equal_ignoring_case s1 s2 = true -> toLowerCase s1 = toLowerCase s2.
Proof.
  induction s1 as [| a s1 IH]; intros [| b s2] H; simpl in *; try discriminate;
    [reflexivity |].
  apply andb_prop in H as [Hab H]. now rewrite (same_letter_lower a b Hab), (IH s2 H).
Qed.

(** X4. [getMimeType] does not depend on the case of the letters of the
    extension: two extensions that differ in the case of their letters at
    most get the same type. For what [path.extname] returns, the empty
    string or a dot and what follows it, the type is a string: one of the
    five image types of the table, or [application/octet-stream]. *)
Theorem getMimeType_case_insensitive extension :
  (forall other, equal_ignoring_case other extension = true ->
                 getMimeType other = getMimeType extension)
  /\ getMimeType (toLowerCase extension) = getMimeType extension
  /\ (is_extension extension ->
      exists m, getMimeType extension = JStr m /\ In m mime_strings).
Proof.
  split; [| split].
  - intros other Hl. unfold getMimeType.
    now rewrite (equal_ignoring_case_lower other extension Hl).
  - unfold getMimeType. now rewrite toLowerCase_idem.
  - intros _. rewrite getMimeType_table. eexists. split; [reflexivity |].
    unfold mime_table, mime_strings.
    repeat match goal with
           | |- context [String.eqb ?a ?b] => destruct (String.eqb a b)
           end; simpl; auto 10.
Qed.

(** ** More on the region and on the document after the collection *)

Lemma run_total_ge files : forall t, t <= run_total t files.
Proof.
  induction files as [| d files IH]; intros t; simpl; [lia |].
  pose proof (IH (t + blen d + padding_of (t + blen d))).
  pose proof (padding_of_range (t + blen d)). pose proof (blen_nonneg d). lia.
Qed.

(** The views pushed for the images: where they start and where they
    end. *)
Lemma image_views_bounds files : forall t k view,
  t mod 4 = 0 ->
  image_views t files !! k = Some view ->
  exists off len,
    view = JObj [("buffer"%string, JNum 0); ("byteOffset"%string, JNum off);
                 ("byteLength"%string, JNum len)]
    /\ t <= off /\ off mod 4 = 0 /\ 0 <= len /\ off + len <= run_total t files.
Proof.
  induction files as [| d files IH]; intros t k view Ht Hk; [destruct k; discriminate |].
  pose proof (padding_of_range (t + blen d)) as Hp.
  pose proof (blen_nonneg d) as Hd.
  pose proof (run_total_ge files (t + blen d + padding_of (t + blen d))) as Hge.
  destruct k as [| k]; simpl in Hk.
  - injection Hk as <-. exists t, (blen d). simpl. repeat split; auto; lia.
  - apply IH in Hk as (off & len & -> & Hle & Hal & Hlen & Hend);
      [| apply padding_of_aligned].
    exists off, len. simpl. repeat split; auto; lia.
Qed.

Lemma Buffer_concat_pad_chunks t :
  Buffer_concat (pad_chunks t) = repeat x00 (Z.to_nat (padding_of t)).
Proof.
  unfold pad_chunks. destruct (0 <? padding_of t) eqn:Hp.
  - simpl. now rewrite app_nil_r.
  - apply Z.ltb_ge in Hp. pose proof (padding_of_range t).
    replace (padding_of t) with 0 by lia. reflexivity.
Qed.

(** The bytes of the chunks pushed for a list of files. *)
Lemma Buffer_concat_file_chunks files : forall t,
  t mod 4 = 0 -> Buffer_concat (file_chunks t files) = padded_files files.
Proof.
  induction files as [| d files IH]; intros t Ht; [reflexivity |].
  simpl file_chunks. change (Data d :: ?l) with ([Data d] ++ l).
  rewrite !Buffer_concat_app, Buffer_concat_pad_chunks, IH by apply padding_of_aligned.
  rewrite padding_of_add by exact Ht.
  unfold padded_files. cbn [flat_map Buffer_concat chunk_bytes].
  rewrite app_nil_r. unfold pad4. now rewrite <- app_assoc.
Qed.

Lemma external_files_none fs l :
  Forall (fun entry => embedded_file fs entry = None) l -> external_files fs l = [].
Proof. induction 1 as [| e l He _ IH]; simpl; [reflexivity | now rewrite He]. Qed.

(** A view that the body of the loop over the views has nothing to do with:
    it is no object, or its [buffer] is not the index of the buffer under
    way. *)
Lemma patch_view_miss i t view view' :
  (forall v, view = JObj v -> get "buffer" v <> Some (JNum i)) ->
  patch_view i t view = Ok view' -> view' = view.
Proof.
  intros Hmiss H. destruct view as [| | | | | v |]; simpl in H; try congruence.
  specialize (Hmiss v eq_refl).
  destruct (get "buffer" v) as [[| | b | | | |] |]; try congruence.
  destruct (b =? i) eqn:Hb; [| congruence].
  apply Z.eqb_eq in Hb. congruence.
Qed.

Section Further.

Variable extname : string -> string.
Variable fs : string -> option fsentry.

Lemma buffers_loop_view_kept l : forall i st l' st' k view,
  buffers_loop fs i l st = Ok (l', st') ->
  views_of (modifiedGltf st) !! k = Some view ->
  (forall n buffer v,
      l !! n = Some buffer -> view = JObj v ->
      get "buffer" v = Some (JNum (i + Z.of_nat n)) ->
      embedded_file fs buffer = None) ->
  views_of (modifiedGltf st') !! k = Some view.
Proof.
  induction l as [| buffer l IH]; intros i st l' st' k view H Hk Hno; simpl in H.
  - now injection H as <- <-.
  - destruct (process_buffer fs i buffer st) as [[b1 st1] | e] eqn:Hstep;
      cbn [mbind result_bind] in H; [| discriminate].
    destruct (buffers_loop fs (i + 1) l st1) as [[l1 st2] | e] eqn:Hloop;
      cbn [mbind result_bind] in H; [| discriminate].
    injection H as <- <-.
    apply process_buffer_inv in Hstep.
    eapply (IH _ _ _ _ k view Hloop).
    + destruct (embedded_file fs buffer) as [d |] eqn:He.
      * destruct Hstep as (o & uri & gltf & _ & _ & Hp & _ & ->). simpl.
        destruct (patch_views_lookup _ _ _ _ _ _ Hp Hk) as (bv' & Hk' & Hpv).
        apply patch_view_miss in Hpv as ->; [exact Hk' |].
        intros v -> Hb.
        specialize (Hno 0%nat buffer v eq_refl eq_refl).
        rewrite Z.add_0_r in Hno. specialize (Hno Hb). congruence.
      * now destruct Hstep as [_ ->].
    + intros n buffer' v Hn Hv Hb. apply (Hno (S n) buffer' v Hn Hv).
      rewrite Hb. do 2 f_equal. lia.
Qed.

Lemma process_buffer_readable i buffer st r :
  process_buffer fs i buffer st = Ok r -> readable_entry fs buffer.
Proof.
  unfold process_buffer, readable_entry.
  destruct (external_uri buffer) as [[[o uri] |] | e]; cbn [mbind result_bind];
    [| trivial | discriminate].
  destruct (fs uri) as [[d |] |]; congruence.
Qed.

Lemma process_image_readable image st r :
  process_image extname fs image st = Ok r -> readable_entry fs image.
Proof.
  unfold process_image, readable_entry.
  destruct (external_uri image) as [[[o uri] |] | e]; cbn [mbind result_bind];
    [| trivial | discriminate].
  destruct (fs uri) as [[d |] |]; congruence.
Qed.

Lemma buffers_loop_readable l : forall i st r,
  buffers_loop fs i l st = Ok r -> Forall (readable_entry fs) l.
Proof.
  induction l as [| buffer l IH]; intros i st r H; [constructor |]. simpl in H.
  destruct (process_buffer fs i buffer st) as [[b1 st1] | e] eqn:Hstep;
    cbn [mbind result_bind] in H; [| discriminate].
  destruct (buffers_loop fs (i + 1) l st1) as [[l1 st2] | e] eqn:Hloop;
    cbn [mbind result_bind] in H; [| discriminate].
  constructor; [eapply process_buffer_readable | eapply IH]; eassumption.
Qed.

Lemma images_loop_readable l : forall st r,
  images_loop extname fs l st = Ok r -> Forall (readable_entry fs) l.
Proof.
  induction l as [| image l IH]; intros st r H; [constructor |]. simpl in H.
  destruct (process_image extname fs image st) as [[b1 st1] | e] eqn:Hstep;
    cbn [mbind result_bind] in H; [| discriminate].
  destruct (images_loop extname fs l st1) as [[l1 st2] | e] eqn:Hloop;
    cbn [mbind result_bind] in H; [| discriminate].
  constructor; [eapply process_image_readable | eapply IH]; eassumption.
Qed.

(** What the loop over the images returns for an image brings no file:
    the image has lost its [uri], or it had no file to bring. *)
Lemma images_loop_embedded l : forall st l' st',
  images_loop extname fs l st = Ok (l', st') ->
  Forall (fun image => embedded_file fs image = None) l'.
Proof.
  intros st l' st' H. apply Forall_lookup_2. intros n image' Hn.
  pose proof (images_loop_chunks _ _ _ _ _ _ H) as (_ & _ & Hlen).
  destruct (l !! n) as [image |] eqn:Hl.
  - pose proof (images_loop_lookup _ _ _ _ _ _ n image H Hl) as Hi.
    destruct (embedded_file fs image) as [d |] eqn:He.
    + destruct Hi as (o & uri & _ & _ & Hi). rewrite Hi in Hn. injection Hn as <-.
      unfold embedded_file. simpl.
      rewrite get_set_ne, get_set_ne, get_delete_eq by discriminate. reflexivity.
    + congruence.
  - apply lookup_ge_None in Hl. apply lookup_lt_Some in Hn. lia.
Qed.

(** The views after the collection: as many as the input has, followed by
    those of the image files. *)
Lemma collect_views_split gltfData st :
  collect extname fs gltfData = Ok st ->
  exists kept,
    length kept = length (views_of gltfData)
    /\ views_of (modifiedGltf st)
       = kept ++ image_views (padded_sum (external_files fs (entries "buffers" gltfData)))
                   (external_files fs (entries "images" gltfData)).
Proof.
  intros H.
  destruct (collect_views _ _ _ _ H) as (bl' & stB & HB & Hv).
  exists (views_of (modifiedGltf stB)).
  split; [apply (buffers_loop_views_length _ _ _ _ _ _ HB) |].
  apply buffers_loop_chunks in HB as (_ & Ht & _). simpl in Ht.
  rewrite run_total_padded_sum, Z.add_0_l in Ht by reflexivity.
  now rewrite Hv, Ht.
Qed.

(** X5. The collection touches three members of the document and no other:
    every member but [buffers], [bufferViews] and [images] has after it the
    value it has in the input, and every such member but [asset] has this
    value in the document that is serialized. *)
Theorem other_members_unchanged gltfData st k :
  collect extname fs gltfData = Ok st ->
  k <> "buffers"%string -> k <> "bufferViews"%string -> k <> "images"%string ->
  get k (modifiedGltf st) = get k gltfData
  /\ (k <> "asset"%string -> get k (cleanGltf (modifiedGltf st)) = get k gltfData).
Proof.
  intros H Hb Hv Hi.
  pose proof (collect_get _ _ _ _ k H Hb Hv Hi) as Hk.
  split; [exact Hk |]. intros Ha. now rewrite get_cleanGltf.
Qed.

(** X6. The collection removes no view and inserts none between the views
    of the input: the list of views grows by one view for every image file
    that is embedded, and the new views come last, in the order of the
    images, the first at the end of the bytes of the buffers. *)
Theorem views_only_appended gltfData st :
  collect extname fs gltfData = Ok st ->
  let old := length (views_of gltfData) in
  let files := external_files fs (entries "images" gltfData) in
  length (views_of (modifiedGltf st)) = (old + length files)%nat
  /\ drop old (views_of (modifiedGltf st))
     = image_views (padded_sum (external_files fs (entries "buffers" gltfData))) files.
Proof.
  intros H old files.
  destruct (collect_views_split _ _ H) as (kept & Hlen & Hv). fold files in Hv.
  rewrite Hv, length_app, image_views_length, Hlen. split; [reflexivity |].
  unfold old. rewrite <- Hlen. apply drop_app_length.
Qed.

(** X7. Every view the collection adds for an image is a view of buffer 0
    that starts at a multiple of 4 and lies inside the consolidated region:
    its offset plus its length does not exceed the length of the region. *)
Theorem image_views_in_region gltfData st k view :
  collect extname fs gltfData = Ok st ->
  (length (views_of gltfData) <= k)%nat ->
  views_of (modifiedGltf st) !! k = Some view ->
  exists off len,
    view = JObj [("buffer"%string, JNum 0); ("byteOffset"%string, JNum off);
                 ("byteLength"%string, JNum len)]
    /\ 0 <= off /\ off mod 4 = 0 /\ 0 <= len
    /\ off + len <= blen (Buffer_concat (binaryChunks st)).
Proof.
  intros H Hk Hv.
  destruct (collect_views_split _ _ H) as (kept & Hlen & Hs).
  pose proof (collect_region_length _ _ _ _ H) as (Hsum & _ & _).
  rewrite padded_sum_app in Hsum.
  set (t := padded_sum (external_files fs (entries "buffers" gltfData))) in *.
  set (files := external_files fs (entries "images" gltfData)) in *.
  assert (Ht : t mod 4 = 0).
  { unfold t. rewrite <- (Z.add_0_l (padded_sum _)).
    rewrite <- run_total_padded_sum by reflexivity. now apply run_total_aligned. }
  rewrite Hs, lookup_app_r in Hv by lia.
  apply image_views_bounds in Hv as (off & len & -> & Hle & Hal & Hl & Hend); [| exact Ht].
  rewrite run_total_padded_sum in Hend by exact Ht.
  pose proof (padded_sum_nonneg (external_files fs (entries "buffers" gltfData))).
  exists off, len. repeat split; auto; lia.
Qed.

(** X8. The collection keeps the number and the order of the images, and
    an image that brings no file (it has no [uri], a [data:] URI, or a
    [uri] that names no file) is after it what it is in the input. *)
Theorem images_in_place gltfData st :
  collect extname fs gltfData = Ok st ->
  length (entries "images" (modifiedGltf st)) = length (entries "images" gltfData)
  /\ forall n image,
       entries "images" gltfData !! n = Some image ->
       embedded_file fs image = None ->
       entries "images" (modifiedGltf st) !! n = Some image.
Proof.
  intros H.
  destruct (collect_images _ _ _ _ H) as (bl' & stB & il' & stI & _ & HI & ->).
  split.
  - now apply images_loop_chunks in HI as (_ & _ & Hlen).
  - intros n image Hn He.
    pose proof (images_loop_lookup _ _ _ _ _ _ n image HI Hn) as Hl.
    now rewrite He in Hl.
Qed.

(** X9. A view of the input is after the collection what it is in the
    input, at the same index, unless it is an object whose [buffer] is the
    index of a buffer that brings a file: views of buffers with a [data:]
    URI, views whose [buffer] is no index of the list of buffers, views
    without [buffer] and views that are no objects are left alone. *)
Theorem unrelated_views_unchanged gltfData st k view :
  collect extname fs gltfData = Ok st ->
  views_of gltfData !! k = Some view ->
  (forall n buffer v,
      entries "buffers" gltfData !! n = Some buffer ->
      view = JObj v -> get "buffer" v = Some (JNum (Z.of_nat n)) ->
      embedded_file fs buffer = None) ->
  views_of (modifiedGltf st) !! k = Some view.
Proof.
  intros H Hk Hno.
  destruct (collect_views _ _ _ _ H) as (bl' & stB & HB & Hv).
  rewrite Hv. apply lookup_app_l_Some.
  eapply buffers_loop_view_kept; [exact HB | exact Hk |].
  intros n buffer v Hn Hview Hb. rewrite Z.add_0_l in Hb. eauto.
Qed.

(** X10. The collection throws when a buffer or an image of the document
    cannot be passed: the entry is [null], its [uri] is a truthy value that
    is no string, or its [uri] names a path that exists and cannot be read
    as a file. *)
Theorem unreadable_resource_fails gltfData entry :
  In entry (entries "buffers" gltfData ++ entries "images" gltfData) ->
  ~ readable_entry fs entry ->
  exists e, collect extname fs gltfData = Throw e.
Proof.
  intros Hin Hbad.
  destruct (collect extname fs gltfData) as [st | e] eqn:H; [| now exists e].
  exfalso. apply Hbad.
  destruct (collect_images _ _ _ _ H) as (bl' & stB & il' & stI & HB & HI & _).
  apply buffers_loop_readable in HB. apply images_loop_readable in HI.
  apply in_app_or in Hin as [Hin | Hin].
  - rewrite List.Forall_forall in HB. now apply HB.
  - rewrite List.Forall_forall in HI. now apply HI.
Qed.

(** X11. The consolidated region holds the bytes of the files and nothing
    else but zero bytes: it is the files of the buffers, then those of the
    images, in the order of the document, each followed by the zero bytes
    that fill it up to a multiple of 4. *)
Theorem region_contents gltfData st :
  collect extname fs gltfData = Ok st ->
  Buffer_concat (binaryChunks st)
  = padded_files (external_files fs (entries "buffers" gltfData)
                  ++ external_files fs (entries "images" gltfData)).
Proof.
  intros H. apply collect_chunks in H as [-> _].
  now apply Buffer_concat_file_chunks.
Qed.

(** X12. After the collection no buffer and no image of the document
    names a file that can be read: every entry whose file was embedded has
    lost its [uri]. *)
Theorem output_names_no_file gltfData st :
  collect extname fs gltfData = Ok st ->
  external_files fs (entries "buffers" (modifiedGltf st)) = []
  /\ external_files fs (entries "images" (modifiedGltf st)) = [].
Proof.
  intros H. split.
  - pose proof (collect_buffers _ _ _ _ H) as Hb.
    unfold entries at 1. rewrite Hb.
    destruct (entries "buffers" gltfData) as [| b bl] eqn:Hbl; [| reflexivity].
    fold (entries "buffers" gltfData). now rewrite Hbl.
  - destruct (collect_images _ _ _ _ H) as (bl' & stB & il' & stI & _ & HI & ->).
    apply external_files_none. eapply images_loop_embedded. exact HI.
Qed.


End Further.

(** ** The converted file *)

Section Converted.

Variable stringify : json -> bytes.
Variable extname : string -> string.
Variable fs : string -> option fsentry.

(** X13. A document the collection accepts is converted unless the
    container is too large: the collection returns, and the method returns
    the bytes of a container exactly when the size of the container is
    below [2^32]. *)
Theorem well_formed_converts gltfData :
  well_formed fs gltfData ->
  exists st,
    collect extname fs gltfData = Ok st
    /\ ((exists out, convertGLTFToGLB stringify extname fs gltfData = Ok out)
        <-> glb_size (stringify (JObj (cleanGltf (modifiedGltf st))))
              (Buffer_concat (binaryChunks st)) < 2 ^ 32).
Proof.
  intros Hwf. destruct (collect_succeeds extname fs gltfData Hwf) as [st Hc].
  exists st. split; [exact Hc |].
  unfold convertGLTFToGLB. rewrite Hc. cbn [mbind result_bind].
  rewrite createGLB_eq.
  destruct (glb_size _ _ <? 2 ^ 32) eqn:Hlt.
  - apply Z.ltb_lt in Hlt. split; [intros _; exact Hlt | intros _; eauto].
  - apply Z.ltb_ge in Hlt. split; [intros [out Hout]; discriminate | lia].
Qed.

(** X14. The second chunk of a converted file holds the files and their
    padding, as they are: the files of the buffers, then those of the
    images, each filled with zero bytes up to a multiple of 4, and no byte
    more; a converted file without such bytes has no second chunk. *)
Theorem converted_bin_payload gltfData out :
  convertGLTFToGLB stringify extname fs gltfData = Ok out ->
  let region := padded_files (external_files fs (entries "buffers" gltfData)
                              ++ external_files fs (entries "images" gltfData)) in
  bin_chunk out
  = match region with
    | [] => None
    | _ :: _ => Some (0x004E4942, region)
    end.
Proof.
  intros H region.
  apply convertGLTFToGLB_inv in H as (st & Hc & Hcreate & ->).
  pose proof (createGLB_json_fits _ _ _ _ Hcreate) as Hfit.
  pose proof (createGLB_binary_fits _ _ _ _ Hcreate) as Hbl.
  pose proof (collect_region_length _ _ _ _ Hc) as (_ & Hlen & Hal).
  assert (Hpad : pad4 x00 (Buffer_concat (binaryChunks st))
                 = Buffer_concat (binaryChunks st)).
  { unfold pad4. rewrite <- Hlen, padding_of_0 by exact Hal. apply app_nil_r. }
  assert (Hregion : Buffer_concat (binaryChunks st) = region).
  { apply collect_chunks in Hc as [-> _]. now apply Buffer_concat_file_chunks. }
  rewrite bin_chunk_container by assumption.
  rewrite Hpad, Hregion. reflexivity.
Qed.

End Converted.

(** ** [convertAll] *)

Lemma length_append s1 s2 :
  String.length (s1 ++ s2) = (String.length s1 + String.length s2)%nat.
Proof. induction s1 as [| c s1 IH]; simpl; [reflexivity | now rewrite IH]. Qed.

Lemma substring_whole s : substring 0 (String.length s) s = s.
Proof. induction s as [| c s IH]; simpl; [reflexivity | now rewrite IH]. Qed.

Lemma substring_append prefix s :
  substring (String.length prefix) (String.length s) (prefix ++ s) = s.
Proof. induction prefix as [| c prefix IH]; simpl; [apply substring_whole | exact IH]. Qed.

Lemma substring_split s : forall k,
  (k <= String.length s)%nat ->
  s = (substring 0 k s ++ substring k (String.length s - k) s)%string.
Proof.
  induction s as [| c s IH]; intros k Hk.
  - destruct k; reflexivity.
  - destruct k as [| k]; simpl.
    + now rewrite substring_whole.
    + simpl in Hk. now rewrite <- IH by lia.
Qed.

(** [endsWith] holds of the strings that are a prefix followed by the
    string searched for. *)
Lemma endsWith_spec searchString s :
  endsWith searchString s = true <-> exists prefix, s = (prefix ++ searchString)%string.
Proof.
  unfold endsWith. split.
  - intros H. apply andb_prop in H as [Hle Heq].
    apply Nat.leb_le in Hle. apply String.eqb_eq in Heq.
    exists (substring 0 (String.length s - String.length searchString) s).
    pose proof (substring_split s (String.length s - String.length searchString)
                  ltac:(lia)) as Hs.
    replace (String.length s - (String.length s - String.length searchString))%nat
      with (String.length searchString) in Hs by lia.
    now rewrite Heq in Hs.
  - intros [prefix ->]. rewrite length_append.
    replace (String.length prefix + String.length searchString - String.length searchString)%nat
      with (String.length prefix) by lia.
    rewrite substring_append, String.eqb_refl, andb_true_r.
    apply Nat.leb_le. lia.
Qed.

Section BatchFacts.

Variable stringify : json -> bytes.
Variable extname : string -> string.
Variable world : Type.
Variable readdir : world -> list string.
Variable read_gltf : world -> string -> option json.
Variable resources : world -> string -> option fsentry.
Variable basename : string -> string.
Variable writeFileSync : string -> bytes -> world -> world * bool.
Variable beyond : string -> json -> world -> world * option failure.

Local Abbreviation run_each :=
  (convert_each stringify extname world read_gltf resources basename writeFileSync
     beyond).
Local Abbreviation run_all :=
  (convertAll stringify extname world readdir read_gltf resources basename writeFileSync
     beyond).

(** The loop prints one line for every file, in the order of the list. *)
Lemma convert_each_files gltfFiles : forall w,
  omap event_file (snd (run_each gltfFiles w)) = gltfFiles.
Proof.
  induction gltfFiles as [| gltfFile rest IH]; intros w; simpl; [reflexivity |].
  destruct (convert_file _ _ _ _ _ _ _ _ gltfFile w) as [w1 thrown].
  specialize (IH w1). destruct (run_each rest w1) as [w2 lines]. simpl in *.
  destruct thrown; simpl; f_equal; exact IH.
Qed.

(** A loop over files that do not parse, or on which the conversion throws
    an exception of the embedding, calls [writeFileSync] for none of
    them. *)
Lemma convert_each_failing gltfFiles : forall w,
  (forall name gltfData,
      In name gltfFiles -> read_gltf w name = Some gltfData ->
      exists e, convert_value stringify extname (resources w) gltfData = Throw e
                /\ e <> Unmodelled) ->
  fst (run_each gltfFiles w) = w
  /\ Forall (fun line => exists name why, line = Failed name why /\ why <> NotWritten)
       (snd (run_each gltfFiles w)).
Proof.
  induction gltfFiles as [| gltfFile rest IH]; intros w Hfail; simpl;
    [split; [reflexivity | constructor] |].
  assert (Hstep : exists why, convert_file stringify extname world read_gltf resources
                                basename writeFileSync beyond gltfFile w = (w, Some why)
                              /\ why <> NotWritten).
  { unfold convert_file. destruct (read_gltf w gltfFile) as [gltfData |] eqn:Hr.
    - destruct (Hfail gltfFile gltfData (or_introl eq_refl) Hr) as (e & -> & He).
      exists (NotConverted e). now destruct e.
    - now exists NotParsed. }
  destruct Hstep as (why & -> & Hwhy).
  destruct (IH w) as [Hw Hlines]; [intros name gltfData Hin; apply Hfail; now right |].
  destruct (run_each rest w) as [w2 lines]. simpl in *.
  split; [exact Hw |]. constructor; [now exists gltfFile, why | exact Hlines].
Qed.

(** X15. [convertAll] works on the names of the input folder that end in
    [.gltf], in lower case, and on no other: when there is none it prints
    that it found no file and leaves the file system as it is; otherwise
    it prints their number and then one line for each of them, converted or
    failed, in the order of the folder. The failure of a file does not end
    the loop. *)
Theorem convertAll_reports_each_file w :
  let gltfFiles := List.filter (endsWith ".gltf") (readdir w) in
  omap event_file (snd (run_all w)) = gltfFiles
  /\ (forall name, In name gltfFiles <->
                   In name (readdir w) /\ exists stem, name = (stem ++ ".gltf")%string)
  /\ match gltfFiles with
     | [] => run_all w = (w, [NoFiles])
     | _ :: _ => head (snd (run_all w)) = Some (Found (length gltfFiles))
     end.
Proof.
  intros gltfFiles. split; [| split].
  - unfold convertAll. fold gltfFiles.
    pose proof (convert_each_files gltfFiles w) as Hf.
    destruct gltfFiles as [| f l] eqn:Hl; [reflexivity |].
    destruct (run_each (f :: l) w) as [w' lines]. exact Hf.
  - intros name. unfold gltfFiles. rewrite List.filter_In, endsWith_spec. reflexivity.
  - unfold convertAll. fold gltfFiles.
    destruct gltfFiles as [| f l]; [reflexivity |].
    now destruct (run_each (f :: l) w) as [w' lines].
Qed.

(** X16. When every [.gltf] file of the input folder fails to parse, or
    its conversion throws one of the exceptions of the embedding (a
    [TypeError], a [RangeError], or the error of a file that cannot be
    read), [convertAll] writes no file: the file system after it is the one
    before it, and no line reports a conversion. Nothing is said of a
    document on which the embedding stops. *)
Theorem failed_batch_writes_nothing w :
  (forall name gltfData,
      In name (readdir w) -> endsWith ".gltf" name = true ->
      read_gltf w name = Some gltfData ->
      exists e, convert_value stringify extname (resources w) gltfData = Throw e
                /\ e <> Unmodelled) ->
  fst (run_all w) = w
  /\ Forall (fun line => forall name, line <> Converted name) (snd (run_all w)).
Proof.
  intros Hfail. unfold convertAll.
  set (gltfFiles := List.filter (endsWith ".gltf") (readdir w)).
  destruct (convert_each_failing gltfFiles w) as [Hw Hlines].
  { intros name gltfData Hin. apply List.filter_In in Hin as [Hin Hends]. now apply Hfail. }
  assert (Hno : Forall (fun line => forall name, line <> Converted name)
                  (snd (run_each gltfFiles w))).
  { eapply Forall_impl; [exact Hlines |]. intros line (n & why & -> & _) name. discriminate. }
  destruct gltfFiles as [| f l]; [split; [reflexivity | repeat constructor; discriminate] |].
  destruct (run_each (f :: l) w) as [w' lines]. simpl in *.
  split; [exact Hw |]. constructor; [discriminate | exact Hno].
Qed.

End BatchFacts.

(** ** The copies, over the store *)

(** [JSON.parse] allocates at least as many cells as the tree is deep. *)
Lemma JSON_parse_cells j : forall h,
  exists v ext,
    Store.JSON_parse j h = (Ok v, h ++ ext) /\ (json_depth j <= length ext)%nat.
Proof.
  induction j as [| b | n | s | x | l IH | o IH] using json_ind'; intros h;
    try (eexists _, []; rewrite app_nil_r; split; [reflexivity | simpl; lia]).
  - assert (Hel : forall h, exists vs ext,
               (fix parse_elems (l : list json) : Store.M (list Store.val) :=
                  match l with
                  | [] => mret []
                  | x :: l' =>
                      v ← Store.JSON_parse x; vs ← parse_elems l'; mret (v :: vs)
                  end) l h = (Ok vs, h ++ ext)
               /\ (foldr (fun x d => Nat.max (json_depth x) d) O l <= length ext)%nat).
    { clear h. induction IH as [| x l Hx _ IHl]; intros h.
      - exists [], []. rewrite app_nil_r. split; [reflexivity | simpl; lia].
      - destruct (Hx h) as (v & e1 & Hv & Hd).
        destruct (IHl (h ++ e1)) as (vs & e2 & Hvs & Hds).
        exists (v :: vs), (e1 ++ e2).
        rewrite (StoreFacts.bind_Ok _ _ _ _ _ Hv), (StoreFacts.bind_Ok _ _ _ _ _ Hvs),
          <- app_assoc.
        split; [reflexivity |]. rewrite length_app. simpl. lia. }
    destruct (Hel h) as (vs & ext & Hvs & Hd).
    exists (Store.VRef (length (h ++ ext))), (ext ++ [Store.CArr vs]).
    simpl Store.JSON_parse. rewrite (StoreFacts.bind_Ok _ _ _ _ _ Hvs). unfold Store.alloc.
    rewrite <- app_assoc. split; [reflexivity |].
    rewrite length_app. simpl. lia.
  - assert (Hel : forall h, exists ps ext,
               (fix parse_props (o : list (string * json))
                  : Store.M (list (string * Store.val)) :=
                  match o with
                  | [] => mret []
                  | kx :: o' =>
                      v ← Store.JSON_parse (snd kx); ps ← parse_props o';
                      mret ((fst kx, v) :: ps)
                  end) o h = (Ok ps, h ++ ext)
               /\ (foldr (fun kx d => Nat.max (json_depth (snd kx)) d) O o
                   <= length ext)%nat).
    { clear h. induction IH as [| kx o Hx _ IHo]; intros h.
      - exists [], []. rewrite app_nil_r. split; [reflexivity | simpl; lia].
      - destruct (Hx h) as (v & e1 & Hv & Hd).
        destruct (IHo (h ++ e1)) as (ps & e2 & Hps & Hds).
        exists ((fst kx, v) :: ps), (e1 ++ e2).
        rewrite (StoreFacts.bind_Ok _ _ _ _ _ Hv), (StoreFacts.bind_Ok _ _ _ _ _ Hps),
          <- app_assoc.
        split; [reflexivity |]. rewrite length_app. simpl. lia. }
    destruct (Hel h) as (ps & ext & Hps & Hd).
    exists (Store.VRef (length (h ++ ext))), (ext ++ [Store.CObj ps]).
    simpl Store.JSON_parse. rewrite (StoreFacts.bind_Ok _ _ _ _ _ Hps). unfold Store.alloc.
    rewrite <- app_assoc. split; [reflexivity |].
    rewrite length_app. simpl. lia.
Qed.

(** X17. The copy the method works on, [JSON.parse(JSON.stringify(gltfData))]
    of the parsed text, is made without an exception, reads as the tree of
    the text, as the input still does, and shares no object and no array
    with what the store held before. *)
Theorem deep_copy_reads_same text h0 :
  exists gltfData h1 modifiedGltf h2,
    Store.JSON_parse text h0 = (Ok gltfData, h1)
    /\ Store.JSON_copy gltfData h1 = (Ok modifiedGltf, h2)
    /\ Store.reify (json_depth text) h2 modifiedGltf = Some text
    /\ Store.reify (json_depth text) h2 gltfData = Some text
    /\ Store.extends h1 h2
    /\ Store.fresh_val h1 modifiedGltf.
Proof.
  destruct (StoreFacts.JSON_parse_reify text h0) as (gltfData & ext & Hparse & Hread).
  destruct (JSON_parse_cells text h0) as (v' & ext' & Hparse' & Hdepth).
  rewrite Hparse in Hparse'. injection Hparse' as <- Hext.
  apply app_inv_head in Hext as <-.
  set (h1 := h0 ++ ext) in *.
  assert (Hread1 : Store.reify (json_depth text) h1 gltfData = Some text).
  { specialize (Hread []). now rewrite app_nil_r in Hread. }
  assert (Htree : Store.tree_of gltfData h1 = (Ok text, h1)).
  { unfold Store.tree_of. erewrite StoreFacts.reify_fuel; [reflexivity | exact Hread1 |].
    unfold h1. rewrite length_app. lia. }
  destruct (StoreFacts.JSON_parse_reify text h1) as (copy & ext2 & Hcopy & Hread2).
  exists gltfData, h1, copy, (h1 ++ ext2).
  assert (Hrun : Store.JSON_copy gltfData h1 = (Ok copy, h1 ++ ext2)).
  { unfold Store.JSON_copy. now rewrite (StoreFacts.bind_Ok _ _ _ _ _ Htree). }
  split; [exact Hparse |]. split; [exact Hrun |].
  split; [specialize (Hread2 []); now rewrite app_nil_r in Hread2 |].
  split; [now apply StoreFacts.reify_app |].
  pose proof (StoreFacts.keeps_JSON_copy h1 gltfData h1 (StoreFacts.extends_start h1))
    as [Hext Hfresh].
  rewrite Hrun in Hext, Hfresh. split; [exact Hext | exact Hfresh].
Qed.

Section StoreFraming.

Variable stringify : json -> bytes.

(** X18. [createGLB] does not change the document it is given: whatever it
    returns or throws, every object and every array of the store is as it
    was, and every value reads as before. The [asset] it adds goes to its
    own copy. *)
Theorem createGLB_argument_untouched gltfData binaryBuffer h :
  let h' := snd (Store.createGLB stringify gltfData binaryBuffer h) in
  take (length h) h' = h
  /\ forall fuel v j, Store.reify fuel h v = Some j -> Store.reify fuel h' v = Some j.
Proof.
  intros h'.
  destruct (StoreFacts.keeps_createGLB h stringify gltfData binaryBuffer h
              (StoreFacts.extends_start h)) as [[Ht _] _].
  fold h' in Ht. split; [exact Ht |].
  intros fuel v j Hr. rewrite <- (take_drop (length h) h'), Ht.
  now apply StoreFacts.reify_app.
Qed.

End StoreFraming.

(** The copy of a value that is no object and no array is the value. *)
Lemma JSON_copy_primitive v h :
  match v with Store.VRef _ => False | _ => True end ->
  Store.JSON_copy v h = (Ok v, h).
Proof.
  intros Hv. unfold Store.JSON_copy, Store.tree_of, mbind, Store.M_bind.
  destruct v; try contradiction; destruct (length h); reflexivity.
Qed.

Section Primitive.

Variable stringify : json -> bytes.
Variable extname : string -> string.
Variable fs : string -> option fsentry.

(** [createGLB] on a value that has no properties to set. *)
Lemma createGLB_primitive v binaryBuffer h :
  match v with Store.VRef _ | Store.VNull => False | _ => True end ->
  fst (Store.createGLB stringify v binaryBuffer h) = Throw TypeError.
Proof.
  intros Hv. unfold Store.createGLB.
  rewrite (StoreFacts.bind_Ok _ _ _ _ _
             (JSON_copy_primitive v h ltac:(destruct v; auto))).
  destruct v; try contradiction; reflexivity.
Qed.

(** The method on a parsed value that is no object and no array. *)
Lemma convert_parsed_primitive v h :
  match v with Store.VRef _ => False | _ => True end ->
  fst (Store.convert_parsed stringify extname fs v h) = Throw TypeError.
Proof.
  intros Hv. unfold Store.convert_parsed.
  rewrite (StoreFacts.bind_Ok _ _ _ _ _ (JSON_copy_primitive v h Hv)).
  destruct v as [| b | n | s | l | x]; try contradiction; try reflexivity.
  all: do 3 (erewrite StoreFacts.bind_Ok by reflexivity; cbv beta);
    now apply createGLB_primitive.
Qed.

(** X20. A text that parses to [null] or to a boolean, a number or a
    string is never converted: the method throws a [TypeError], at the first
    property it reads of [null], and otherwise at the assignment of [asset]
    to a value that is no object. The method over the store and
    [convert_value] agree on it. *)
Theorem primitive_text_throws text h :
  match text with
  | JArr _ | JObj _ => False
  | _ => True
  end ->
  fst (Store.convertGLTFToGLB stringify extname fs text h) = Throw TypeError
  /\ convert_value stringify extname fs text = Throw TypeError.
Proof.
  intros Hprim. split; [| now destruct text].
  unfold Store.convertGLTFToGLB.
  destruct text as [| b | n | s | l | o | x]; try contradiction.
  all: erewrite StoreFacts.bind_Ok by reflexivity;
    now apply convert_parsed_primitive.
Qed.

End Primitive.

(** ** The theorems on the sample documents *)

Lemma createGLB_container_witness :
  createGLB JSON_stringify (modifiedGltf scene_state)
    (Buffer_concat (binaryChunks scene_state)) = Ok scene_glb
  /\ scene_glb
     = glb_container (blen scene_glb)
         (JSON_stringify (JObj (cleanGltf (modifiedGltf scene_state))))
         (Buffer_concat (binaryChunks scene_state))
  /\ readUInt32LE scene_glb 8 = Some (blen scene_glb)
  /\ blen scene_glb = 260.
Proof.
  assert (H : createGLB JSON_stringify (modifiedGltf scene_state)
                (Buffer_concat (binaryChunks scene_state)) = Ok scene_glb)
    by (vm_compute; reflexivity).
  split; [exact H |].
  destruct (createGLB_container JSON_stringify _ _ _ H) as (Hc & _ & _ & Hlen & _).
  split; [exact Hc |]. split; [exact Hlen | reflexivity].
Defined.

Lemma segment_offsets_witness :
  collect extname_of_name sample_folder doc_scene = Ok scene_state
  /\ segment_table 0 (binaryChunks scene_state) !! 0%nat = Some (0, 10)
  /\ segment_table 0 (binaryChunks scene_state) !! 1%nat = Some (12, 7)
  /\ 0 mod 4 = 0
  /\ 12 = round_up4 (0 + 10).
Proof.
  assert (H : collect extname_of_name sample_folder doc_scene = Ok scene_state)
    by (vm_compute; reflexivity).
  assert (H0 : segment_table 0 (binaryChunks scene_state) !! 0%nat = Some (0, 10))
    by reflexivity.
  assert (H1 : segment_table 0 (binaryChunks scene_state) !! 1%nat = Some (12, 7))
    by reflexivity.
  destruct (segment_offsets extname_of_name sample_folder doc_scene scene_state
              0%nat 0 10 H H0) as [Hal Hnext].
  destruct (Hnext 12 7 H1) as [Hr _].
  repeat split; assumption.
Defined.





(** The two models agree on the document with the string. *)
Lemma store_agrees_on_string_offset :
  fst (Store.convertGLTFToGLB JSON_stringify extname_of_name sample_folder
         (JObj doc_string_offset) [])
  = convertGLTFToGLB JSON_stringify extname_of_name sample_folder doc_string_offset.
Proof. vm_compute. reflexivity. Qed.

(** The image [tex.PNG] gets the type [image/png]; read as it is written, the
    table gives [application/octet-stream] for the extension [.PNG]. *)
Lemma image_mime_type_case_sensitive_fails :
  exists st o',
    collect extname_of_name sample_folder doc_scene = Ok st
    /\ entries "images" (modifiedGltf st) !! 0%nat = Some (JObj o')
    /\ get "mimeType" o' = Some (JStr "image/png")
    /\ mime_table (extname_of_name "tex.PNG") = "application/octet-stream"%string
    /\ get "mimeType" o' <> Some (JStr (mime_table (extname_of_name "tex.PNG"))).
Proof.
  exists scene_state. eexists. repeat split; try (vm_compute; reflexivity).
  vm_compute. discriminate.
Qed.

Lemma image_embedded_witness :
  collect extname_of_name sample_folder doc_scene = Ok scene_state
  /\ exists o',
       entries "images" (modifiedGltf scene_state) !! 0%nat = Some (JObj o')
       /\ get "bufferView" o' = Some (JNum 1)
       /\ get "mimeType" o' = Some (JStr "image/png")
       /\ get "uri" o' = None
       /\ views_of (modifiedGltf scene_state) !! 1%nat
          = Some (JObj [("buffer"%string, JNum 0); ("byteOffset"%string, JNum 12);
                        ("byteLength"%string, JNum 7)]).
Proof.
  assert (H : collect extname_of_name sample_folder doc_scene = Ok scene_state)
    by (vm_compute; reflexivity).
  split; [exact H |].
  destruct (image_embedded extname_of_name sample_folder doc_scene scene_state 0%nat
              (JObj [("uri"%string, JStr "tex.PNG")])
              [("uri"%string, JStr "tex.PNG")] "tex.PNG"%string (repeat x02 7)
              H eq_refl eq_refl eq_refl)
    as (o' & Himg & Hbv & Hmime & Huri & _ & Hview & _).
  exists o'. repeat split; assumption.
Defined.

Lemma missing_files_skipped_witness :
  collect extname_of_name sample_folder doc_missing = Ok missing_state
  /\ views_of (modifiedGltf missing_state) !! 0%nat
     = Some (JObj [("buffer"%string, JNum 0); ("byteOffset"%string, JNum 2);
                   ("byteLength"%string, JNum 2)])
  /\ entries "images" (modifiedGltf missing_state) !! 0%nat
     = Some (JObj [("uri"%string, JStr "missing.png")])
  /\ binaryChunks missing_state = [].
Proof.
  assert (H : collect extname_of_name sample_folder doc_missing = Ok missing_state)
    by (vm_compute; reflexivity).
  destruct (missing_files_skipped extname_of_name sample_folder) as (_ & _ & Hv & Hi).
  split; [exact H |]. split; [| split; [| reflexivity]].
  - apply (Hv doc_missing missing_state 0%nat
             (JObj [("uri"%string, JStr "missing.bin"); ("byteLength"%string, JNum 4)])
             [("uri"%string, JStr "missing.bin"); ("byteLength"%string, JNum 4)]
             "missing.bin"%string 0%nat
             [("buffer"%string, JNum 0); ("byteOffset"%string, JNum 2);
              ("byteLength"%string, JNum 2)] H eq_refl eq_refl eq_refl eq_refl eq_refl).
  - apply (Hi doc_missing missing_state 0%nat
             (JObj [("uri"%string, JStr "missing.png")])
             [("uri"%string, JStr "missing.png")] "missing.png"%string
             H eq_refl eq_refl eq_refl).
Defined.

Lemma doc_data_uses_data_uris :
  Forall uses_data_uri (entries "buffers" doc_data)
  /\ Forall uses_data_uri (entries "images" doc_data).
Proof.
  split; [| constructor].
  repeat constructor. eexists _, _. repeat split; reflexivity.
Qed.

(** The buffer with a [data:] URI is replaced by [{byteLength: 0}]: the JSON
    chunk is not the serialization of the input followed by spaces. *)
Lemma data_uri_json_unmodified_fails :
  Forall uses_data_uri (entries "buffers" doc_data)
  /\ Forall uses_data_uri (entries "images" doc_data)
  /\ exists out payload,
       convertGLTFToGLB JSON_stringify extname_of_name sample_folder doc_data = Ok out
       /\ json_chunk_payload out = Some payload
       /\ payload
          = pad4 x20 (JSON_stringify
                        (JObj [("asset"%string, JObj [("version"%string, JStr "2.0")]);
                               ("buffers"%string,
                                JArr [JObj [("byteLength"%string, JNum 0)]])]))
       /\ forall n, payload <> JSON_stringify (JObj doc_data) ++ repeat x20 n.
Proof.
  destruct doc_data_uses_data_uris as [Hb Hi].
  split; [exact Hb |]. split; [exact Hi |].
  exists data_glb. eexists.
  split; [vm_compute; reflexivity |]. split; [vm_compute; reflexivity |].
  split; [vm_compute; reflexivity |].
  intros n H. apply (f_equal (take 48)) in H. vm_compute in H. discriminate.
Qed.

Lemma data_uri_conversion_witness :
  convertGLTFToGLB JSON_stringify extname_of_name sample_folder doc_data = Ok data_glb
  /\ data_glb
     = glb_container (blen data_glb)
         (JSON_stringify (JObj (cleanGltf (collapse_buffers doc_data)))) []
  /\ json_chunk_payload data_glb
     = Some (pad4 x20 (JSON_stringify (JObj (cleanGltf (collapse_buffers doc_data))))).
Proof.
  assert (H : convertGLTFToGLB JSON_stringify extname_of_name sample_folder doc_data
              = Ok data_glb) by (vm_compute; reflexivity).
  destruct doc_data_uses_data_uris as [Hb Hi].
  destruct (data_uri_conversion JSON_stringify extname_of_name sample_folder
              doc_data data_glb Hb Hi H) as (Hout & Hjson & _).
  split; [exact H |]. split; [exact Hout | exact Hjson].
Defined.

(** An [asset] without [version] is serialized as it is. *)
Lemma asset_version_absent_fails :
  asset_version doc_generator = None
  /\ exists st out,
       collect extname_of_name sample_folder doc_generator = Ok st
       /\ convertGLTFToGLB JSON_stringify extname_of_name sample_folder doc_generator
          = Ok out
       /\ json_chunk_payload out
          = Some (pad4 x20 (JSON_stringify (JObj (cleanGltf (modifiedGltf st)))))
       /\ cleanGltf (modifiedGltf st) = doc_generator
       /\ asset_version (cleanGltf (modifiedGltf st)) <> Some (JStr "2.0").
Proof.
  split; [reflexivity |].
  exists (mkState [] 0 doc_generator), generator_glb.
  repeat split; try (vm_compute; reflexivity).
  vm_compute. discriminate.
Qed.

Lemma asset_ensured_witness :
  convertGLTFToGLB JSON_stringify extname_of_name sample_folder doc_scene = Ok scene_glb
  /\ truthy_prop (get "asset" doc_scene) = false
  /\ exists st,
       collect extname_of_name sample_folder doc_scene = Ok st
       /\ json_chunk_payload scene_glb
          = Some (pad4 x20 (JSON_stringify (JObj (cleanGltf (modifiedGltf st)))))
       /\ get "asset" (cleanGltf (modifiedGltf st))
          = Some (JObj [("version"%string, JStr "2.0")])
       /\ asset_version (cleanGltf (modifiedGltf st)) = Some (JStr "2.0").
Proof.
  assert (H : convertGLTFToGLB JSON_stringify extname_of_name sample_folder doc_scene
              = Ok scene_glb) by (vm_compute; reflexivity).
  split; [exact H |]. split; [reflexivity |].
  destruct (asset_ensured JSON_stringify extname_of_name sample_folder doc_scene
              scene_glb H) as (st & Hc & Hj & Hv & _).
  exists st. split; [exact Hc |]. split; [exact Hj |]. now apply Hv.
Defined.

(** An image whose file exists and is empty: the container has no BIN
    chunk. *)
Lemma empty_image_no_bin_chunk :
  get "buffers" doc_empty_image = None
  /\ entries "images" doc_empty_image !! 0%nat
     = Some (JObj [("uri"%string, JStr "empty.png")])
  /\ embedded_file sample_folder (JObj [("uri"%string, JStr "empty.png")]) = Some []
  /\ exists st out,
       collect extname_of_name sample_folder doc_empty_image = Ok st
       /\ Buffer_concat (binaryChunks st) = []
       /\ convertGLTFToGLB JSON_stringify extname_of_name sample_folder doc_empty_image
          = Ok out
       /\ out = glb_container (blen out)
                  (JSON_stringify (JObj (cleanGltf (modifiedGltf st)))) []
       /\ blen out = 20 + blen (pad4 x20 (JSON_stringify (JObj (cleanGltf (modifiedGltf st))))).
Proof.
  repeat split; try reflexivity.
  eexists. exists empty_image_glb.
  split; [vm_compute; reflexivity |].
  repeat split; vm_compute; reflexivity.
Qed.

Lemma images_without_buffers_witness :
  convertGLTFToGLB JSON_stringify extname_of_name sample_folder doc_image_only
  = Ok image_only_glb
  /\ exists st b region,
       collect extname_of_name sample_folder doc_image_only = Ok st
       /\ Buffer_concat (binaryChunks st) = b :: region
       /\ image_only_glb
          = glb_container (blen image_only_glb)
              (JSON_stringify (JObj (cleanGltf (modifiedGltf st)))) (b :: region)
       /\ get "buffers" (cleanGltf (modifiedGltf st)) = None
       /\ views_of (modifiedGltf st)
          = [JObj [("buffer"%string, JNum 0); ("byteOffset"%string, JNum 0);
                   ("byteLength"%string, JNum 7)]].
Proof.
  assert (H : convertGLTFToGLB JSON_stringify extname_of_name sample_folder doc_image_only
              = Ok image_only_glb) by (vm_compute; reflexivity).
  split; [exact H |].
  destruct (images_without_buffers JSON_stringify extname_of_name sample_folder
              doc_image_only image_only_glb 0%nat
              (JObj [("uri"%string, JStr "tex.PNG")]) (repeat x02 7)
              eq_refl eq_refl eq_refl ltac:(discriminate) H)
    as (st & b & region & Hc & Hr & Hout & Hnb & Hv & _).
  exists st, b, region. repeat split; assumption.
Defined.

Lemma input_not_mutated_witness :
  exists gltfData h1,
    Store.JSON_parse (JObj doc_scene) [] = (Ok gltfData, h1)
    /\ Store.reify (json_depth (JObj doc_scene)) h1 gltfData = Some (JObj doc_scene)
    /\ take (length h1)
         (snd (Store.convert_parsed JSON_stringify extname_of_name sample_folder
                 gltfData h1)) = h1
    /\ Store.reify (json_depth (JObj doc_scene))
         (snd (Store.convert_parsed JSON_stringify extname_of_name sample_folder
                 gltfData h1)) gltfData = Some (JObj doc_scene)
    /\ fst (Store.convert_parsed JSON_stringify extname_of_name sample_folder gltfData h1)
       = Ok scene_glb.
Proof.
  destruct (StoreFacts.input_not_mutated JSON_stringify extname_of_name sample_folder
              (JObj doc_scene) []) as (gltfData & h1 & Hparse & _ & Hread & Hkeep).
  exists gltfData, h1. split; [exact Hparse |]. split; [exact Hread |].
  destruct (Hkeep _ _ (surjective_pairing _)) as [Hframe Hread2].
  split; [exact Hframe |]. split; [exact Hread2 |].
  vm_compute in Hparse. injection Hparse as <- <-. vm_compute. reflexivity.
Defined.

(** On the sample documents the conversion over the store writes the bytes
    of the conversion over trees. *)
Lemma store_agrees_on_samples :
  Forall (fun doc =>
            fst (Store.convertGLTFToGLB JSON_stringify extname_of_name sample_folder
                   (JObj doc) [])
            = convertGLTFToGLB JSON_stringify extname_of_name sample_folder doc)
    [doc_scene; doc_two_buffers; doc_missing; doc_data; doc_generator;
     doc_image_only; doc_empty_image].
Proof. repeat constructor; vm_compute; reflexivity. Qed.

(** The document with the missing files is well formed: its conversion
    returns. *)
Lemma doc_missing_well_formed : well_formed sample_folder doc_missing.
Proof.
  repeat split; simpl; auto; repeat constructor; try discriminate.
  exists 2. reflexivity.
Qed.

(** An assignment through one reference is seen through every reference to
    the same object: without the copy, patching would reach the input. *)
Lemma set_prop_in_place :
  let h := [Store.CObj [("buffer"%string, Store.VNum 1)]] in
  let h' := snd (Store.set_prop (Store.VRef 0) "buffer" (Store.VNum 0) h) in
  fst (Store.get_prop (Store.VRef 0) "buffer" h') = Ok (Some (Store.VNum 0))
  /\ take (length h) h' <> h.
Proof. split; [reflexivity | discriminate]. Qed.

(** ** The further properties on the sample documents *)

Lemma json_chunk_readback_witness :
  createGLB JSON_stringify (modifiedGltf scene_state)
    (Buffer_concat (binaryChunks scene_state)) = Ok scene_glb
  /\ readUInt32LE scene_glb 16 = Some 0x4E4F534A
  /\ exists k,
       0 <= k < 4
       /\ readUInt32LE scene_glb 12
          = Some (blen (JSON_stringify (JObj (cleanGltf (modifiedGltf scene_state)))) + k)
       /\ json_chunk_payload scene_glb
          = Some (JSON_stringify (JObj (cleanGltf (modifiedGltf scene_state)))
                    ++ repeat x20 (Z.to_nat k)).
Proof.
  assert (H : createGLB JSON_stringify (modifiedGltf scene_state)
                (Buffer_concat (binaryChunks scene_state)) = Ok scene_glb)
    by (vm_compute; reflexivity).
  split; [exact H |].
  destruct (json_chunk_readback JSON_stringify _ _ _ H) as (k & Hk & _ & H12 & H16 & Hp).
  split; [exact H16 |]. exists k.
  split; [exact Hk |]. split; [exact H12 | exact Hp].
Defined.

Lemma bin_chunk_readback_witness :
  createGLB JSON_stringify (modifiedGltf scene_state)
    (Buffer_concat (binaryChunks scene_state)) = Ok scene_glb
  /\ bin_chunk scene_glb
     = Some (0x004E4942, pad4 x00 (Buffer_concat (binaryChunks scene_state)))
  /\ pad4 x00 (Buffer_concat (binaryChunks scene_state))
     = repeat x01 10 ++ [x00; x00] ++ repeat x02 7 ++ [x00]
  /\ after_chunks scene_glb = Some []
  /\ after_chunks (scene_glb ++ [x01]) = Some [x01].
Proof.
  assert (H : createGLB JSON_stringify (modifiedGltf scene_state)
                (Buffer_concat (binaryChunks scene_state)) = Ok scene_glb)
    by (vm_compute; reflexivity).
  destruct (bin_chunk_readback JSON_stringify _ _ _ H) as [Hbin Hend].
  split; [exact H |]. split; [exact Hbin |]. split; [reflexivity |].
  split; [exact Hend | vm_compute; reflexivity].
Defined.

Lemma other_members_unchanged_witness :
  collect extname_of_name sample_folder doc_mixed = Ok mixed_state
  /\ get "scenes" (modifiedGltf mixed_state)
     = Some (JArr [JObj [("nodes"%string, JArr [JNum 0])]])
  /\ get "scenes" (cleanGltf (modifiedGltf mixed_state)) = get "scenes" doc_mixed.
Proof.
  assert (H : collect extname_of_name sample_folder doc_mixed = Ok mixed_state)
    by (vm_compute; reflexivity).
  destruct (other_members_unchanged extname_of_name sample_folder doc_mixed mixed_state
              "scenes" H ltac:(discriminate) ltac:(discriminate) ltac:(discriminate))
    as [Hg Hc].
  split; [exact H |]. split; [exact Hg | apply Hc; discriminate].
Defined.

Lemma views_only_appended_witness :
  collect extname_of_name sample_folder doc_mixed = Ok mixed_state
  /\ length (views_of doc_mixed) = 3%nat
  /\ length (views_of (modifiedGltf mixed_state)) = 4%nat
  /\ drop 3 (views_of (modifiedGltf mixed_state))
     = [JObj [("buffer"%string, JNum 0); ("byteOffset"%string, JNum 8);
              ("byteLength"%string, JNum 7)]].
Proof.
  assert (H : collect extname_of_name sample_folder doc_mixed = Ok mixed_state)
    by (vm_compute; reflexivity).
  destruct (views_only_appended extname_of_name sample_folder doc_mixed mixed_state H)
    as [Hl Hd].
  split; [exact H |]. split; [reflexivity |]. split; [exact Hl | exact Hd].
Defined.

Lemma image_views_in_region_witness :
  collect extname_of_name sample_folder doc_mixed = Ok mixed_state
  /\ views_of (modifiedGltf mixed_state) !! 3%nat
     = Some (JObj [("buffer"%string, JNum 0); ("byteOffset"%string, JNum 8);
                   ("byteLength"%string, JNum 7)])
  /\ 8 mod 4 = 0
  /\ 8 + 7 <= blen (Buffer_concat (binaryChunks mixed_state)).
Proof.
  assert (H : collect extname_of_name sample_folder doc_mixed = Ok mixed_state)
    by (vm_compute; reflexivity).
  destruct (image_views_in_region extname_of_name sample_folder doc_mixed mixed_state
              3%nat
              (JObj [("buffer"%string, JNum 0); ("byteOffset"%string, JNum 8);
                     ("byteLength"%string, JNum 7)])
              H ltac:(simpl; lia) eq_refl)
    as (off & len & Hview & _ & Hal & _ & Hend).
  injection Hview as <- <-.
  split; [exact H |]. split; [reflexivity |]. split; [exact Hal | exact Hend].
Defined.

Lemma images_in_place_witness :
  collect extname_of_name sample_folder doc_mixed = Ok mixed_state
  /\ length (entries "images" (modifiedGltf mixed_state)) = 2%nat
  /\ entries "images" (modifiedGltf mixed_state) !! 0%nat
     = Some (JObj [("uri"%string, JStr "data:image/png;base64,AAAA")]).
Proof.
  assert (H : collect extname_of_name sample_folder doc_mixed = Ok mixed_state)
    by (vm_compute; reflexivity).
  destruct (images_in_place extname_of_name sample_folder doc_mixed mixed_state H)
    as [Hl Hi].
  split; [exact H |]. split; [exact Hl |].
  exact (Hi 0%nat (JObj [("uri"%string, JStr "data:image/png;base64,AAAA")])
           eq_refl eq_refl).
Defined.

Lemma unrelated_views_unchanged_witness :
  collect extname_of_name sample_folder doc_mixed = Ok mixed_state
  /\ embedded_file sample_folder
       (JObj [("uri"%string, JStr "data:application/octet-stream;base64,AAAA");
              ("byteLength"%string, JNum 3)]) = None
  /\ views_of (modifiedGltf mixed_state) !! 1%nat
     = Some (JObj [("buffer"%string, JNum 1); ("byteOffset"%string, JNum 1);
                   ("byteLength"%string, JNum 2)])
  /\ views_of (modifiedGltf mixed_state) !! 2%nat
     = Some (JObj [("buffer"%string, JNum 7); ("byteLength"%string, JNum 1)]).
Proof.
  assert (H : collect extname_of_name sample_folder doc_mixed = Ok mixed_state)
    by (vm_compute; reflexivity).
  split; [exact H |]. split; [reflexivity |]. split.
  - apply (unrelated_views_unchanged extname_of_name sample_folder doc_mixed mixed_state
             1%nat _ H eq_refl).
    intros n buffer v Hn Hv Hb. injection Hv as <-. simpl in Hb. injection Hb as Hb.
    assert (n = 1%nat) as -> by lia. vm_compute in Hn. injection Hn as <-. reflexivity.
  - apply (unrelated_views_unchanged extname_of_name sample_folder doc_mixed mixed_state
             2%nat _ H eq_refl).
    intros n buffer v Hn Hv Hb. injection Hv as <-. simpl in Hb. injection Hb as Hb.
    assert (n = 7%nat) as -> by lia. vm_compute in Hn. discriminate.
Defined.

Lemma unreadable_resource_fails_witness :
  locked_folder "textures" = Some Unreadable
  /\ collect extname_of_name locked_folder doc_locked = Throw IOError
  /\ exists e, collect extname_of_name locked_folder doc_locked = Throw e.
Proof.
  split; [reflexivity |]. split; [reflexivity |].
  apply (unreadable_resource_fails extname_of_name locked_folder doc_locked
           (JObj [("uri"%string, JStr "textures")])).
  - simpl. right. left. reflexivity.
  - intros Hr. apply Hr. reflexivity.
Defined.

Lemma region_contents_witness :
  collect extname_of_name sample_folder doc_mixed = Ok mixed_state
  /\ Buffer_concat (binaryChunks mixed_state)
     = repeat x03 7 ++ [x00] ++ repeat x02 7 ++ [x00].
Proof.
  assert (H : collect extname_of_name sample_folder doc_mixed = Ok mixed_state)
    by (vm_compute; reflexivity).
  split; [exact H |].
  exact (region_contents extname_of_name sample_folder doc_mixed mixed_state H).
Defined.

Lemma output_names_no_file_witness :
  collect extname_of_name sample_folder doc_scene = Ok scene_state
  /\ external_files sample_folder (entries "buffers" doc_scene) = [repeat x01 10]
  /\ external_files sample_folder (entries "images" doc_scene) = [repeat x02 7]
  /\ external_files sample_folder (entries "buffers" (modifiedGltf scene_state)) = []
  /\ external_files sample_folder (entries "images" (modifiedGltf scene_state)) = [].
Proof.
  assert (H : collect extname_of_name sample_folder doc_scene = Ok scene_state)
    by (vm_compute; reflexivity).
  destruct (output_names_no_file extname_of_name sample_folder doc_scene scene_state H)
    as [Hb Hi].
  split; [exact H |]. split; [reflexivity |]. split; [reflexivity |].
  split; [exact Hb | exact Hi].
Defined.

Lemma doc_scene_well_formed : well_formed sample_folder doc_scene.
Proof.
  repeat split; simpl; auto; repeat constructor; try discriminate.
  exists 0. reflexivity.
Qed.

Lemma well_formed_converts_witness :
  well_formed sample_folder doc_scene
  /\ exists st out,
       collect extname_of_name sample_folder doc_scene = Ok st
       /\ glb_size (JSON_stringify (JObj (cleanGltf (modifiedGltf st))))
            (Buffer_concat (binaryChunks st)) = 260
       /\ convertGLTFToGLB JSON_stringify extname_of_name sample_folder doc_scene = Ok out.
Proof.
  split; [exact doc_scene_well_formed |].
  destruct (well_formed_converts JSON_stringify extname_of_name sample_folder doc_scene
              doc_scene_well_formed) as (st & Hc & Hiff).
  assert (Hst : st = scene_state).
  { assert (H : collect extname_of_name sample_folder doc_scene = Ok scene_state)
      by (vm_compute; reflexivity).
    rewrite H in Hc. now injection Hc. }
  subst st.
  assert (Hsize : glb_size (JSON_stringify (JObj (cleanGltf (modifiedGltf scene_state))))
                    (Buffer_concat (binaryChunks scene_state)) = 260)
    by (vm_compute; reflexivity).
  destruct (proj2 Hiff ltac:(rewrite Hsize; lia)) as [out Hout].
  exists scene_state, out. split; [exact Hc |]. split; [exact Hsize | exact Hout].
Defined.

Lemma converted_bin_payload_witness :
  convertGLTFToGLB JSON_stringify extname_of_name sample_folder doc_scene = Ok scene_glb
  /\ bin_chunk scene_glb
     = Some (0x004E4942, repeat x01 10 ++ [x00; x00] ++ repeat x02 7 ++ [x00]).
Proof.
  assert (H : convertGLTFToGLB JSON_stringify extname_of_name sample_folder doc_scene
              = Ok scene_glb) by (vm_compute; reflexivity).
  split; [exact H |].
  exact (converted_bin_payload JSON_stringify extname_of_name sample_folder doc_scene
           scene_glb H).
Defined.

Lemma convertAll_reports_each_file_witness :
  snd (disk_convertAll sample_disk)
  = [ Found 4; Converted "scene.gltf"; Failed "broken.gltf" NotParsed;
      Failed "null.gltf" (NotConverted TypeError); Converted "data.gltf" ]
  /\ map fst (snd (fst (disk_convertAll sample_disk))) = ["data.glb"; "scene.glb"]%string
  /\ omap event_file (snd (disk_convertAll sample_disk))
     = ["scene.gltf"; "broken.gltf"; "null.gltf"; "data.gltf"]%string.
Proof.
  split; [vm_compute; reflexivity |]. split; [vm_compute; reflexivity |].
  exact (proj1 (convertAll_reports_each_file JSON_stringify extname_of_name disk
                  disk_readdir disk_read disk_resources name_of disk_write disk_beyond
                  sample_disk)).
Defined.

Lemma failed_batch_writes_nothing_witness :
  snd (disk_convertAll failing_disk)
  = [ Found 2; Failed "broken.gltf" NotParsed;
      Failed "null.gltf" (NotConverted TypeError) ]
  /\ fst (disk_convertAll failing_disk) = failing_disk.
Proof.
  split; [vm_compute; reflexivity |].
  apply (failed_batch_writes_nothing JSON_stringify extname_of_name disk
           disk_readdir disk_read disk_resources name_of disk_write disk_beyond
           failing_disk).
  intros name gltfData Hin Hends Hread.
  simpl in Hin. destruct Hin as [<- | [<- | [<- | []]]].
  - discriminate Hread.
  - discriminate Hends.
  - injection Hread as <-. exists TypeError. split; [reflexivity | discriminate].
Defined.


Lemma primitive_text_throws_witness :
  fst (Store.convertGLTFToGLB JSON_stringify extname_of_name sample_folder JNull [])
  = Throw TypeError
  /\ convert_value JSON_stringify extname_of_name sample_folder JNull = Throw TypeError.
Proof.
  exact (primitive_text_throws JSON_stringify extname_of_name sample_folder JNull [] I).
Defined.

Lemma getMimeType_case_insensitive_witness :
  equal_ignoring_case ".PNG" ".png" = true
  /\ getMimeType ".PNG" = getMimeType ".png"
  /\ getMimeType ".png" = JStr "image/png"
  /\ getMimeType ".Jpeg" = JStr "image/jpeg"
  /\ exists m, getMimeType ".png" = JStr m /\ In m mime_strings.
Proof.
  destruct (getMimeType_case_insensitive ".png") as (Hcase & _ & Hstring).
  split; [reflexivity |]. split; [exact (Hcase ".PNG"%string eq_refl) |].
  split; [reflexivity |]. split; [reflexivity |].
  apply Hstring. right. now exists "png"%string.
Defined.
